(** * Chat-session persistence and document orchestration of the RAG assistant

    A shallow embedding of [helpers_func.py], of the document-handling part of
    [rag_functions.py] and of the session switch of [streamlit_app.py].

    The Python code works on ambient state: the SQLite file, the upload
    directory, Streamlit's [st.session_state], the root logger, and the
    external embedding and generation services.  All of it is gathered in one
    record, [World], and every Python function becomes a computation of the
    monad [M], which threads the world and carries Python exceptions. *)

From Stdlib Require Import ZArith List String Ascii Strings.Byte Bool Lia QArith_base.
From Stdlib Require Import Sorting.Sorted Sorting.Permutation.
Import ListNotations.
Local Open Scope string_scope.
Local Open Scope list_scope.
Local Open Scope Z_scope.

(** ** Python values used by the code *)

Definition bytes := list byte.

Definition bytes_of_string (s : string) : bytes := list_byte_of_string s.

(** A Python float that the code only measures, stores and reads back. *)
Definition float := Q.

(** [x or ""]-style truthiness of an optional string: [None] and the empty
    string are falsy. *)
Definition truthy_str (s : option string) : bool :=
  match s with
  | Some EmptyString => false
  | Some _ => true
  | None => false
  end.

(** [s.startswith(p)] *)
Definition startswith (s p : string) : bool := String.prefix p s.

(** [s.rfind(".")], as a position from the left; [None] is Python's -1. *)
Fixpoint rfind_dot (s : string) : option nat :=
  match s with
  | EmptyString => None
  | String c rest =>
      match rfind_dot rest with
      | Some i => Some (S i)
      | None => if Ascii.eqb c "."%char then Some O else None
      end
  end.

(** The last component of a POSIX path: [PurePosixPath(p).name].  Empty
    components and ["."] components are dropped by the path parser. *)
Fixpoint split_slash (s : string) (cur : string) : list string :=
  match s with
  | EmptyString => [cur]
  | String c rest =>
      if Ascii.eqb c "/"%char then cur :: split_slash rest EmptyString
      else split_slash rest (cur ++ String c EmptyString)%string
  end.

Definition path_parts (p : string) : list string :=
  filter (fun part => negb (String.eqb part "" || String.eqb part "."))
         (split_slash p "").

Definition path_name (p : string) : string := last (path_parts p) "".

(** [Path(p).suffix] and [Path(p).stem]: the suffix starts at the last dot of
    the name, unless that dot is the first or the last character. *)
Definition path_suffix (p : string) : string :=
  let name := path_name p in
  match rfind_dot name with
  | Some i =>
      if ((0 <? i) && (i <? String.length name - 1))%nat
      then substring i (String.length name - i) name
      else ""
  | None => ""
  end.

Definition path_stem (p : string) : string :=
  let name := path_name p in
  match rfind_dot name with
  | Some i =>
      if ((0 <? i) && (i <? String.length name - 1))%nat
      then substring 0 i name
      else name
  | None => name
  end.

(** ** [hashlib.md5(...).hexdigest()] (RFC 1321) *)

Module MD5.

Definition mask32 (x : Z) : Z := Z.land x 0xffffffff.

Definition add32 (x y : Z) : Z := mask32 (x + y).

Definition not32 (x : Z) : Z := Z.lxor x 0xffffffff.

Definition rotl32 (x n : Z) : Z :=
  mask32 (Z.lor (Z.shiftl x n) (Z.shiftr x (32 - n))).

Definition shifts : list Z :=
  [ 7; 12; 17; 22; 7; 12; 17; 22; 7; 12; 17; 22; 7; 12; 17; 22;
    5; 9; 14; 20; 5; 9; 14; 20; 5; 9; 14; 20; 5; 9; 14; 20;
    4; 11; 16; 23; 4; 11; 16; 23; 4; 11; 16; 23; 4; 11; 16; 23;
    6; 10; 15; 21; 6; 10; 15; 21; 6; 10; 15; 21; 6; 10; 15; 21 ].

(** [floor(2^32 * abs(sin(i + 1)))] for i = 0 .. 63 *)
Definition sines : list Z :=
  [ 0xd76aa478; 0xe8c7b756; 0x242070db; 0xc1bdceee;
    0xf57c0faf; 0x4787c62a; 0xa8304613; 0xfd469501;
    0x698098d8; 0x8b44f7af; 0xffff5bb1; 0x895cd7be;
    0x6b901122; 0xfd987193; 0xa679438e; 0x49b40821;
    0xf61e2562; 0xc040b340; 0x265e5a51; 0xe9b6c7aa;
    0xd62f105d; 0x02441453; 0xd8a1e681; 0xe7d3fbc8;
    0x21e1cde6; 0xc33707d6; 0xf4d50d87; 0x455a14ed;
    0xa9e3e905; 0xfcefa3f8; 0x676f02d9; 0x8d2a4c8a;
    0xfffa3942; 0x8771f681; 0x6d9d6122; 0xfde5380c;
    0xa4beea44; 0x4bdecfa9; 0xf6bb4b60; 0xbebfbc70;
    0x289b7ec6; 0xeaa127fa; 0xd4ef3085; 0x04881d05;
    0xd9d4d039; 0xe6db99e5; 0x1fa27cf8; 0xc4ac5665;
    0xf4292244; 0x432aff97; 0xab9423a7; 0xfc93a039;
    0x655b59c3; 0x8f0ccc92; 0xffeff47d; 0x85845dd1;
    0x6fa87e4f; 0xfe2ce6e0; 0xa3014314; 0x4e0811a1;
    0xf7537e82; 0xbd3af235; 0x2ad7d2bb; 0xeb86d391 ].

Definition regs := (Z * Z * Z * Z)%type.

Definition init : regs := (0x67452301, 0xefcdab89, 0x98badcfe, 0x10325476).

(** One of the 64 operations on a 16-word block [m]. *)
Definition round (m : list Z) (r : regs) (i : nat) : regs :=
  let '(a, b, c, d) := r in
  let iz := Z.of_nat i in
  let '(f, g) :=
    if iz <? 16 then (Z.lor (Z.land b c) (Z.land (not32 b) d), iz)
    else if iz <? 32 then
      (Z.lor (Z.land d b) (Z.land (not32 d) c), (5 * iz + 1) mod 16)
    else if iz <? 48 then (Z.lxor b (Z.lxor c d), (3 * iz + 5) mod 16)
    else (Z.lxor c (Z.lor b (not32 d)), (7 * iz) mod 16) in
  let f' := add32 (add32 (add32 f a) (nth i sines 0)) (nth (Z.to_nat g) m 0) in
  (d, add32 b (rotl32 f' (nth i shifts 0)), b, c).

Definition compress (h : regs) (m : list Z) : regs :=
  let '(a0, b0, c0, d0) := h in
  let '(a, b, c, d) := fold_left (round m) (seq 0 64) h in
  (add32 a0 a, add32 b0 b, add32 c0 c, add32 d0 d).

Definition byte_z (b : byte) : Z := Z.of_N (Byte.to_N b).

(** Little-endian value of a group of bytes. *)
Fixpoint le_word (bs : list Z) : Z :=
  match bs with
  | [] => 0
  | b :: rest => b + 256 * le_word rest
  end.

(** The [n] low bytes of [x], least significant first. *)
Fixpoint le_bytes (n : nat) (x : Z) : list Z :=
  match n with
  | O => []
  | S k => (x mod 256) :: le_bytes k (x / 256)
  end.

(** Message, the bit 1, zeros up to 56 mod 64, then the bit length on
    eight bytes. *)
Definition pad (msg : list Z) : list Z :=
  let len := Z.of_nat (List.length msg) in
  let zeros := Z.to_nat ((55 - len) mod 64) in
  msg ++ [0x80] ++ repeat 0 zeros ++ le_bytes 8 ((8 * len) mod 2 ^ 64).

(** Cut into groups of [n] elements; [fuel] bounds the number of groups. *)
Fixpoint groups {A} (n : nat) (fuel : nat) (l : list A) : list (list A) :=
  match fuel with
  | O => []
  | S k =>
      match l with
      | [] => []
      | _ => firstn n l :: groups n k (skipn n l)
      end
  end.

Definition blocks (padded : list Z) : list (list Z) :=
  map (fun blk => map le_word (groups 4 16 blk))
      (groups 64 (List.length padded) padded).

Definition digest (msg : bytes) : list Z :=
  let '(a, b, c, d) := fold_left compress (blocks (pad (map byte_z msg))) init in
  le_bytes 4 a ++ le_bytes 4 b ++ le_bytes 4 c ++ le_bytes 4 d.

Definition hex_digit (x : Z) : ascii :=
  nth (Z.to_nat x)
      ["0"; "1"; "2"; "3"; "4"; "5"; "6"; "7";
       "8"; "9"; "a"; "b"; "c"; "d"; "e"; "f"]%char "0"%char.

Fixpoint hex (bs : list Z) : string :=
  match bs with
  | [] => EmptyString
  | b :: rest => String (hex_digit (b / 16)) (String (hex_digit (b mod 16)) (hex rest))
  end.

Definition hexdigest (msg : bytes) : string := hex (digest msg).

End MD5.

(** [get_file_hash]: the fingerprint of a document's bytes. *)
Definition get_file_hash (file_content : bytes) : string :=
  MD5.hexdigest file_content.

(** ** The SQLite file [chat_data.sqlite3]

    Two tables, as [_init_db] creates them.  Both primary keys are
    [INTEGER PRIMARY KEY AUTOINCREMENT]: SQLite keeps, per table, the largest
    row id ever handed out (table [sqlite_sequence]) and gives a new row the
    successor of the larger of that number and the largest id in the table.
    The [FOREIGN KEY] clause of [chat_messages] is declared, but the code
    never switches [PRAGMA foreign_keys] on, so SQLite does not enforce it. *)

Record session_row := {
  s_id : Z;
  s_created_at : string;
  s_document_path : option string;
  s_document_unique_name : option string;
  s_document_display_name : option string
}.

Record message_row := {
  m_id : Z;
  m_chat_id : Z;
  m_timestamp : string;
  m_question : string;
  m_answer : string;
  m_response_time : float;
  m_document : option string
}.

Record DB := {
  chat_sessions : list session_row;
  chat_messages : list message_row;
  seq_sessions : Z;
  seq_messages : Z
}.

Definition max_id (ids : list Z) : Z := fold_right Z.max 0 ids.

Definition next_id (seq : Z) (ids : list Z) : Z := Z.max seq (max_id ids) + 1.

(** [ORDER BY key ASC]: insertion sort, earlier rows first among equal keys. *)
Fixpoint insert_by {A} (key : A -> Z) (x : A) (l : list A) : list A :=
  match l with
  | [] => [x]
  | y :: rest => if key x <=? key y then x :: l else y :: insert_by key x rest
  end.

Fixpoint order_by {A} (key : A -> Z) (l : list A) : list A :=
  match l with
  | [] => []
  | x :: rest => insert_by key x (order_by key rest)
  end.

(** [ORDER BY key DESC] *)
Definition order_by_desc {A} (key : A -> Z) (l : list A) : list A :=
  order_by (fun x => - key x) l.

(** [INSERT INTO chat_sessions(created_at) VALUES (?)]; the result is
    [cur.lastrowid]. *)
Definition insert_session (created_at : string) (d : DB) : Z * DB :=
  let id := next_id (seq_sessions d) (map s_id (chat_sessions d)) in
  (id,
   {| chat_sessions :=
        chat_sessions d ++
        [ {| s_id := id; s_created_at := created_at;
             s_document_path := None; s_document_unique_name := None;
             s_document_display_name := None |} ];
      chat_messages := chat_messages d;
      seq_sessions := id;
      seq_messages := seq_messages d |}).

(** [INSERT INTO chat_messages(chat_id, timestamp, question, answer,
    response_time, document) VALUES (?, ?, ?, ?, ?, ?)] *)
Definition insert_message (chat : Z) (ts q a : string) (rt : float)
    (doc : option string) (d : DB) : DB :=
  let id := next_id (seq_messages d) (map m_id (chat_messages d)) in
  {| chat_sessions := chat_sessions d;
     chat_messages :=
       chat_messages d ++
       [ {| m_id := id; m_chat_id := chat; m_timestamp := ts;
            m_question := q; m_answer := a; m_response_time := rt;
            m_document := doc |} ];
     seq_sessions := seq_sessions d;
     seq_messages := id |}.

(** [UPDATE chat_sessions SET document_path = ?, document_unique_name = ?,
    document_display_name = ? WHERE id = ?] *)
Definition update_session_document (path uname dname : option string)
    (chat : Z) (d : DB) : DB :=
  {| chat_sessions :=
       map (fun s =>
              if s_id s =? chat then
                {| s_id := s_id s; s_created_at := s_created_at s;
                   s_document_path := path;
                   s_document_unique_name := uname;
                   s_document_display_name := dname |}
              else s)
           (chat_sessions d);
     chat_messages := chat_messages d;
     seq_sessions := seq_sessions d;
     seq_messages := seq_messages d |}.

(** [DELETE FROM chat_messages WHERE chat_id = ?].  The parameter may be
    Python's [None]: [chat_id = NULL] holds for no row. *)
Definition delete_messages_of (chat : option Z) (d : DB) : DB :=
  {| chat_sessions := chat_sessions d;
     chat_messages :=
       filter (fun m => match chat with
                        | Some c => negb (m_chat_id m =? c)
                        | None => true
                        end)
              (chat_messages d);
     seq_sessions := seq_sessions d;
     seq_messages := seq_messages d |}.

(** [DELETE FROM chat_sessions WHERE id = ?] *)
Definition delete_session_row (chat : option Z) (d : DB) : DB :=
  {| chat_sessions :=
       filter (fun s => match chat with
                        | Some c => negb (s_id s =? c)
                        | None => true
                        end)
              (chat_sessions d);
     chat_messages := chat_messages d;
     seq_sessions := seq_sessions d;
     seq_messages := seq_messages d |}.

(** [SELECT ... FROM chat_messages WHERE chat_id = ? ORDER BY id ASC] *)
Definition select_messages (chat : Z) (d : DB) : list message_row :=
  order_by m_id (filter (fun m => m_chat_id m =? chat) (chat_messages d)).

(** The scalar subquery of [get_chat_sessions]:
    [SELECT m.answer FROM chat_messages m WHERE m.chat_id = s.id
     ORDER BY m.id DESC LIMIT 1]; [None] is SQL's NULL. *)
Definition select_last_answer (chat : Z) (d : DB) : option string :=
  option_map m_answer
    (hd_error
       (order_by_desc m_id
          (filter (fun m => m_chat_id m =? chat) (chat_messages d)))).

(** [SELECT s.id, s.document_display_name, (...) AS last_answer
     FROM chat_sessions s ORDER BY s.id DESC] *)
Definition select_sessions (d : DB)
  : list (Z * option string * option string) :=
  map (fun s => (s_id s, s_document_display_name s, select_last_answer (s_id s) d))
      (order_by_desc s_id (chat_sessions d)).

(** [SELECT document_path, document_unique_name, document_display_name
     FROM chat_sessions WHERE id = ?], then [cur.fetchone()] *)
Definition select_metadata (chat : Z) (d : DB) : option session_row :=
  find (fun s => s_id s =? chat) (chat_sessions d).

(** ** Exceptions, log records, clock *)

(** The exceptions the modelled calls raise.  [RerunException] is what
    [st.rerun()] raises; it derives from [BaseException], so an
    [except Exception] clause lets it through. *)
Inductive exn :=
| SqliteError
| OSError
| AttributeError
| StreamlitAPIException
| ServiceError
| RerunException.

Definition is_Exception (e : exn) : bool :=
  match e with
  | RerunException => false
  | _ => true
  end.

(** An f-string: its text with [{}] for each hole, and the values put in. *)
Inductive fmt_arg :=
| FStr (s : string)
| FInt (n : Z)
| FFloat2 (q : float)
| FExn (e : exn).

Record message := Fmt { template : string; fmt_args : list fmt_arg }.

(** An entry of [st.session_state.process_logs]:
    ["[{timestamp}] {log_type}: {message}"]. *)
Record log_entry := {
  log_timestamp : string;
  log_type : string;
  log_message : message
}.

(** One reading of the clock: [time.time()] and the fields of
    [datetime.now()]. *)
Record instant := {
  epoch : float;
  year : nat; month : nat; day : nat;
  hour : nat; minute : nat; second : nat
}.

Definition digit (n : nat) : string :=
  String (ascii_of_nat (48 + n mod 10)) EmptyString.

Definition pad2 (n : nat) : string := (digit (n / 10) ++ digit n)%string.

Definition pad4 (n : nat) : string :=
  (digit (n / 1000) ++ digit (n / 100) ++ digit (n / 10) ++ digit n)%string.

(** [strftime("%H:%M:%S")] *)
Definition strftime_HMS (t : instant) : string :=
  (pad2 (hour t) ++ ":" ++ pad2 (minute t) ++ ":" ++ pad2 (second t))%string.

(** [strftime("%Y%m%d")] *)
Definition strftime_Ymd (t : instant) : string :=
  (pad4 (year t) ++ pad2 (month t) ++ pad2 (day t))%string.

(** [strftime("%Y-%m-%d %H:%M:%S")] *)
Definition strftime_full (t : instant) : string :=
  (pad4 (year t) ++ "-" ++ pad2 (month t) ++ "-" ++ pad2 (day t) ++ " "
   ++ strftime_HMS t)%string.

(** ** [st.session_state] *)

(** A document dictionary with the keys [name], [path] and [unique_name]:
    the value of [current_document], and what [get_chat_metadata] returns. *)
Record document := {
  d_name : option string;
  d_path : option string;
  d_unique_name : option string
}.

(** A chat dictionary: an entry of [chat_history], and a row as
    [get_chat_messages] returns it. *)
Record chat_entry := {
  e_timestamp : string;
  e_question : string;
  e_answer : string;
  e_response_time : float;
  e_document : option string
}.

(** The handle of a Chroma collection built from a document. *)
Record VectorDB := {
  collection_name : string;
  chunks : list string
}.

(** The key [chat_id]: missing from the session state, [None], or an id. *)
Inductive chat_id_slot :=
| Absent
| PyNone
| PyInt (id : Z).

Record SessionState := {
  chat_history : list chat_entry;
  process_logs : list log_entry;
  current_document : option document;
  vector_db : option VectorDB;
  document_processed : bool;
  chat_id : chat_id_slot;
  current_doc_hash : option string;
  last_response : option string;
  query_input : string
}.

(** [st.session_state.get('chat_id')] *)
Definition get_chat_id (s : SessionState) : option Z :=
  match chat_id s with
  | PyInt id => Some id
  | _ => None
  end.

(** The state the top of [streamlit_app.py] sets up in a new browser
    session. *)
Definition initial_session_state : SessionState :=
  {| chat_history := []; process_logs := []; current_document := None;
     vector_db := None; document_processed := false; chat_id := Absent;
     current_doc_hash := None; last_response := None; query_input := "" |}.

(** ** The world *)

(** The external collaborators, as functions of what they are given. *)
Record Services := {
  load_document : string -> bytes -> list string;
  split_text : list string -> list string;
  similarity_search : VectorDB -> string -> list string;
  generate : string -> string -> string
}.

Record World := {
  db : DB;                          (* committed content of the SQLite file *)
  conn : DB;                        (* content as the open connection sees it *)
  upload_dir : option (list (string * bytes));
                                    (* ./processed_docs, in os.listdir order *)
  st : SessionState;
  clock : nat -> instant;           (* successive readings of the clock *)
  ticks : nat;                      (* readings taken so far *)
  faults : list bool;               (* does the next fallible call raise? *)
  root_log : list (string * message);  (* records of the logging module *)
  ui_errors : list message;         (* st.error(...) *)
  builds : list string;             (* arguments of the index builds so far *)
  services : Services;
  model_cache : option bool;        (* st.cache_resource of preload_model *)
  query_input_bound : bool          (* the chat_input widget exists in this run *)
}.

Definition set_db (v : DB) (w : World) : World :=
  {| db := v; conn := conn w; upload_dir := upload_dir w; st := st w;
     clock := clock w; ticks := ticks w; faults := faults w;
     root_log := root_log w; ui_errors := ui_errors w; builds := builds w;
     services := services w; model_cache := model_cache w;
     query_input_bound := query_input_bound w |}.

Definition set_conn (v : DB) (w : World) : World :=
  {| db := db w; conn := v; upload_dir := upload_dir w; st := st w;
     clock := clock w; ticks := ticks w; faults := faults w;
     root_log := root_log w; ui_errors := ui_errors w; builds := builds w;
     services := services w; model_cache := model_cache w;
     query_input_bound := query_input_bound w |}.

Definition set_upload_dir (v : option (list (string * bytes))) (w : World)
  : World :=
  {| db := db w; conn := conn w; upload_dir := v; st := st w;
     clock := clock w; ticks := ticks w; faults := faults w;
     root_log := root_log w; ui_errors := ui_errors w; builds := builds w;
     services := services w; model_cache := model_cache w;
     query_input_bound := query_input_bound w |}.

Definition set_st (v : SessionState) (w : World) : World :=
  {| db := db w; conn := conn w; upload_dir := upload_dir w; st := v;
     clock := clock w; ticks := ticks w; faults := faults w;
     root_log := root_log w; ui_errors := ui_errors w; builds := builds w;
     services := services w; model_cache := model_cache w;
     query_input_bound := query_input_bound w |}.

Definition set_ticks (v : nat) (w : World) : World :=
  {| db := db w; conn := conn w; upload_dir := upload_dir w; st := st w;
     clock := clock w; ticks := v; faults := faults w;
     root_log := root_log w; ui_errors := ui_errors w; builds := builds w;
     services := services w; model_cache := model_cache w;
     query_input_bound := query_input_bound w |}.

Definition set_faults (v : list bool) (w : World) : World :=
  {| db := db w; conn := conn w; upload_dir := upload_dir w; st := st w;
     clock := clock w; ticks := ticks w; faults := v;
     root_log := root_log w; ui_errors := ui_errors w; builds := builds w;
     services := services w; model_cache := model_cache w;
     query_input_bound := query_input_bound w |}.

Definition set_root_log (v : list (string * message)) (w : World) : World :=
  {| db := db w; conn := conn w; upload_dir := upload_dir w; st := st w;
     clock := clock w; ticks := ticks w; faults := faults w;
     root_log := v; ui_errors := ui_errors w; builds := builds w;
     services := services w; model_cache := model_cache w;
     query_input_bound := query_input_bound w |}.

Definition set_ui_errors (v : list message) (w : World) : World :=
  {| db := db w; conn := conn w; upload_dir := upload_dir w; st := st w;
     clock := clock w; ticks := ticks w; faults := faults w;
     root_log := root_log w; ui_errors := v; builds := builds w;
     services := services w; model_cache := model_cache w;
     query_input_bound := query_input_bound w |}.

Definition set_builds (v : list string) (w : World) : World :=
  {| db := db w; conn := conn w; upload_dir := upload_dir w; st := st w;
     clock := clock w; ticks := ticks w; faults := faults w;
     root_log := root_log w; ui_errors := ui_errors w; builds := v;
     services := services w; model_cache := model_cache w;
     query_input_bound := query_input_bound w |}.

Definition set_model_cache (v : option bool) (w : World) : World :=
  {| db := db w; conn := conn w; upload_dir := upload_dir w; st := st w;
     clock := clock w; ticks := ticks w; faults := faults w;
     root_log := root_log w; ui_errors := ui_errors w; builds := builds w;
     services := services w; model_cache := v;
     query_input_bound := query_input_bound w |}.

(** Assignments to the keys of [st.session_state]. *)
Definition set_chat_history (v : list chat_entry) (s : SessionState) :=
  {| chat_history := v; process_logs := process_logs s;
     current_document := current_document s; vector_db := vector_db s;
     document_processed := document_processed s; chat_id := chat_id s;
     current_doc_hash := current_doc_hash s;
     last_response := last_response s; query_input := query_input s |}.

Definition set_process_logs (v : list log_entry) (s : SessionState) :=
  {| chat_history := chat_history s; process_logs := v;
     current_document := current_document s; vector_db := vector_db s;
     document_processed := document_processed s; chat_id := chat_id s;
     current_doc_hash := current_doc_hash s;
     last_response := last_response s; query_input := query_input s |}.

Definition set_current_document (v : option document) (s : SessionState) :=
  {| chat_history := chat_history s; process_logs := process_logs s;
     current_document := v; vector_db := vector_db s;
     document_processed := document_processed s; chat_id := chat_id s;
     current_doc_hash := current_doc_hash s;
     last_response := last_response s; query_input := query_input s |}.

Definition set_vector_db (v : option VectorDB) (s : SessionState) :=
  {| chat_history := chat_history s; process_logs := process_logs s;
     current_document := current_document s; vector_db := v;
     document_processed := document_processed s; chat_id := chat_id s;
     current_doc_hash := current_doc_hash s;
     last_response := last_response s; query_input := query_input s |}.

Definition set_document_processed (v : bool) (s : SessionState) :=
  {| chat_history := chat_history s; process_logs := process_logs s;
     current_document := current_document s; vector_db := vector_db s;
     document_processed := v; chat_id := chat_id s;
     current_doc_hash := current_doc_hash s;
     last_response := last_response s; query_input := query_input s |}.

Definition set_chat_id (v : chat_id_slot) (s : SessionState) :=
  {| chat_history := chat_history s; process_logs := process_logs s;
     current_document := current_document s; vector_db := vector_db s;
     document_processed := document_processed s; chat_id := v;
     current_doc_hash := current_doc_hash s;
     last_response := last_response s; query_input := query_input s |}.

Definition set_current_doc_hash (v : option string) (s : SessionState) :=
  {| chat_history := chat_history s; process_logs := process_logs s;
     current_document := current_document s; vector_db := vector_db s;
     document_processed := document_processed s; chat_id := chat_id s;
     current_doc_hash := v;
     last_response := last_response s; query_input := query_input s |}.

Definition set_last_response (v : option string) (s : SessionState) :=
  {| chat_history := chat_history s; process_logs := process_logs s;
     current_document := current_document s; vector_db := vector_db s;
     document_processed := document_processed s; chat_id := chat_id s;
     current_doc_hash := current_doc_hash s;
     last_response := v; query_input := query_input s |}.

Definition set_query_input (v : string) (s : SessionState) :=
  {| chat_history := chat_history s; process_logs := process_logs s;
     current_document := current_document s; vector_db := vector_db s;
     document_processed := document_processed s; chat_id := chat_id s;
     current_doc_hash := current_doc_hash s;
     last_response := last_response s; query_input := v |}.

(** ** The monad of Python computations

    A computation takes the world and gives back the world it leaves and
    either a value or the exception it raised.  What was written before an
    exception stays written. *)

Inductive result (A : Type) :=
| Ok (a : A)
| Raise (e : exn).

Arguments Ok {A} a.
Arguments Raise {A} e.

Definition M (A : Type) : Type := World -> result A * World.

Definition ret {A} (a : A) : M A := fun w => (Ok a, w).

Definition bind {A B} (m : M A) (k : A -> M B) : M B :=
  fun w =>
    match m w with
    | (Ok a, w') => k a w'
    | (Raise e, w') => (Raise e, w')
    end.

Definition raise {A} (e : exn) : M A := fun w => (Raise e, w).

Definition gets {A} (f : World -> A) : M A := fun w => (Ok (f w), w).

Definition modify (f : World -> World) : M unit := fun w => (Ok tt, f w).

Declare Scope py_scope.
Delimit Scope py_scope with py.
Bind Scope py_scope with M.

Notation "x <- m ;; k" := (bind m (fun x => k))
  (at level 61, m at next level, right associativity) : py_scope.
Notation "m ;; k" := (bind m (fun _ => k))
  (at level 61, right associativity) : py_scope.

Local Open Scope py_scope.

(** [try: body except Exception as e: handler(e)] *)
Definition try_except {A} (body : M A) (handler : exn -> M A) : M A :=
  fun w =>
    match body w with
    | (Ok a, w') => (Ok a, w')
    | (Raise e, w') => if is_Exception e then handler e w' else (Raise e, w')
    end.

(** The world after a computation, and its outcome. *)
Definition exec {A} (m : M A) (w : World) : World := snd (m w).
Definition outcome {A} (m : M A) (w : World) : result A := fst (m w).

(** A call that the environment can make fail: it raises [e] when the next
    entry of the fault schedule says so.  An exhausted schedule means no
    further failure. *)
Definition fallible (e : exn) : M unit :=
  fun w =>
    match faults w with
    | true :: rest => (Raise e, set_faults rest w)
    | false :: rest => (Ok tt, set_faults rest w)
    | [] => (Ok tt, w)
    end.

Definition modify_st (f : SessionState -> SessionState) : M unit :=
  modify (fun w => set_st (f (st w)) w).

(** [datetime.now()] *)
Definition datetime_now : M instant :=
  fun w => (Ok (clock w (ticks w)), set_ticks (S (ticks w)) w).

(** [time.time()] *)
Definition time_time : M float :=
  fun w => (Ok (epoch (clock w (ticks w))), set_ticks (S (ticks w)) w).

Definition logging_info (msg : message) : M unit :=
  modify (fun w => set_root_log (root_log w ++ [("INFO", msg)]) w).

Definition logging_error (msg : message) : M unit :=
  modify (fun w => set_root_log (root_log w ++ [("ERROR", msg)]) w).

Definition st_error (msg : message) : M unit :=
  modify (fun w => set_ui_errors (ui_errors w ++ [msg]) w).

(** [st.rerun()] *)
Definition st_rerun {A} : M A := raise RerunException.

(** *** sqlite3

    [with sqlite3.connect(DB_PATH) as conn] opens a connection, which sees
    the committed content.  The first INSERT, UPDATE or DELETE opens a
    transaction implicitly; its writes stay in the connection until
    [conn.commit()].  When the block is left by an exception the connection
    rolls back.  Left normally, it commits: every block of this program has
    by then either committed as its last statement or only read, so nothing
    is pending and that final commit writes what the file already holds. *)

Definition sqlite3_connect : M unit :=
  fallible SqliteError ;;
  modify (fun w => set_conn (db w) w).

(** [cur.execute] of a statement that writes *)
Definition execute (stmt : DB -> DB) : M unit :=
  fallible SqliteError ;;
  modify (fun w => set_conn (stmt (conn w)) w).

(** [cur.execute] of an INSERT, followed by [cur.lastrowid] *)
Definition execute_insert (stmt : DB -> Z * DB) : M Z :=
  fallible SqliteError ;;
  r <- gets (fun w => stmt (conn w)) ;;
  modify (set_conn (snd r)) ;;
  ret (fst r).

(** [cur.execute] of a SELECT, followed by [fetchall] or [fetchone] *)
Definition execute_query {A} (q : DB -> A) : M A :=
  fallible SqliteError ;;
  gets (fun w => q (conn w)).

Definition commit : M unit :=
  fallible SqliteError ;;
  modify (fun w => set_db (conn w) w).

Definition rollback (w : World) : World := set_conn (db w) w.

Definition with_connection {A} (body : M A) : M A :=
  sqlite3_connect ;;
  fun w =>
    match body w with
    | (Ok a, w') => (Ok a, set_db (conn w') w')
    | (Raise e, w') => (Raise e, rollback w')
    end.

(** ** [helpers_func.py] *)

Definition UPLOAD_DIRECTORY : string := "./processed_docs".

(** [add_log(message, log_type="INFO")] *)
Definition add_log (msg : message) (type : string) : M unit :=
  t <- datetime_now ;;
  let log_entry :=
    {| log_timestamp := strftime_HMS t; log_type := type; log_message := msg |} in
  modify_st (fun s => set_process_logs (process_logs s ++ [log_entry]) s) ;;
  logging_info msg.

Definition clear_logs : M unit :=
  modify_st (set_process_logs []).

(** The parameter tuple of the INSERT reads [st.session_state.chat_id]: a
    missing key is an [AttributeError]; [None] breaks the [NOT NULL]
    constraint of the column. *)
Definition read_chat_id : M Z :=
  s <- gets st ;;
  match chat_id s with
  | PyInt id => ret id
  | Absent => raise AttributeError
  | PyNone => raise SqliteError
  end.

Definition add_to_chat_history (question answer : string)
    (response_time : float) (doc_name : option string) : M unit :=
  t <- datetime_now ;;
  let chat_entry :=
    {| e_timestamp := strftime_full t; e_question := question;
       e_answer := answer; e_response_time := response_time;
       e_document := doc_name |} in
  modify_st (fun s => set_chat_history (chat_history s ++ [chat_entry]) s) ;;
  (* Persist to DB under current chat session *)
  try_except
    ((* Ensure a chat session exists *)
     s <- gets st ;;
     match get_chat_id s with
     | None =>
         with_connection
           (t' <- datetime_now ;;
            lastrowid <- execute_insert (insert_session (strftime_full t')) ;;
            modify_st (set_chat_id (PyInt lastrowid)) ;;
            commit)
     | Some _ => ret tt
     end ;;
     with_connection
       (cid <- read_chat_id ;;
        execute (insert_message cid (e_timestamp chat_entry)
                   (e_question chat_entry) (e_answer chat_entry)
                   (e_response_time chat_entry) (e_document chat_entry)) ;;
        (* Update current chat session with document metadata *)
        try_except
          (s <- gets st ;;
           match current_document s with
           | Some d =>
               execute (update_session_document
                          (d_path d) (d_unique_name d) (d_name d) cid)
           | None => ret tt
           end)
          (fun e =>
             logging_error
               (Fmt "Failed to update chat session doc metadata: {}" [FExn e])) ;;
        commit))
    (fun e => logging_error (Fmt "Failed to persist chat message: {}" [FExn e])).

(** The [try] block of [start_new_chat_session] assigns the local
    [new_chat_id] between the INSERT and the commit, and the function
    returns that local after the [except] clause: [handler] is given the
    value the local had when the exception was raised. *)
Definition start_new_chat_session : M (option Z) :=
  let handler (new_chat_id : option Z) (e : exn) : M (option Z) :=
    if is_Exception e then
      logging_error (Fmt "Failed to create new chat session: {}" [FExn e]) ;;
      ret new_chat_id
    else raise e in
  new_chat_id <-
    (fun w =>
       match sqlite3_connect w with
       | (Raise e, w1) => handler None e w1
       | (Ok _, w1) =>
           match (t <- datetime_now ;;
                  execute_insert (insert_session (strftime_full t))) w1 with
           | (Raise e, w2) => handler None e (rollback w2)
           | (Ok lastrowid, w2) =>
               match (modify_st (set_chat_id (PyInt lastrowid)) ;; commit) w2 with
               | (Raise e, w3) => handler (Some lastrowid) e (rollback w3)
               | (Ok _, w3) => (Ok (Some lastrowid), set_db (conn w3) w3)
               end
           end
       end) ;;
  (* Reset in-memory chat-related state but keep document/vector_db *)
  modify_st (set_chat_history []) ;;
  modify_st (set_process_logs []) ;;
  modify_st (set_last_response None) ;;
  (* Clear input box if present *)
  try_except
    (bound <- gets query_input_bound ;;
     if bound then raise StreamlitAPIException
     else modify_st (set_query_input ""))
    (fun _ => ret tt) ;;
  ret new_chat_id.

(** A dictionary of the list [get_chat_sessions] returns. *)
Record session_summary := {
  sum_id : Z;
  sum_document_display_name : option string;
  sum_last_answer : option string
}.

(** [{"id": r[0], "document_display_name": r[1], "last_answer": r[2]}] *)
Definition session_dict (r : Z * option string * option string)
  : session_summary :=
  {| sum_id := fst (fst r);
     sum_document_display_name := snd (fst r);
     sum_last_answer := snd r |}.

Definition get_chat_sessions : M (list session_summary) :=
  try_except
    (with_connection
       (rows <- execute_query select_sessions ;;
        ret (map session_dict rows)))
    (fun e =>
       logging_error (Fmt "Failed to fetch chat sessions: {}" [FExn e]) ;;
       ret []).

(** The dictionary made of a selected message row. *)
Definition message_dict (r : message_row) : chat_entry :=
  {| e_timestamp := m_timestamp r;
     e_question := m_question r;
     e_answer := m_answer r;
     e_response_time := m_response_time r;
     e_document := m_document r |}.

Definition get_chat_messages (chat : Z) : M (list chat_entry) :=
  try_except
    (with_connection
       (rows <- execute_query (select_messages chat) ;;
        ret (map message_dict rows)))
    (fun e =>
       logging_error (Fmt "Failed to fetch chat messages: {}" [FExn e]) ;;
       ret []).

(** [{"path": row[0], "unique_name": row[1], "name": row[2]}] *)
Definition metadata_dict (r : session_row) : document :=
  {| d_name := s_document_display_name r;
     d_path := s_document_path r;
     d_unique_name := s_document_unique_name r |}.

Definition get_chat_metadata (chat : Z) : M (option document) :=
  try_except
    (with_connection
       (row <- execute_query (select_metadata chat) ;;
        match row with
        | None => ret None
        | Some r => ret (Some (metadata_dict r))
        end))
    (fun e =>
       logging_error (Fmt "Failed to fetch chat metadata: {}" [FExn e]) ;;
       ret None).

(** [delete_chat_session(chat_id)]; the caller passes
    [st.session_state.chat_id], which may be [None]. *)
Definition delete_chat_session (chat : option Z) : M unit :=
  try_except
    (with_connection
       (execute (delete_messages_of chat) ;;
        execute (delete_session_row chat) ;;
        commit))
    (fun e =>
       logging_error
         (Fmt "Failed to delete chat session {}: {}"
              [match chat with Some c => FInt c | None => FStr "None" end;
               FExn e])).

(** An uploaded file: [uploaded_file.name] and [uploaded_file.getbuffer()]. *)
Record upload := {
  up_name : string;
  up_bytes : bytes
}.

(** [os.path.join(UPLOAD_DIRECTORY, name).replace(os.sep, '/')] *)
Definition upload_path (name : string) : string :=
  (UPLOAD_DIRECTORY ++ "/" ++ name)%string.

(** [open(path, "wb")] followed by [f.write(content)], for a file of the
    upload directory: a file of that name is replaced, a new one is listed
    last. *)
Fixpoint write_file (name : string) (content : bytes)
    (files : list (string * bytes)) : list (string * bytes) :=
  match files with
  | [] => [(name, content)]
  | (n, c) :: rest =>
      if String.eqb n name then (name, content) :: rest
      else (n, c) :: write_file name content rest
  end.

(** [os.makedirs(UPLOAD_DIRECTORY, exist_ok=True)] *)
Definition makedirs_upload_directory : M unit :=
  fallible OSError ;;
  modify (fun w =>
            match upload_dir w with
            | Some _ => w
            | None => set_upload_dir (Some []) w
            end).

(** [with open(file_path, "wb") as f: f.write(content)]; without the
    directory, [open] fails. *)
Definition write_upload (name : string) (content : bytes) : M unit :=
  fallible OSError ;;
  dir <- gets upload_dir ;;
  match dir with
  | Some files => modify (set_upload_dir (Some (write_file name content files)))
  | None => raise OSError
  end.

Definition save_uploaded_file (uploaded_file : upload)
  : M (option string * option string) :=
  try_except
    (t <- datetime_now ;;
     let timestamp := strftime_Ymd t in
     let file_extension := path_suffix (up_name uploaded_file) in
     let original_name := path_stem (up_name uploaded_file) in
     (* check if a file with the same original name exists *)
     dir <- gets upload_dir ;;
     found <-
       match dir with
       | Some files =>
           fallible OSError ;;     (* os.listdir *)
           ret (find (fun current_file =>
                        startswith current_file (original_name ++ "_")%string)
                     (map fst files))
       | None => ret None
       end ;;
     match found with
     | Some current_file =>
         let existing_path := upload_path current_file in
         add_log (Fmt "SAME Document found in memory: {}" [FStr current_file])
                 "INFO" ;;
         ret (Some existing_path, Some current_file)
     | None =>
         (* Create unique filename and path in memory *)
         let unique_filename :=
           (original_name ++ "_" ++ timestamp ++ file_extension)%string in
         let file_path := upload_path unique_filename in
         makedirs_upload_directory ;;
         write_upload unique_filename (up_bytes uploaded_file) ;;
         add_log (Fmt "This file: {}, got the FIRST time" [FStr unique_filename])
                 "INFO" ;;
         add_log (Fmt "File saved successfully: {}" [FStr unique_filename])
                 "INFO" ;;
         ret (Some file_path, Some unique_filename)
     end)
    (fun e =>
       add_log (Fmt "Error saving file: {}" [FExn e]) "ERROR" ;;
       ret (None, None)).

(** ** [rag_functions.py] *)

Definition MODEL_NAME : string := "codegemma:latest".
Definition EMBEDDING_MODEL : string := "nomic-embed-text".

Definition lower_ascii (c : ascii) : ascii :=
  let n := nat_of_ascii c in
  if ((65 <=? n) && (n <=? 90))%nat then ascii_of_nat (n + 32) else c.

Definition upper_ascii (c : ascii) : ascii :=
  let n := nat_of_ascii c in
  if ((97 <=? n) && (n <=? 122))%nat then ascii_of_nat (n - 32) else c.

Fixpoint map_string (f : ascii -> ascii) (s : string) : string :=
  match s with
  | EmptyString => EmptyString
  | String c rest => String (f c) (map_string f rest)
  end.

Definition lower : string -> string := map_string lower_ascii.
Definition upper : string -> string := map_string upper_ascii.

Fixpoint all_dots (s : string) : bool :=
  match s with
  | EmptyString => true
  | String c rest => Ascii.eqb c "."%char && all_dots rest
  end.

(** [os.path.splitext(p)[1]]: from the last dot of the last segment, unless
    only dots come before it. *)
Definition splitext_ext (p : string) : string :=
  let name := last (split_slash p "") "" in
  match rfind_dot name with
  | Some i =>
      if all_dots (substring 0 i name) then ""
      else substring i (String.length name - i) name
  | None => ""
  end.

(** The file a path names.  The program only ever forms paths of the upload
    directory, with [upload_path]. *)
Definition read_path (p : string) (w : World) : option bytes :=
  match upload_dir w with
  | Some files =>
      option_map snd
        (find (fun f => String.eqb (upload_path (fst f)) p) files)
  | None => None
  end.

Definition count {A} (l : list A) : fmt_arg := FInt (Z.of_nat (List.length l)).

(** The loaders of [langchain_community.document_loaders]. *)
Inductive loader :=
| UnstructuredPDFLoader
| CSVLoader
| TextLoader.

(** [loader.load()]: the documents (their [page_content]) that the
    collaborator named by the tag extracts; the call itself may fail. *)
Definition loader_load (kind : loader) (content : bytes) : M (list string) :=
  fallible ServiceError ;;
  svc <- gets services ;;
  ret (load_document svc
         (match kind with
          | UnstructuredPDFLoader => "pdf"
          | CSVLoader => "csv"
          | TextLoader => "text"
          end)
         content).

Definition ingest_docs (doc_path : string) : M (option (list string)) :=
  add_log (Fmt "Attempting to load file from: {}" [FStr doc_path]) "INFO" ;;
  file <- gets (read_path doc_path) ;;
  match file with
  | None =>
      add_log (Fmt "File not found at path: {}" [FStr doc_path]) "ERROR" ;;
      st_error (Fmt "File not found" []) ;;
      ret None
  | Some content =>
      let ext := lower (splitext_ext doc_path) in
      try_except
        (if String.eqb ext ".pdf" then
           add_log (Fmt "PDF file detected, loading document..." []) "INFO" ;;
           docs <- loader_load UnstructuredPDFLoader content ;;
           add_log (Fmt "PDF loaded successfully. Found {} document(s)"
                        [count docs]) "INFO" ;;
           ret (Some docs)
         else if String.eqb ext ".csv" then
           add_log (Fmt "CSV file detected, loading rows as documents..." [])
                   "INFO" ;;
           docs <- loader_load CSVLoader content ;;
           add_log (Fmt "CSV loaded successfully. Found {} rows" [count docs])
                   "INFO" ;;
           ret (Some docs)
         else if String.eqb ext ".json" || String.eqb ext ".txt" then
           add_log (Fmt "{} file detected, loading as text document..."
                        [FStr (upper ext)]) "INFO" ;;
           docs <- loader_load TextLoader content ;;
           add_log (Fmt "File loaded successfully. Found {} document(s)"
                        [count docs]) "INFO" ;;
           ret (Some docs)
         else
           (* Fallback: treat as text *)
           add_log (Fmt "Unknown extension, loading as plain text" []) "INFO" ;;
           docs <- loader_load TextLoader content ;;
           add_log (Fmt "File loaded successfully. Found {} document(s)"
                        [count docs]) "INFO" ;;
           ret (Some docs))
        (fun e =>
           add_log (Fmt "Error loading file: {}" [FExn e]) "ERROR" ;;
           st_error (Fmt "Error loading file: {}" [FExn e]) ;;
           ret None)
  end.

Definition split_documents (documents : list string) : M (list string) :=
  add_log (Fmt "Starting document splitting process..." []) "INFO" ;;
  svc <- gets services ;;
  let chunks := split_text svc documents in
  add_log (Fmt "Documents split into {} chunks with improved parameters"
               [count chunks]) "INFO" ;;
  ret chunks.

(** [create_vector_db_from_document(doc_path)].  The first step is not in
    the source: it records the call in [builds], so that theorems can count
    the index builds. *)
Definition create_vector_db_from_document (doc_path : string)
  : M (option VectorDB) :=
  modify (fun w => set_builds (builds w ++ [doc_path]) w) ;;
  add_log (Fmt "Creating vector database from uploaded document..." [])
          "INFO" ;;
  add_log (Fmt "Ensuring embedding model is available: {}"
               [FStr EMBEDDING_MODEL]) "INFO" ;;
  pulled <-
    try_except
      (fallible ServiceError ;;      (* ollama.pull(EMBEDDING_MODEL) *)
       add_log (Fmt "Embedding model ready" []) "INFO" ;;
       ret true)
      (fun e =>
         add_log (Fmt "Error pulling embedding model: {}" [FExn e]) "ERROR" ;;
         ret false) ;;
  if negb pulled then ret None
  else
    data <- ingest_docs doc_path ;;
    match data with
    | None => ret None
    | Some docs =>
        chunks <- split_documents docs ;;
        add_log (Fmt "Creating vector database from document chunks..." [])
                "INFO" ;;
        try_except
          (fallible OSError ;;       (* open(doc_path, 'rb').read() *)
           file <- gets (read_path doc_path) ;;
           match file with
           | None => raise OSError
           | Some content =>
               let name :=
                 ("doc_" ++ substring 0 8 (get_file_hash content))%string in
               fallible ServiceError ;;   (* Chroma.from_documents *)
               add_log (Fmt "Vector database created successfully" []) "INFO" ;;
               ret (Some {| collection_name := name; chunks := chunks |})
           end)
          (fun e =>
             add_log (Fmt "Error creating vector database: {}" [FExn e])
                     "ERROR" ;;
             ret None)
    end.

(** [vector_db.as_retriever(...)]: on [None] the attribute access fails. *)
Definition create_fast_retriever (vdb : option VectorDB) : M VectorDB :=
  add_log (Fmt "Creating enhanced similarity retriever" []) "INFO" ;;
  match vdb with
  | None => raise AttributeError
  | Some v =>
      add_log (Fmt "Enhanced retriever created (k = 5 similarity search)" [])
              "INFO" ;;
      ret v
  end.

Definition create_chain : M unit :=
  add_log (Fmt "Building RAG chain" []) "INFO" ;;
  add_log (Fmt "RAG chain created successfully" []) "INFO".

(** [preload_model], under [st.cache_resource]: the body runs on the first
    call, later calls get the cached value.  The result is whether a model
    was loaded ([None] otherwise). *)
Definition preload_model : M bool :=
  cached <- gets model_cache ;;
  match cached with
  | Some llm => ret llm
  | None =>
      add_log (Fmt "Preloading model: {}" [FStr MODEL_NAME]) "INFO" ;;
      llm <-
        try_except
          (add_log (Fmt "Warming up the model with test query..." []) "INFO" ;;
           fallible ServiceError ;;       (* llm.invoke("Hello") *)
           add_log (Fmt "Model preloaded and warmed up successfully" [])
                   "INFO" ;;
           ret true)
          (fun e =>
             add_log (Fmt "Model preload failed: {}" [FExn e]) "ERROR" ;;
             st_error (Fmt "Model preload failed: {}" [FExn e]) ;;
             ret false) ;;
      modify (set_model_cache (Some llm)) ;;
      ret llm
  end.

Definition newline : string := String (ascii_of_nat 10) EmptyString.

(** ["\n\n".join(doc.page_content for doc in docs)] *)
Definition format_docs (docs : list string) : string :=
  String.concat (newline ++ newline)%string docs.

(** [process_query(user_input, overall_start)].  The calls that only render
    (metrics, the log expander, the retrieved chunks) are left out: they
    write nothing.  The "Clear Logs" button of the log expander exists only
    in a run that carries a question, and a click on it is reported in the
    next run, which carries none: inside this function it is never pressed. *)
Definition process_query (user_input : string) (overall_start : float)
  : M unit :=
  try_except
    (add_log (Fmt "Retrieving preloaded model..." []) "INFO" ;;
     llm <- preload_model ;;
     if negb llm then st_error (Fmt "Failed to load the language model" [])
     else
       add_log (Fmt "Setting up document retriever..." []) "INFO" ;;
       vdb <- gets (fun w => vector_db (st w)) ;;
       retriever <- create_fast_retriever vdb ;;
       add_log (Fmt "Searching for relevant document chunks..." []) "INFO" ;;
       fallible ServiceError ;;      (* retriever.get_relevant_documents *)
       svc <- gets services ;;
       let relevant_docs := similarity_search svc retriever user_input in
       add_log (Fmt "Found {} relevant document chunks" [count relevant_docs])
               "INFO" ;;
       let context := format_docs relevant_docs in
       add_log (Fmt "Creating processing chain..." []) "INFO" ;;
       create_chain ;;
       add_log (Fmt "Generating response..." []) "INFO" ;;
       response_start <- time_time ;;
       fallible ServiceError ;;      (* rag_chain.invoke *)
       let response := generate svc context user_input in
       response_end <- time_time ;;
       overall_end <- time_time ;;
       let response_time := Qminus response_end response_start in
       let total_time := Qminus overall_end overall_start in
       add_log (Fmt "Response generated successfully in {}s"
                    [FFloat2 response_time]) "INFO" ;;
       add_log (Fmt "Total process time: {}s" [FFloat2 total_time]) "INFO" ;;
       modify_st (set_last_response (Some response)) ;;
       (* Add to chat history *)
       doc <- gets (fun w => current_document (st w)) ;;
       add_to_chat_history user_input response response_time
         (match doc with
          | Some d => d_name d
          | None => Some "Unknown"
          end))
    (fun e =>
       add_log (Fmt "An error occurred during query processing: {}" [FExn e])
               "ERROR" ;;
       st_error (Fmt "An error occurred during query processing: {}" [FExn e]) ;;
       logging_error (Fmt "Error details: {}" [FExn e])).

Definition process_query_with_document (user_input : string)
    (uploaded_file : upload) : M unit :=
  (* Check if we need to process this document *)
  let file_hash := get_file_hash (up_bytes uploaded_file) in
  current_doc_hash <- gets (fun w => current_doc_hash (st w)) ;;
  (* Only process document if it's new or changed *)
  if negb (match current_doc_hash with
           | Some h => String.eqb file_hash h
           | None => false
           end)
  then
    clear_logs ;;
    add_log (Fmt "Processing new document: {}" [FStr (up_name uploaded_file)])
            "INFO" ;;
    try_except
      (overall_start <- time_time ;;
       (* Save uploaded file *)
       saved <- save_uploaded_file uploaded_file ;;
       match saved with
       | (Some file_path, unique_filename) =>
           modify_st (set_current_document
                        (Some {| d_name := Some (up_name uploaded_file);
                                 d_path := Some file_path;
                                 d_unique_name := unique_filename |})) ;;
           modify_st (set_current_doc_hash (Some file_hash)) ;;
           (* Create vector database from document *)
           vdb <- create_vector_db_from_document file_path ;;
           match vdb with
           | None => st_error (Fmt "Failed to process the document" [])
           | Some v =>
               modify_st (set_vector_db (Some v)) ;;
               modify_st (set_document_processed true) ;;
               process_query user_input overall_start
           end
       | (None, _) => st_error (Fmt "Failed to save uploaded file" [])
       end)
      (fun e =>
         add_log (Fmt "An error occurred: {}" [FExn e]) "ERROR" ;;
         st_error (Fmt "An error occurred: {}" [FExn e]) ;;
         logging_error (Fmt "Error details: {}" [FExn e]))
  else
    (* Document already processed, just handle the query *)
    vdb <- gets (fun w => vector_db (st w)) ;;
    match vdb with
    | Some _ =>
        now <- time_time ;;
        process_query user_input now
    | None => ret tt
    end.

(** ** [streamlit_app.py] *)

(** The turn handling of [main]: a question with an uploaded file, or a
    follow-up question while an index is there. *)
Definition handle_turn (user_input : string) (uploaded_file : option upload)
  : M unit :=
  match uploaded_file with
  | Some f =>
      if String.eqb user_input "" then ret tt
      else process_query_with_document user_input f
  | None =>
      vdb <- gets (fun w => vector_db (st w)) ;;
      match vdb with
      | Some _ =>
          if String.eqb user_input "" then ret tt
          else (now <- time_time ;; process_query user_input now)
      | None => ret tt
      end
  end.

(** The "New Chat" button. *)
Definition new_chat_button : M unit :=
  new_id <- start_new_chat_session ;;
  modify_st (set_chat_id (match new_id with
                          | Some id => PyInt id
                          | None => PyNone
                          end)) ;;
  st_rerun.

(** The "Delete" button.  With the key [chat_id] missing, reading
    [st.session_state.chat_id] raises and [except Exception: pass] ends the
    handler. *)
Definition delete_button : M unit :=
  try_except
    (s <- gets st ;;
     match chat_id s with
     | Absent => raise AttributeError
     | PyNone => delete_chat_session None
     | PyInt id => delete_chat_session (Some id)
     end ;;
     modify_st (set_chat_id PyNone) ;;
     modify_st (set_chat_history []) ;;
     st_rerun)
    (fun _ => ret tt).

(** The session switch of the sidebar: [selected_id] is the id of the chat
    the radio button returns. *)
Definition switch_session (selected_id : Z) : M unit :=
  current_id <- gets (fun w => get_chat_id (st w)) ;;
  if negb (match current_id with
           | Some c => c =? selected_id
           | None => false
           end)
  then
    modify_st (set_chat_id (PyInt selected_id)) ;;
    (* Restore document and vector DB *)
    meta <- get_chat_metadata selected_id ;;
    match meta with
    | Some m =>
        if truthy_str (d_path m) then
          modify_st (set_current_document (Some m)) ;;
          try_except
            (vdb <- create_vector_db_from_document
                      (match d_path m with Some p => p | None => "" end) ;;
             match vdb with
             | Some v =>
                 modify_st (set_vector_db (Some v)) ;;
                 modify_st (set_document_processed true)
             | None => ret tt
             end)
            (fun _ => ret tt)
        else ret tt
    | None => ret tt
    end ;;
    st_rerun
  else ret tt.

(** * Vocabulary of the proofs *)

(** Footprints: [keeps f m] says that [m] leaves the projection [f] of the
    world as it found it, whatever its outcome. *)
Definition keeps {X A} (f : World -> X) (m : M A) : Prop :=
  forall w, f (exec m w) = f w.

(** A computation that raises nothing but [Exception]s, and one that always
    returns. *)
Definition safe {A} (m : M A) : Prop :=
  forall w e, outcome m w = Raise e -> is_Exception e = true.

Definition returns {A} (m : M A) : Prop :=
  forall w, exists a, outcome m w = Ok a.

(** [triple P m Q E]: run from a world satisfying [P], the computation [m]
    either returns [a] in a world satisfying [Q a], or raises [e] in a world
    satisfying [E e]. *)
Definition triple {A} (P : World -> Prop) (m : M A)
    (Q : A -> World -> Prop) (E : exn -> World -> Prop) : Prop :=
  forall w, P w ->
    match m w with
    | (Ok a, w') => Q a w'
    | (Raise e, w') => E e w'
    end.

(** Assertions that do not read the fault schedule. *)
Definition faults_blind (P : World -> Prop) : Prop :=
  forall w v, P w -> P (set_faults v w).

(** The next fallible call does not raise. *)
Definition next_call_succeeds (w : World) : Prop :=
  match faults w with
  | true :: _ => False
  | _ => True
  end.

(** A list in which every key is at most the keys after it. *)
Definition ascending {A} (key : A -> Z) (l : list A) : Prop :=
  StronglySorted (fun x y => key x <= key y) l.

(** * Vocabulary of the claims *)

(** ** Messages *)

(** The entry that [add_to_chat_history] builds when called in world [w]. *)
Definition entry_at (w : World) (q a : string) (rt : float)
    (doc : option string) : chat_entry :=
  {| e_timestamp := strftime_full (clock w (ticks w)); e_question := q;
     e_answer := a; e_response_time := rt; e_document := doc |}.

(** The row of [chat_messages] that stores an entry. *)
Definition row_of (id chat : Z) (e : chat_entry) : message_row :=
  {| m_id := id; m_chat_id := chat; m_timestamp := e_timestamp e;
     m_question := e_question e; m_answer := e_answer e;
     m_response_time := e_response_time e; m_document := e_document e |}.

(** The record that reports a failed persistence step. *)
Definition persist_error (e : exn) : string * message :=
  ("ERROR", Fmt "Failed to persist chat message: {}" [FExn e]).

(** The database after the two statements of the second transaction of
    [add_to_chat_history], for session [sid], entry [en] and current
    document [cd]. *)
Definition appended_db (sid : Z) (en : chat_entry) (cd : option document)
    (d : DB) : DB :=
  let d1 := insert_message sid (e_timestamp en) (e_question en) (e_answer en)
              (e_response_time en) (e_document en) d in
  match cd with
  | Some dc =>
      update_session_document (d_path dc) (d_unique_name dc) (d_name dc) sid d1
  | None => d1
  end.

(** The arguments of one call of [add_to_chat_history], and a run of such
    calls, one after the other. *)
Record turn := {
  t_question : string;
  t_answer : string;
  t_response_time : float;
  t_document : option string
}.

Definition turn_of (e : chat_entry) : turn :=
  {| t_question := e_question e; t_answer := e_answer e;
     t_response_time := e_response_time e; t_document := e_document e |}.

Fixpoint append_all (turns : list turn) : M unit :=
  match turns with
  | [] => ret tt
  | t :: rest =>
      add_to_chat_history (t_question t) (t_answer t) (t_response_time t)
        (t_document t) ;;
      append_all rest
  end.

(** The rows of [chat_messages] that belong to a session, as stored. *)
Definition messages_of (chat : Z) (d : DB) : list message_row :=
  filter (fun m => m_chat_id m =? chat) (chat_messages d).

(** The foreign key of the schema: every message row names a session row. *)
Definition fk_holds (d : DB) : Prop :=
  forall m, In m (chat_messages d) ->
            In (m_chat_id m) (map s_id (chat_sessions d)).

(** ** Sessions *)

(** The database after both DELETE statements of [delete_chat_session]. *)
Definition deleted (id : Z) (d : DB) : DB :=
  delete_session_row (Some id) (delete_messages_of (Some id) d).

(** The record that reports a failed deletion. *)
Definition delete_error (id : Z) (e : exn) : string * message :=
  ("ERROR", Fmt "Failed to delete chat session {}: {}" [FInt id; FExn e]).

(** [ans] is the answer of the message of session [chat] with the largest
    id, or nothing when the session has no message. *)
Definition last_answer_of (d : DB) (chat : Z) (ans : option string) : Prop :=
  match ans with
  | None => messages_of chat d = []
  | Some a =>
      exists m, In m (messages_of chat d) /\ m_answer m = a /\
                forall m', In m' (messages_of chat d) -> m_id m' <= m_id m
  end.

(** Three sessions created one after the other. *)
Definition create_three : M (option Z * option Z * option Z) :=
  a <- start_new_chat_session ;;
  b <- start_new_chat_session ;;
  c <- start_new_chat_session ;;
  ret (a, b, c).

(** Session [chat] has no document path on record: its row has none (or an
    empty one), or there is no such row. *)
Definition no_recorded_path (chat : Z) (d : DB) : Prop :=
  match select_metadata chat d with
  | Some r => truthy_str (s_document_path r) = false
  | None => True
  end.

(** ** Documents *)

(** What the orchestrator holds about its document: the index builds made so
    far, the vector database, the fingerprint and the document record. *)
Definition index_view (w : World)
  : list string * option VectorDB * option string * option document :=
  (builds w, vector_db (st w), current_doc_hash (st w),
   current_document (st w)).

(** The document part of the session state. *)
Definition st_view (w : World)
  : option VectorDB * option string * option document :=
  (vector_db (st w), current_doc_hash (st w), current_document (st w)).

(** The outcome of the save step of [process_query_with_document] when the
    upload is taken as a new document in world [w]: [save_uploaded_file]
    runs after the logs are cleared, the first line is logged and the time
    is read. *)
Definition save_step (up : upload) (w : World)
  : result (option string * option string) :=
  outcome (save_uploaded_file up)
    (exec (clear_logs ;;
           add_log (Fmt "Processing new document: {}" [FStr (up_name up)])
                   "INFO" ;;
           time_time) w).

(** The test of the scan in [save_uploaded_file]: the stored name starts
    with the stem of the uploaded name and an underscore. *)
Definition same_base_name (up : upload) (stored : string) : bool :=
  startswith stored (path_stem (up_name up) ++ "_")%string.

(** The file name [save_uploaded_file] makes for an upload in world [w]:
    stem, underscore, date stamp, extension. *)
Definition unique_filename_at (w : World) (up : upload) : string :=
  (path_stem (up_name up) ++ "_" ++ strftime_Ymd (clock w (ticks w))
   ++ path_suffix (up_name up))%string.

(** * Concrete worlds *)

(** The third of November 2026, five past nine, and one second more at each
    reading of the clock. *)
Definition demo_clock (n : nat) : instant :=
  {| epoch := inject_Z (Z.of_nat n);
     year := 2026; month := 11; day := 3;
     hour := 9; minute := 5; second := n mod 60 |}.

(** Collaborators that take the whole file as one document and one chunk,
    and answer every question with the same sentence. *)
Definition demo_services : Services :=
  {| load_document := fun _ content => [string_of_list_byte content];
     split_text := fun docs => docs;
     similarity_search := fun v _ => chunks v;
     generate := fun _ _ => "The total is 42." |}.

Definition empty_db : DB :=
  {| chat_sessions := []; chat_messages := [];
     seq_sessions := 0; seq_messages := 0 |}.

(** A first start: empty tables, empty upload directory, a new browser
    session, and an environment that never fails. *)
Definition fresh_world : World :=
  {| db := empty_db; conn := empty_db; upload_dir := Some [];
     st := initial_session_state;
     clock := demo_clock; ticks := 0; faults := [];
     root_log := []; ui_errors := []; builds := [];
     services := demo_services; model_cache := None;
     query_input_bound := true |}.

(** The same world with a schedule of failures. *)
Definition with_faults (schedule : list bool) (w : World) : World :=
  set_faults schedule w.

Definition report_txt : upload :=
  {| up_name := "report.txt"; up_bytes := bytes_of_string "total: 42" |}.


(** Two files named [report.csv] with different contents. *)
Definition report_csv_first : upload :=
  {| up_name := "report.csv"; up_bytes := bytes_of_string "a,b" |}.

Definition report_csv_second : upload :=
  {| up_name := "report.csv"; up_bytes := bytes_of_string "c,d,e" |}.

Definition two_turns : list turn :=
  [ {| t_question := "What is the total?"; t_answer := "The total is 42.";
       t_response_time := 1%Q; t_document := Some "report.txt" |};
    {| t_question := "And the tax?"; t_answer := "No tax is given.";
       t_response_time := 2%Q; t_document := Some "report.txt" |} ].

(** The fresh world after "New Chat": chat 1 is current and empty. *)
Definition one_empty_chat : World := exec new_chat_button fresh_world.

(** The fresh world after a first question on [report.txt]. *)
Definition after_first_question : World :=
  exec (process_query_with_document "What is the total?" report_txt)
    fresh_world.

(** "New Chat" twice, then a question with [report.txt] uploaded: chat 2 is
    the current one and has the document, chat 1 has none. *)
Definition two_chats_one_document : World :=
  exec (process_query_with_document "What is the total?" report_txt)
    (exec new_chat_button (exec new_chat_button fresh_world)).

(** A first question on [report.txt] during which the commit of the
    transaction that creates the session fails.  It is the thirteenth
    fallible call of the turn: three for saving the file (listing, making
    the directory, writing), four for building the index (pulling the
    embedding model, loading, reading the file, Chroma), three for the
    answer (warming the model up, retrieval, generation), then the
    connection and the INSERT. *)
Definition failed_session_commit : World :=
  exec (process_query_with_document "What is the total?" report_txt)
    (with_faults (repeat false 12 ++ [true]) fresh_world).

(** The world after a second question, asked once the storage works again. *)
Definition after_failed_session_commit : World :=
  exec (process_query_with_document "And the tax?" report_txt)
    failed_session_commit.

(** * Vocabulary of the further properties *)

(** The files of the upload directory; none while the directory is missing. *)
Definition stored_files (w : World) : list (string * bytes) :=
  match upload_dir w with
  | Some files => files
  | None => []
  end.


Fixpoint string_forall (p : ascii -> bool) (s : string) : bool :=
  match s with
  | EmptyString => true
  | String c rest => p c && string_forall p rest
  end.

Definition is_lower_hex (c : ascii) : bool :=
  existsb (Ascii.eqb c)
    ["0"; "1"; "2"; "3"; "4"; "5"; "6"; "7";
     "8"; "9"; "a"; "b"; "c"; "d"; "e"; "f"]%char.

(** [yields f x m Q]: run from a world whose view [f] is [x], the
    computation [m] leaves the view as it is, and what it returns
    satisfies [Q]. *)
Definition yields {X A} (f : World -> X) (x : X) (m : M A) (Q : A -> Prop)
  : Prop :=
  triple (fun w => f w = x) m
         (fun a w => f w = x /\ Q a)
         (fun _ w => f w = x).

(** What a document load reads: the upload directory and the
    collaborators. *)
Definition file_view (w : World)
  : option (list (string * bytes)) * Services :=
  (upload_dir w, services w).

(** The loader [ingest_docs] picks for a path, by its lower-cased
    extension; [.json], [.txt] and every other extension go to the text
    loader. *)
Definition chosen_loader (doc_path : string) : loader :=
  let ext := lower (splitext_ext doc_path) in
  if String.eqb ext ".pdf" then UnstructuredPDFLoader
  else if String.eqb ext ".csv" then CSVLoader
  else TextLoader.

(** The documents [loader.load()] gives for a loader and a content. *)
Definition loaded (svc : Services) (kind : loader) (content : bytes)
  : list string :=
  load_document svc
    (match kind with
     | UnstructuredPDFLoader => "pdf"
     | CSVLoader => "csv"
     | TextLoader => "text"
     end)
    content.

(** What answering a question reads: the history, the errors shown, the
    index, the collaborators and the current document. *)
Definition ask_view (w : World)
  : list chat_entry * list message * option VectorDB * Services
    * option document :=
  (chat_history (st w), ui_errors w, vector_db (st w), services w,
   current_document (st w)).

(** The answer of the chain for a question over an index: the model's
    response to the five most similar chunks, joined by blank lines. *)
Definition answer_for (svc : Services) (v : VectorDB) (question : string)
  : string :=
  generate svc (format_docs (similarity_search svc v question)) question.

(** The document name [process_query] stores with an entry. *)
Definition entry_document (doc : option document) : option string :=
  match doc with
  | Some d => d_name d
  | None => Some "Unknown"
  end.

(** After [preload_model]: with a model, nothing that answering reads has
    changed; without one, the history is as it was and errors may have been
    shown. *)
Definition model_or_report (w0 : World) (llm : bool) (w : World) : Prop :=
  if llm then ask_view w = ask_view w0
  else chat_history (st w) = chat_history (st w0) /\
       exists errs, ui_errors w = ui_errors w0 ++ errs.

(** The record that reports a failed session creation. *)
Definition create_error (e : exn) : string * message :=
  ("ERROR", Fmt "Failed to create new chat session: {}" [FExn e]).

(** The database after the INSERT of [start_new_chat_session] in world [w],
    and the id it hands out. *)
Definition created_db (w : World) : DB :=
  snd (insert_session (strftime_full (clock w (ticks w))) (db w)).

Definition created_id (w : World) : Z :=
  next_id (seq_sessions (db w)) (map s_id (chat_sessions (db w))).




(** * The fingerprint function on the RFC 1321 test suite *)

Example md5_empty : MD5.hexdigest [] = "d41d8cd98f00b204e9800998ecf8427e".
Proof. vm_compute. reflexivity. Qed.

Example md5_abc :
  MD5.hexdigest (bytes_of_string "abc") = "900150983cd24fb0d6963f7d28e17f72".
Proof. vm_compute. reflexivity. Qed.

Example md5_message_digest :
  MD5.hexdigest (bytes_of_string "message digest")
  = "f96b697d7cb7938d525a2f31aaf161d0".
Proof. vm_compute. reflexivity. Qed.

(** A message of 70 bytes takes two blocks. *)
Example md5_two_blocks :
  MD5.hexdigest (repeat "x"%byte 70) = "7d56c0f83fd1e320d60ea2f13dfdeedd".
Proof. vm_compute. reflexivity. Qed.

(** * Sorting and numbering rows *)

Section OrderBy.

Context {A : Type} (key : A -> Z).

Lemma insert_by_perm (x : A) (l : list A) :
  Permutation (insert_by key x l) (x :: l).
Proof.
  induction l as [| y l IH]; cbn; [reflexivity |].
  destruct (key x <=? key y); [reflexivity |].
  rewrite IH. apply perm_swap.
Qed.

Lemma order_by_perm (l : list A) : Permutation (order_by key l) l.
Proof.
  induction l as [| x l IH]; cbn; [reflexivity |].
  rewrite insert_by_perm. constructor. exact IH.
Qed.

Lemma In_order_by (x : A) (l : list A) : In x (order_by key l) <-> In x l.
Proof.
  split; apply Permutation_in;
    [apply order_by_perm | symmetry; apply order_by_perm].
Qed.

Lemma order_by_nil (l : list A) : order_by key l = [] -> l = [].
Proof.
  intros H. apply Permutation_nil. rewrite <- H. apply order_by_perm.
Qed.

Lemma insert_by_ascending (x : A) (l : list A) :
  ascending key l -> ascending key (insert_by key x l).
Proof.
  unfold ascending. induction 1 as [| y l Hl IH Hy]; cbn.
  - constructor; constructor.
  - destruct (key x <=? key y) eqn:E.
    + apply Z.leb_le in E. constructor.
      * constructor; assumption.
      * constructor; [exact E |].
        eapply Forall_impl; [| exact Hy]. cbn. intros; lia.
    + apply Z.leb_gt in E. constructor; [exact IH |].
      eapply Permutation_Forall; [symmetry; apply insert_by_perm |].
      constructor; [lia | exact Hy].
Qed.

Lemma order_by_ascending (l : list A) : ascending key (order_by key l).
Proof.
  induction l as [| x l IH]; cbn; [constructor |].
  apply insert_by_ascending. exact IH.
Qed.

(** The first row of the sorted list has the least key. *)
Lemma order_by_head (l : list A) :
  match hd_error (order_by key l) with
  | None => l = []
  | Some x => In x l /\ forall y, In y l -> key x <= key y
  end.
Proof.
  pose proof (order_by_ascending l) as Hs.
  pose proof (In_order_by) as Hin.
  destruct (order_by key l) as [| x s] eqn:E; cbn.
  - apply order_by_nil. exact E.
  - split.
    + apply (Hin x l). rewrite E. left. reflexivity.
    + intros y Hy. apply (Hin y l) in Hy. rewrite E in Hy.
      inversion Hs as [| ? ? _ Hall]; subst.
      destruct Hy as [<- | Hy]; [lia |].
      rewrite Forall_forall in Hall. apply Hall. exact Hy.
Qed.

(** A row with a key above all others sorts last, one with a key below all
    others sorts first. *)
Lemma insert_by_app_last (y x : A) (s : list A) :
  key y < key x ->
  Forall (fun z => key z < key x) s ->
  insert_by key y (s ++ [x]) = insert_by key y s ++ [x].
Proof.
  intros Hy. induction 1 as [| z s Hz Hs IH]; cbn.
  - replace (key y <=? key x) with true by (symmetry; apply Z.leb_le; lia).
    reflexivity.
  - destruct (key y <=? key z); [reflexivity |].
    rewrite IH. reflexivity.
Qed.

Lemma order_by_app_last (l : list A) (x : A) :
  Forall (fun z => key z < key x) l ->
  order_by key (l ++ [x]) = order_by key l ++ [x].
Proof.
  induction 1 as [| z l Hz Hl IH]; cbn; [reflexivity |].
  rewrite IH. apply insert_by_app_last; [exact Hz |].
  eapply Permutation_Forall; [symmetry; apply order_by_perm | exact Hl].
Qed.

Lemma order_by_app_first (l : list A) (x : A) :
  Forall (fun z => key x < key z) l ->
  order_by key (l ++ [x]) = x :: order_by key l.
Proof.
  induction 1 as [| z l Hz Hl IH]; cbn in *; [reflexivity |].
  rewrite IH. cbn.
  replace (key z <=? key x) with false by (symmetry; apply Z.leb_gt; lia).
  reflexivity.
Qed.

End OrderBy.

Lemma max_id_ge (ids : list Z) (x : Z) : In x ids -> x <= max_id ids.
Proof.
  induction ids as [| y ids IH]; [intros [] |].
  change (max_id (y :: ids)) with (Z.max y (max_id ids)).
  intros [-> | H]; [lia |]. specialize (IH H). lia.
Qed.

Lemma next_id_fresh (seq : Z) (ids : list Z) :
  Forall (fun x => x < next_id seq ids) ids.
Proof.
  apply Forall_forall. intros x Hx. apply max_id_ge in Hx.
  unfold next_id. lia.
Qed.

Lemma next_id_above_seq (seq : Z) (ids : list Z) : seq < next_id seq ids.
Proof. unfold next_id. lia. Qed.

(** * Reasoning about computations *)

Lemma bind_Ok {A B} (m : M A) (k : A -> M B) (w w' : World) (a : A) :
  m w = (Ok a, w') -> (x <- m ;; k x) w = k a w'.
Proof. intros H. unfold bind. rewrite H. reflexivity. Qed.

Lemma bind_Raise {A B} (m : M A) (k : A -> M B) (w w' : World) (e : exn) :
  m w = (Raise e, w') -> (x <- m ;; k x) w = (Raise e, w').
Proof. intros H. unfold bind. rewrite H. reflexivity. Qed.

(** ** Footprints: what a computation leaves unchanged *)

Section Keeps.

Context {X : Type} (f : World -> X).

Lemma keeps_ret {A} (a : A) : keeps f (ret a).
Proof. intros w. reflexivity. Qed.

Lemma keeps_raise {A} (e : exn) : keeps f (@raise A e).
Proof. intros w. reflexivity. Qed.

Lemma keeps_gets {A} (g : World -> A) : keeps f (gets g).
Proof. intros w. reflexivity. Qed.

Lemma keeps_modify (g : World -> World) :
  (forall w, f (g w) = f w) -> keeps f (modify g).
Proof. intros H w. apply H. Qed.

Lemma keeps_bind {A B} (m : M A) (k : A -> M B) :
  keeps f m -> (forall a, keeps f (k a)) -> keeps f (x <- m ;; k x).
Proof.
  intros Hm Hk w. unfold exec, bind.
  specialize (Hm w). unfold exec in Hm.
  destruct (m w) as [[a | e] w1]; cbn in *.
  - rewrite <- Hm. apply Hk.
  - exact Hm.
Qed.

Lemma keeps_try_except {A} (body : M A) (handler : exn -> M A) :
  keeps f body -> (forall e, keeps f (handler e)) ->
  keeps f (try_except body handler).
Proof.
  intros Hb Hh w. unfold exec, try_except.
  specialize (Hb w). unfold exec in Hb.
  destruct (body w) as [[a | e] w1]; cbn in *; [exact Hb |].
  destruct (is_Exception e); cbn; [| exact Hb].
  rewrite <- Hb. apply Hh.
Qed.

(** The projections that do not look at the fault schedule, at the clock
    reading count, or at the two database fields. *)
Hypothesis f_faults : forall v w, f (set_faults v w) = f w.

Lemma keeps_fallible (e : exn) : keeps f (fallible e).
Proof.
  intros w. unfold exec, fallible.
  destruct (faults w) as [| [] rest]; cbn; auto.
Qed.

Hypothesis f_ticks : forall v w, f (set_ticks v w) = f w.

Lemma keeps_datetime_now : keeps f datetime_now.
Proof. intros w. apply f_ticks. Qed.

Lemma keeps_time_time : keeps f time_time.
Proof. intros w. apply f_ticks. Qed.

Hypothesis f_conn : forall v w, f (set_conn v w) = f w.
Hypothesis f_db : forall v w, f (set_db v w) = f w.

Lemma keeps_with_connection {A} (body : M A) :
  keeps f body -> keeps f (with_connection body).
Proof.
  intros Hb. unfold with_connection, sqlite3_connect.
  apply keeps_bind.
  - apply keeps_bind; [apply keeps_fallible |].
    intros _. apply keeps_modify. intros w. apply f_conn.
  - intros _ w. unfold exec. specialize (Hb w). unfold exec in Hb.
    destruct (body w) as [[a | e] w1]; cbn in *.
    + rewrite f_db. exact Hb.
    + unfold rollback. rewrite f_conn. exact Hb.
Qed.

Lemma keeps_execute (stmt : DB -> DB) : keeps f (execute stmt).
Proof.
  unfold execute. apply keeps_bind; [apply keeps_fallible |].
  intros _. apply keeps_modify. intros w. apply f_conn.
Qed.

Lemma keeps_execute_insert (stmt : DB -> Z * DB) : keeps f (execute_insert stmt).
Proof.
  unfold execute_insert. apply keeps_bind; [apply keeps_fallible |].
  intros _. apply keeps_bind; [apply keeps_gets |].
  intros r. apply keeps_bind; [| intros; apply keeps_ret].
  apply keeps_modify. intros w. apply f_conn.
Qed.

Lemma keeps_execute_query {A} (q : DB -> A) : keeps f (execute_query q).
Proof.
  unfold execute_query. apply keeps_bind; [apply keeps_fallible |].
  intros _. apply keeps_gets.
Qed.

Lemma keeps_commit : keeps f commit.
Proof.
  unfold commit. apply keeps_bind; [apply keeps_fallible |].
  intros _. apply keeps_modify. intros w. apply f_db.
Qed.

Hypothesis f_root_log : forall v w, f (set_root_log v w) = f w.

Lemma keeps_logging_error (msg : message) : keeps f (logging_error msg).
Proof. apply keeps_modify. intros w. apply f_root_log. Qed.

Lemma keeps_logging_info (msg : message) : keeps f (logging_info msg).
Proof. apply keeps_modify. intros w. apply f_root_log. Qed.

Hypothesis f_ui : forall v w, f (set_ui_errors v w) = f w.

Lemma keeps_st_error (msg : message) : keeps f (st_error msg).
Proof. apply keeps_modify. intros w. apply f_ui. Qed.

End Keeps.

(** ** Computations that raise nothing but [Exception]s, and computations
    that always return *)

Lemma returns_safe {A} (m : M A) : returns m -> safe m.
Proof. intros H w e He. destruct (H w) as [a Ha]. congruence. Qed.

Lemma returns_ret {A} (a : A) : returns (ret a).
Proof. intros w. exists a. reflexivity. Qed.

Lemma returns_gets {A} (g : World -> A) : returns (gets g).
Proof. intros w. eexists. reflexivity. Qed.

Lemma returns_modify (g : World -> World) : returns (modify g).
Proof. intros w. exists tt. reflexivity. Qed.

Lemma returns_bind {A B} (m : M A) (k : A -> M B) :
  returns m -> (forall a, returns (k a)) -> returns (x <- m ;; k x).
Proof.
  intros Hm Hk w. unfold outcome, bind.
  destruct (Hm w) as [a Ha]. unfold outcome in Ha.
  destruct (m w) as [[a' | e] w1]; cbn in *; [| discriminate].
  apply Hk.
Qed.

Lemma safe_bind {A B} (m : M A) (k : A -> M B) :
  safe m -> (forall a, safe (k a)) -> safe (x <- m ;; k x).
Proof.
  intros Hm Hk w e. unfold outcome, bind.
  specialize (Hm w). unfold outcome in Hm.
  destruct (m w) as [[a | e'] w1]; cbn in *.
  - apply Hk.
  - intros [= <-]. apply Hm. reflexivity.
Qed.

Lemma safe_raise {A} (e : exn) : is_Exception e = true -> safe (@raise A e).
Proof. intros H w e' [= <-]. exact H. Qed.

Lemma safe_fallible (e : exn) : is_Exception e = true -> safe (fallible e).
Proof.
  intros H w e'. unfold outcome, fallible.
  destruct (faults w) as [| [] rest]; cbn; try discriminate.
  intros [= <-]. exact H.
Qed.

Lemma safe_try_except {A} (body : M A) (handler : exn -> M A) :
  safe body -> (forall e, safe (handler e)) -> safe (try_except body handler).
Proof.
  intros Hb Hh w e. unfold outcome, try_except.
  specialize (Hb w). unfold outcome in Hb.
  destruct (body w) as [[a | e'] w1]; cbn in *; [discriminate |].
  rewrite (Hb e' eq_refl). apply Hh.
Qed.

Lemma returns_try_except {A} (body : M A) (handler : exn -> M A) :
  safe body -> (forall e, returns (handler e)) ->
  returns (try_except body handler).
Proof.
  intros Hb Hh w. unfold outcome, try_except.
  specialize (Hb w). unfold outcome in Hb.
  destruct (body w) as [[a | e'] w1]; cbn in *.
  - exists a. reflexivity.
  - rewrite (Hb e' eq_refl). apply Hh.
Qed.

Lemma safe_with_connection {A} (body : M A) :
  safe body -> safe (with_connection body).
Proof.
  intros Hb. unfold with_connection, sqlite3_connect.
  apply safe_bind.
  - apply safe_bind; [apply safe_fallible; reflexivity |].
    intros _. apply returns_safe, returns_modify.
  - intros _ w e. unfold outcome.
    specialize (Hb w). unfold outcome in Hb.
    destruct (body w) as [[a | e'] w1]; cbn in *; [discriminate |].
    intros [= <-]. apply Hb. reflexivity.
Qed.

Lemma safe_execute (stmt : DB -> DB) : safe (execute stmt).
Proof.
  unfold execute. apply safe_bind; [apply safe_fallible; reflexivity |].
  intros _. apply returns_safe, returns_modify.
Qed.

Lemma safe_execute_insert (stmt : DB -> Z * DB) : safe (execute_insert stmt).
Proof.
  unfold execute_insert. apply safe_bind; [apply safe_fallible; reflexivity |].
  intros _. apply returns_safe.
  apply returns_bind; [apply returns_gets |].
  intros r. apply returns_bind; [apply returns_modify |].
  intros _. apply returns_ret.
Qed.

Lemma safe_execute_query {A} (q : DB -> A) : safe (execute_query q).
Proof.
  unfold execute_query. apply safe_bind; [apply safe_fallible; reflexivity |].
  intros _. apply returns_safe, returns_gets.
Qed.

Lemma safe_commit : safe commit.
Proof.
  unfold commit. apply safe_bind; [apply safe_fallible; reflexivity |].
  intros _. apply returns_safe, returns_modify.
Qed.

Lemma returns_datetime_now : returns datetime_now.
Proof. intros w. eexists. reflexivity. Qed.

Lemma returns_logging_error (msg : message) : returns (logging_error msg).
Proof. apply returns_modify. Qed.

(** ** Pre- and postconditions

    [triple P m Q E]: run from a world satisfying [P], the computation [m]
    either returns [a] in a world satisfying [Q a], or raises [e] in a world
    satisfying [E e]. *)

Lemma triple_conseq {A} (P P' : World -> Prop) (m : M A)
    (Q Q' : A -> World -> Prop) (E E' : exn -> World -> Prop) :
  triple P' m Q' E' ->
  (forall w, P w -> P' w) ->
  (forall a w, Q' a w -> Q a w) ->
  (forall e w, E' e w -> E e w) ->
  triple P m Q E.
Proof.
  intros H HP HQ HE w Hw. specialize (H w (HP w Hw)).
  destruct (m w) as [[a | e] w']; auto.
Qed.

Lemma triple_ret {A} (P : World -> Prop) (a : A) Q E :
  (forall w, P w -> Q a w) -> triple P (ret a) Q E.
Proof. intros H w Hw. cbn. auto. Qed.

Lemma triple_raise {A} (P : World -> Prop) (e : exn) (Q : A -> World -> Prop) E :
  (forall w, P w -> E e w) -> triple P (raise e) Q E.
Proof. intros H w Hw. cbn. auto. Qed.

Lemma triple_gets {A} (P : World -> Prop) (g : World -> A) Q E :
  (forall w, P w -> Q (g w) w) -> triple P (gets g) Q E.
Proof. intros H w Hw. cbn. auto. Qed.

Lemma triple_modify (P : World -> Prop) (g : World -> World) Q E :
  (forall w, P w -> Q tt (g w)) -> triple P (modify g) Q E.
Proof. intros H w Hw. cbn. auto. Qed.

Lemma triple_bind {A B} (P : World -> Prop) (m : M A) (k : A -> M B)
    (R : A -> World -> Prop) Q E :
  triple P m R E ->
  (forall a, triple (R a) (k a) Q E) ->
  triple P (x <- m ;; k x) Q E.
Proof.
  intros Hm Hk w Hw. unfold bind. specialize (Hm w Hw).
  destruct (m w) as [[a | e] w1]; [apply (Hk a w1 Hm) | exact Hm].
Qed.

Lemma triple_try_except {A} (P : World -> Prop) (body : M A)
    (handler : exn -> M A) (E' : exn -> World -> Prop) Q E :
  triple P body Q E' ->
  (forall e, is_Exception e = true -> triple (E' e) (handler e) Q E) ->
  (forall e w, is_Exception e = false -> E' e w -> E e w) ->
  triple P (try_except body handler) Q E.
Proof.
  intros Hb Hh He w Hw. unfold try_except. specialize (Hb w Hw).
  destruct (body w) as [[a | e] w1]; [exact Hb |].
  destruct (is_Exception e) eqn:Ee.
  - apply (Hh e Ee w1 Hb).
  - apply He; assumption.
Qed.

Lemma triple_fallible (P : World -> Prop) (e : exn)
    (Q : unit -> World -> Prop) (E : exn -> World -> Prop) :
  (forall w, P w -> faults w = [] -> Q tt w) ->
  (forall w rest, P w -> faults w = false :: rest -> Q tt (set_faults rest w)) ->
  (forall w rest, P w -> faults w = true :: rest -> E e (set_faults rest w)) ->
  triple P (fallible e) Q E.
Proof.
  intros H0 H1 H2 w Hw. unfold fallible.
  destruct (faults w) as [| [] rest] eqn:F; eauto.
Qed.

Lemma triple_with_connection {A} (P P1 : World -> Prop) (body : M A) Q E :
  triple P sqlite3_connect (fun _ => P1) E ->
  triple P1 body (fun a w => Q a (set_db (conn w) w))
                 (fun e w => E e (rollback w)) ->
  triple P (with_connection body) Q E.
Proof.
  intros Hc Hb. unfold with_connection.
  apply triple_bind with (R := fun _ => P1); [exact Hc |].
  intros _ w Hw. specialize (Hb w Hw).
  destruct (body w) as [[a | e] w1]; exact Hb.
Qed.

(** What holds of a projection that a computation keeps goes through it. *)
Lemma triple_keeps {X A} (f : World -> X) (m : M A) (p : X -> Prop) :
  keeps f m ->
  triple (fun w => p (f w)) m (fun _ w => p (f w)) (fun _ w => p (f w)).
Proof.
  intros H w Hw. specialize (H w). unfold exec in H.
  destruct (m w) as [[a | e] w1]; cbn in H; rewrite H; exact Hw.
Qed.

(** Reading off a triple that raises nothing. *)
Lemma triple_returns {A} (P : World -> Prop) (m : M A) Q (w : World) :
  triple P m Q (fun _ _ => False) -> P w ->
  exists a, outcome m w = Ok a /\ Q a (exec m w).
Proof.
  intros H Hw. specialize (H w Hw). unfold outcome, exec.
  destruct (m w) as [[a | e] w1]; [| contradiction].
  exists a. split; [reflexivity | exact H].
Qed.

(** Reading off a triple. *)
Lemma triple_run {A} (P : World -> Prop) (m : M A) Q E (w : World) :
  triple P m Q E -> P w ->
  match outcome m w with
  | Ok a => Q a (exec m w)
  | Raise e => E e (exec m w)
  end.
Proof.
  intros H Hw. specialize (H w Hw). unfold outcome, exec.
  destruct (m w) as [[a | e] w1]; exact H.
Qed.

(** ** Derived rules for the fallible calls *)

Lemma triple_fallible_blind (P : World -> Prop) (e : exn) E :
  faults_blind P ->
  (forall w, P w -> E e w) ->
  triple P (fallible e) (fun _ => P) E.
Proof.
  intros HP HE. apply triple_fallible; intros; auto.
Qed.

Lemma triple_connect (P : World -> Prop) Q E :
  faults_blind P ->
  (forall w, P w -> Q tt (set_conn (db w) w)) ->
  (forall w, P w -> E SqliteError w) ->
  triple P sqlite3_connect Q E.
Proof.
  intros HP HQ HE. unfold sqlite3_connect.
  apply triple_bind with (R := fun _ => P).
  - apply triple_fallible_blind; assumption.
  - intros _. apply triple_modify. exact HQ.
Qed.

Lemma triple_execute (P : World -> Prop) (stmt : DB -> DB) Q E :
  faults_blind P ->
  (forall w, P w -> Q tt (set_conn (stmt (conn w)) w)) ->
  (forall w, P w -> E SqliteError w) ->
  triple P (execute stmt) Q E.
Proof.
  intros HP HQ HE. unfold execute.
  apply triple_bind with (R := fun _ => P).
  - apply triple_fallible_blind; assumption.
  - intros _. apply triple_modify. exact HQ.
Qed.

Lemma triple_execute_insert (P : World -> Prop) (stmt : DB -> Z * DB) Q E :
  faults_blind P ->
  (forall w, P w ->
     Q (fst (stmt (conn w))) (set_conn (snd (stmt (conn w))) w)) ->
  (forall w, P w -> E SqliteError w) ->
  triple P (execute_insert stmt) Q E.
Proof.
  intros HP HQ HE. unfold execute_insert.
  apply triple_bind with (R := fun _ => P).
  - apply triple_fallible_blind; assumption.
  - intros _ w Hw. cbn. apply HQ. exact Hw.
Qed.

Lemma triple_execute_query {A} (P : World -> Prop) (q : DB -> A) Q E :
  faults_blind P ->
  (forall w, P w -> Q (q (conn w)) w) ->
  (forall w, P w -> E SqliteError w) ->
  triple P (execute_query q) Q E.
Proof.
  intros HP HQ HE. unfold execute_query.
  apply triple_bind with (R := fun _ => P).
  - apply triple_fallible_blind; assumption.
  - intros _. apply triple_gets. exact HQ.
Qed.

Lemma triple_commit (P : World -> Prop) Q E :
  faults_blind P ->
  (forall w, P w -> Q tt (set_db (conn w) w)) ->
  (forall w, P w -> E SqliteError w) ->
  triple P commit Q E.
Proof.
  intros HP HQ HE. unfold commit.
  apply triple_bind with (R := fun _ => P).
  - apply triple_fallible_blind; assumption.
  - intros _. apply triple_modify. exact HQ.
Qed.

Lemma triple_datetime_now (P : World -> Prop) Q E :
  (forall w, P w -> Q (clock w (ticks w)) (set_ticks (S (ticks w)) w)) ->
  triple P datetime_now Q E.
Proof. intros H w Hw. cbn. auto. Qed.

Lemma triple_modify_st (P : World -> Prop) (g : SessionState -> SessionState)
    Q E :
  (forall w, P w -> Q tt (set_st (g (st w)) w)) ->
  triple P (modify_st g) Q E.
Proof. intros H. apply triple_modify. exact H. Qed.

(** ** Tactics *)

Ltac keeps_side :=
  intros;
  repeat match goal with
         | |- context [match ?x with _ => _ end] => destruct x
         end;
  reflexivity.

(** Footprints of the functions proved so far; extended as lemmas come. *)
Ltac keeps_known := fail.

Ltac keeps_step :=
  first [ keeps_known |
  lazymatch goal with
  | |- keeps _ (with_connection _) =>
      apply keeps_with_connection; [keeps_side .. |]
  | |- keeps _ (execute _) => apply keeps_execute; keeps_side
  | |- keeps _ (execute_insert _) => apply keeps_execute_insert; keeps_side
  | |- keeps _ (execute_query _) => apply keeps_execute_query; keeps_side
  | |- keeps _ commit => apply keeps_commit; keeps_side
  | |- keeps _ (fallible _) => apply keeps_fallible; keeps_side
  | |- keeps _ datetime_now => apply keeps_datetime_now; keeps_side
  | |- keeps _ time_time => apply keeps_time_time; keeps_side
  | |- keeps _ (logging_error _) => apply keeps_logging_error; keeps_side
  | |- keeps _ (logging_info _) => apply keeps_logging_info; keeps_side
  | |- keeps _ (st_error _) => apply keeps_st_error; keeps_side
  | |- keeps _ (try_except _ _) => apply keeps_try_except; [| intros ?]
  | |- keeps _ (ret _) => apply keeps_ret
  | |- keeps _ (raise _) => apply keeps_raise
  | |- keeps _ (gets _) => apply keeps_gets
  | |- keeps _ (modify _) => apply keeps_modify; keeps_side
  | |- keeps _ (bind _ _) => apply keeps_bind; [| intros ?]
  | |- keeps _ (match ?x with _ => _ end) => destruct x
  | |- keeps _ (modify_st _) => unfold modify_st
  | |- keeps _ read_chat_id => unfold read_chat_id
  | |- keeps _ st_rerun => unfold st_rerun
  | |- keeps _ (add_log _ _) => unfold add_log
  | |- keeps _ clear_logs => unfold clear_logs
  | |- keeps _ makedirs_upload_directory => unfold makedirs_upload_directory
  | |- keeps _ (write_upload _ _) => unfold write_upload
  | |- keeps _ (loader_load _ _) => unfold loader_load
  end ].

Ltac keeps_tac := repeat keeps_step.

(** Running through a step whose outcome is known. *)
Ltac step := erewrite bind_Ok by reflexivity.

Ltac side :=
  unfold faults_blind; intros;
  repeat match goal with x := _ |- _ => subst x end;
  cbn in *; intuition (subst; cbn in *; eauto; try congruence).

(** A fact that does not depend on the world moves out of the
    precondition. *)
Lemma triple_pure {A} (phi : Prop) (P : World -> Prop) (m : M A) Q E :
  (phi -> triple P m Q E) -> triple (fun w => phi /\ P w) m Q E.
Proof. intros H w [Hphi Hw]. apply H; assumption. Qed.

(** A step that returns, run from a known world. *)
Lemma triple_exec {A} (m : M A) (w : World) E :
  (exists a, outcome m w = Ok a) ->
  triple (fun x => x = w) m (fun _ x => x = exec m w) E.
Proof.
  intros [a H] x ->. unfold outcome, exec in *.
  destruct (m w) as [[b | e] w']; [reflexivity | discriminate].
Qed.

Lemma keeps_compose {X Y A} (f : World -> X) (h : X -> Y) (m : M A) :
  keeps f m -> keeps (fun w => h (f w)) m.
Proof. intros H w. cbn. rewrite (H w). reflexivity. Qed.

(** ** Runs in which the environment does not fail *)

Lemma fallible_ok (e : exn) (w : World) :
  faults w = [] -> fallible e w = (Ok tt, w).
Proof. intros H. unfold fallible. rewrite H. reflexivity. Qed.

Lemma fallible_next (e : exn) (w : World) :
  next_call_succeeds w ->
  exists w', fallible e w = (Ok tt, w') /\
             forall v, set_faults v w' = set_faults v w.
Proof.
  unfold next_call_succeeds, fallible.
  destruct (faults w) as [| [] rest]; [| tauto |]; intros _.
  - exists w. split; reflexivity.
  - exists (set_faults rest w). split; reflexivity.
Qed.

Lemma connect_ok (w : World) :
  faults w = [] -> sqlite3_connect w = (Ok tt, set_conn (db w) w).
Proof.
  intros H. unfold sqlite3_connect.
  rewrite (bind_Ok _ _ _ _ _ (fallible_ok _ w H)). reflexivity.
Qed.

Lemma execute_ok (stmt : DB -> DB) (w : World) :
  faults w = [] -> execute stmt w = (Ok tt, set_conn (stmt (conn w)) w).
Proof.
  intros H. unfold execute.
  rewrite (bind_Ok _ _ _ _ _ (fallible_ok _ w H)). reflexivity.
Qed.

Lemma execute_insert_ok (stmt : DB -> Z * DB) (w : World) :
  faults w = [] ->
  execute_insert stmt w
  = (Ok (fst (stmt (conn w))), set_conn (snd (stmt (conn w))) w).
Proof.
  intros H. unfold execute_insert.
  rewrite (bind_Ok _ _ _ _ _ (fallible_ok _ w H)). reflexivity.
Qed.

Lemma execute_query_ok {A} (q : DB -> A) (w : World) :
  faults w = [] -> execute_query q w = (Ok (q (conn w)), w).
Proof.
  intros H. unfold execute_query.
  rewrite (bind_Ok _ _ _ _ _ (fallible_ok _ w H)). reflexivity.
Qed.

Lemma commit_ok (w : World) :
  faults w = [] -> commit w = (Ok tt, set_db (conn w) w).
Proof.
  intros H. unfold commit.
  rewrite (bind_Ok _ _ _ _ _ (fallible_ok _ w H)). reflexivity.
Qed.

Lemma with_connection_ok {A} (body : M A) (w w' : World) (a : A) :
  faults w = [] ->
  body (set_conn (db w) w) = (Ok a, w') ->
  with_connection body w = (Ok a, set_db (conn w') w').
Proof.
  intros H Hb. unfold with_connection.
  rewrite (bind_Ok _ _ _ _ _ (connect_ok w H)). rewrite Hb. reflexivity.
Qed.

Lemma try_except_ok {A} (body : M A) (handler : exn -> M A) (w w' : World)
    (a : A) :
  body w = (Ok a, w') -> try_except body handler w = (Ok a, w').
Proof. intros H. unfold try_except. rewrite H. reflexivity. Qed.

Lemma run_Ok {A} (m : M A) (w : World) (a : A) :
  outcome m w = Ok a -> m w = (Ok a, exec m w).
Proof.
  unfold outcome, exec. destruct (m w) as [r w']. cbn. intros ->. reflexivity.
Qed.

Lemma read_chat_id_ok (w : World) (sid : Z) :
  chat_id (st w) = PyInt sid -> read_chat_id w = (Ok sid, w).
Proof.
  intros H. unfold read_chat_id. step. rewrite H. reflexivity.
Qed.

Lemma add_log_run (msg : message) (type : string) (w : World) :
  add_log msg type w = (Ok tt, exec (add_log msg type) w).
Proof. reflexivity. Qed.

(** * The claims *)

(** ** Appending a message *)

Lemma add_to_chat_history_returns q a rt doc :
  returns (add_to_chat_history q a rt doc).
Proof.
  unfold add_to_chat_history.
  apply returns_bind; [apply returns_datetime_now | intros t].
  apply returns_bind; [apply returns_modify | intros _].
  apply returns_try_except; [| intros e; apply returns_logging_error].
  apply safe_bind; [apply returns_safe, returns_gets | intros s].
  apply safe_bind.
  - destruct (get_chat_id s); [apply returns_safe, returns_ret |].
    apply safe_with_connection.
    apply safe_bind; [apply returns_safe, returns_datetime_now | intros t'].
    apply safe_bind; [apply safe_execute_insert | intros id].
    apply safe_bind; [apply returns_safe, returns_modify | intros _].
    apply safe_commit.
  - intros _. apply safe_with_connection.
    apply safe_bind.
    + unfold read_chat_id.
      apply safe_bind; [apply returns_safe, returns_gets | intros s'].
      destruct (chat_id s');
        first [apply safe_raise; reflexivity | apply returns_safe, returns_ret].
    + intros cid.
      apply safe_bind; [apply safe_execute | intros _].
      apply safe_bind; [| intros _; apply safe_commit].
      apply safe_try_except.
      * apply safe_bind; [apply returns_safe, returns_gets | intros s'].
        destruct (current_document s');
          [apply safe_execute | apply returns_safe, returns_ret].
      * intros e. apply returns_safe, returns_logging_error.
Qed.

Lemma add_to_chat_history_history (w : World) q a rt doc :
  chat_history (st (exec (add_to_chat_history q a rt doc) w))
  = chat_history (st w) ++ [entry_at w q a rt doc].
Proof.
  unfold exec, add_to_chat_history. step. step.
  match goal with
  | |- chat_history (st (snd (?m ?w1))) = _ =>
      assert (K : keeps (fun w => chat_history (st w)) m) by keeps_tac;
      exact (K w1)
  end.
Qed.

Lemma add_to_chat_history_triple (w0 : World) q a rt doc :
  let m0 := chat_messages (db w0) in
  let en := entry_at w0 q a rt doc in
  triple (fun w => w = w0) (add_to_chat_history q a rt doc)
    (fun _ w' =>
       (exists id chat, chat_messages (db w') = m0 ++ [row_of id chat en])
       \/ (chat_messages (db w') = m0
           /\ exists e pre, root_log w' = pre ++ [persist_error e]))
    (fun _ _ => False).
Proof.
  intros m0 en.
  set (P := fun w : World => chat_messages (db w) = m0).
  set (P1 := fun w : World =>
               chat_messages (db w) = m0 /\ chat_messages (conn w) = m0).
  set (E' := fun (e : exn) (w : World) => is_Exception e = true /\ P w).
  unfold add_to_chat_history.
  apply triple_bind with (R := fun t w => t = clock w0 (ticks w0) /\ P w).
  { apply triple_datetime_now. intros w ->. split; reflexivity. }
  intros t.
  apply triple_bind with (R := fun _ w => t = clock w0 (ticks w0) /\ P w).
  { apply triple_modify_st. side. }
  intros _. apply triple_pure. intros ->. fold en.
  apply triple_try_except with (E' := E').
  2: { intros e He. apply triple_modify. intros w [_ Hw]. right.
       split; [exact Hw | exists e, (root_log w); reflexivity]. }
  2: { intros e w He [He' _]. congruence. }
  apply triple_bind with (R := fun _ => P); [apply triple_gets; auto |].
  intros s.
  apply triple_bind with (R := fun _ => P).
  { destruct (get_chat_id s); [apply triple_ret; auto |].
    apply triple_with_connection with (P1 := P1).
    { apply triple_connect; unfold P, P1, E'; side. }
    apply triple_bind with (R := fun _ => P1).
    { apply triple_datetime_now; unfold P1; side. }
    intros t'.
    apply triple_bind with (R := fun _ => P1).
    { apply triple_execute_insert; unfold P, P1, E'; side. }
    intros id.
    apply triple_bind with (R := fun _ => P1).
    { apply triple_modify_st; unfold P1; side. }
    intros _. apply triple_commit; unfold P, P1, E'; side. }
  intros _.
  apply triple_with_connection with (P1 := P1).
  { apply triple_connect; unfold P, P1, E'; side. }
  apply triple_bind with (R := fun _ => P1).
  { unfold read_chat_id.
    apply triple_bind with (R := fun _ => P1); [apply triple_gets; auto |].
    intros s'.
    destruct (chat_id s');
      first [ apply triple_ret; solve [auto]
            | apply triple_raise; unfold P, P1, E'; side ]. }
  intros cid.
  set (P2 := fun w : World =>
               chat_messages (db w) = m0 /\
               exists id, chat_messages (conn w) = m0 ++ [row_of id cid en]).
  assert (HP2 : faults_blind P2) by (unfold P2; intros w v H; exact H).
  apply triple_bind with (R := fun _ => P2).
  { apply triple_execute; unfold P, P1, P2, E'.
    - side.
    - intros w [H1 H2]. split; [exact H1 |]. cbn. rewrite H2.
      eexists. reflexivity.
    - side. }
  intros _.
  apply triple_bind with (R := fun _ => P2).
  { apply triple_try_except
      with (E' := fun e w => is_Exception e = true /\ P2 w).
    - apply triple_bind with (R := fun _ => P2); [apply triple_gets; auto |].
      intros s'.
      destruct (current_document s'); [| apply triple_ret; auto].
      apply triple_execute; [exact HP2 | | ].
      + unfold P2. intros w [H1 [id H2]]. split; [exact H1 |].
        exists id. cbn. exact H2.
      + intros w Hw. split; [reflexivity | exact Hw].
    - intros e He. apply triple_modify. unfold P2. side.
    - intros e w He [He' _]. congruence. }
  intros _.
  apply triple_commit; [exact HP2 | | ].
  - unfold P2. intros w [H1 [id H2]]. left. exists id, cid. exact H2.
  - unfold P2, E', P. side.
Qed.

(** C5.  Whatever the storage does, [add_to_chat_history] returns to its
    caller without raising, and the in-memory chat history is the old one
    followed by the new entry.  The message row is then either committed, or
    the table of messages is as before and the logger holds the record of a
    failed persistence step. *)
Theorem add_to_chat_history_memory_first (w : World) (q a : string)
    (rt : float) (doc : option string) :
  let w' := exec (add_to_chat_history q a rt doc) w in
  let en := entry_at w q a rt doc in
  outcome (add_to_chat_history q a rt doc) w = Ok tt /\
  chat_history (st w') = chat_history (st w) ++ [en] /\
  ((exists id chat,
       chat_messages (db w') = chat_messages (db w) ++ [row_of id chat en])
   \/ (chat_messages (db w') = chat_messages (db w) /\
       exists e pre, root_log w' = pre ++ [persist_error e])).
Proof.
  cbn zeta. split; [| split].
  - destruct (add_to_chat_history_returns q a rt doc w) as [[] H]. exact H.
  - apply add_to_chat_history_history.
  - pose proof (triple_run _ _ _ _ w
                  (add_to_chat_history_triple w q a rt doc) eq_refl) as H.
    destruct (outcome (add_to_chat_history q a rt doc) w); [exact H | tauto].
Qed.

(** ** Deleting a session *)

Lemma delete_chat_session_returns (chat : option Z) :
  returns (delete_chat_session chat).
Proof.
  unfold delete_chat_session.
  apply returns_try_except; [| intros e; apply returns_logging_error].
  apply safe_with_connection.
  apply safe_bind; [apply safe_execute | intros _].
  apply safe_bind; [apply safe_execute | intros _].
  apply safe_commit.
Qed.

Lemma delete_chat_session_triple (w0 : World) (id : Z) :
  triple (fun w => db w = db w0) (delete_chat_session (Some id))
    (fun _ w' =>
       db w' = deleted id (db w0)
       \/ (db w' = db w0 /\ exists e pre, root_log w' = pre ++ [delete_error id e]))
    (fun _ _ => False).
Proof.
  set (E' := fun (e : exn) (w : World) => is_Exception e = true /\ db w = db w0).
  unfold delete_chat_session.
  apply triple_try_except with (E' := E').
  - apply triple_with_connection
      with (P1 := fun w => db w = db w0 /\ conn w = db w0).
    { apply triple_connect; side. }
    apply triple_bind
      with (R := fun _ w =>
                   db w = db w0 /\
                   conn w = delete_messages_of (Some id) (db w0)).
    { apply triple_execute; side. }
    intros _.
    apply triple_bind
      with (R := fun _ w => db w = db w0 /\ conn w = deleted id (db w0)).
    { apply triple_execute; try solve [side].
      intros w [H1 H2]. split; [exact H1 | cbn; rewrite H2; reflexivity]. }
    intros _. apply triple_commit; side.
  - intros e He. apply triple_modify. intros w [_ Hw]. right.
    split; [exact Hw | exists e, (root_log w); reflexivity].
  - intros e w He [He' _]. congruence.
Qed.

(** After the deletion no message carries the id and no session has it. *)
Lemma deleted_messages (id : Z) (d : DB) :
  filter (fun m => m_chat_id m =? id) (chat_messages (deleted id d)) = [].
Proof.
  unfold deleted. cbn.
  induction (chat_messages d) as [| m l IH]; cbn; [reflexivity |].
  destruct (m_chat_id m =? id) eqn:E; cbn; [exact IH |].
  rewrite E. exact IH.
Qed.

Lemma deleted_sessions (id : Z) (d : DB) :
  ~ In id (map s_id (chat_sessions (deleted id d))).
Proof.
  unfold deleted. cbn. rewrite in_map_iff. intros [s [Hs Hin]].
  apply filter_In in Hin. destruct Hin as [_ Hin].
  rewrite Hs, Z.eqb_refl in Hin. discriminate.
Qed.

(** What the two listings return, whether the read succeeds or not. *)
Lemma get_chat_messages_empty (w : World) (id : Z) :
  filter (fun m => m_chat_id m =? id) (chat_messages (db w)) = [] ->
  outcome (get_chat_messages id) w = Ok [].
Proof.
  intros H.
  destruct (triple_returns (fun w' => db w' = db w) (get_chat_messages id)
              (fun l _ => l = []) w) as [l [Hl ->]];
    [| reflexivity | exact Hl].
  unfold get_chat_messages.
  apply triple_try_except with (E' := fun e _ => is_Exception e = true).
  - apply triple_with_connection with (P1 := fun w' => conn w' = db w).
    { apply triple_connect; side. }
    apply triple_bind with (R := fun rows _ => rows = []).
    { apply triple_execute_query; try solve [side].
      intros w' Hw'. rewrite Hw'. unfold select_messages. rewrite H.
      reflexivity. }
    intros rows. apply triple_ret. intros w' ->. reflexivity.
  - intros e He.
    apply triple_bind with (R := fun _ _ => True);
      [apply triple_modify; auto | intros _; apply triple_ret; auto].
  - intros e w' He He'. congruence.
Qed.

Lemma get_chat_sessions_ids (w : World) :
  exists l, outcome get_chat_sessions w = Ok l /\
            forall id, In id (map sum_id l) ->
                       In id (map s_id (chat_sessions (db w))).
Proof.
  destruct (triple_returns (fun w' => db w' = db w) get_chat_sessions
              (fun l _ => forall id, In id (map sum_id l) ->
                                     In id (map s_id (chat_sessions (db w))))
              w) as [l [Hl H]]; [| reflexivity | exists l; split; assumption].
  unfold get_chat_sessions.
  apply triple_try_except with (E' := fun e _ => is_Exception e = true).
  - apply triple_with_connection with (P1 := fun w' => conn w' = db w).
    { apply triple_connect; side. }
    apply triple_bind with (R := fun rows _ => rows = select_sessions (db w)).
    { apply triple_execute_query; side. }
    intros rows. apply triple_ret. intros w' -> id.
    unfold select_sessions. rewrite !map_map. cbn.
    rewrite !in_map_iff. intros [s [Hs Hin]]. exists s. split; [exact Hs |].
    apply (In_order_by (fun x => - s_id x)). exact Hin.
  - intros e He.
    apply triple_bind with (R := fun _ _ => True);
      [apply triple_modify; auto | intros _; apply triple_ret].
    intros _ _ id [].
  - intros e w' He He'. congruence.
Qed.

(** C2.  [delete_chat_session] never raises, and it is all or nothing.
    Either both DELETE statements are committed: then, whatever else the
    world looks like, [get_chat_messages] gives the empty list for the id
    and [get_chat_sessions] gives a list without it.  Or the database file
    is exactly what it was, messages and session row included, and the
    failure is logged. *)
Theorem delete_chat_session_atomic (w : World) (id : Z) :
  let w' := exec (delete_chat_session (Some id)) w in
  outcome (delete_chat_session (Some id)) w = Ok tt /\
  ((db w' = deleted id (db w) /\
    forall w'', db w'' = db w' ->
      outcome (get_chat_messages id) w'' = Ok [] /\
      exists l, outcome get_chat_sessions w'' = Ok l /\ ~ In id (map sum_id l))
   \/ (db w' = db w /\
       exists e pre, root_log w' = pre ++ [delete_error id e])).
Proof.
  cbn zeta. split.
  - destruct (delete_chat_session_returns (Some id) w) as [[] H]. exact H.
  - destruct (triple_returns _ _ _ w (delete_chat_session_triple w id) eq_refl)
      as [_ [_ [H | H]]]; [left | right; exact H].
    split; [exact H |]. intros w'' Hw''. rewrite H in Hw''. split.
    + apply get_chat_messages_empty. rewrite Hw''. apply deleted_messages.
    + destruct (get_chat_sessions_ids w'') as [l [Hl Hids]].
      exists l. split; [exact Hl |]. intros Hin.
      apply Hids in Hin. rewrite Hw'' in Hin.
      exact (deleted_sessions id (db w) Hin).
Qed.

Lemma delete_chat_session_atomic_witness :
  db (exec (delete_chat_session (Some 1)) after_first_question)
  = deleted 1 (db after_first_question) /\
  outcome (get_chat_messages 1)
    (exec (delete_chat_session (Some 1)) after_first_question) = Ok [].
Proof.
  destruct (delete_chat_session_atomic after_first_question 1)
    as [_ [[Hd H] | [Hd _]]].
  - split; [exact Hd |]. exact (proj1 (H _ eq_refl)).
  - vm_compute in Hd. discriminate.
Defined.

(** ** Appending and listing *)

(** The database after a successful [add_to_chat_history] in session [sid]:
    the message row is inserted, and the session row takes the metadata of
    the current document, if there is one. *)
Lemma add_to_chat_history_ok (w : World) (sid : Z) q a rt doc :
  faults w = [] ->
  chat_id (st w) = PyInt sid ->
  let en := entry_at w q a rt doc in
  let d := appended_db sid en (current_document (st w)) (db w) in
  add_to_chat_history q a rt doc w
  = (Ok tt,
     set_db d (set_conn d
       (set_st (set_chat_history (chat_history (st w) ++ [en]) (st w))
          (set_ticks (S (ticks w)) w)))).
Proof.
  intros Hf Hc en d.
  unfold add_to_chat_history. step. step.
  apply try_except_ok. step.
  unfold get_chat_id. cbn [chat_id st set_st set_chat_history set_ticks].
  rewrite Hc. step.
  subst d. unfold appended_db.
  destruct (current_document (st w)) as [dc |] eqn:Hd.
  - erewrite with_connection_ok; [| exact Hf |].
    2: { erewrite bind_Ok by (apply read_chat_id_ok; exact Hc).
         erewrite bind_Ok by (apply execute_ok; exact Hf).
         erewrite bind_Ok.
         2: { apply try_except_ok. step.
              cbn [current_document st set_conn set_st set_chat_history
                   set_ticks].
              rewrite Hd. apply execute_ok. exact Hf. }
         apply commit_ok. exact Hf. }
    reflexivity.
  - erewrite with_connection_ok; [| exact Hf |].
    2: { erewrite bind_Ok by (apply read_chat_id_ok; exact Hc).
         erewrite bind_Ok by (apply execute_ok; exact Hf).
         erewrite bind_Ok.
         2: { apply try_except_ok. step.
              cbn [current_document st set_conn set_st set_chat_history
                   set_ticks].
              rewrite Hd. reflexivity. }
         apply commit_ok. exact Hf. }
    reflexivity.
Qed.

Lemma get_chat_messages_ok (w : World) (id : Z) :
  faults w = [] ->
  get_chat_messages id w
  = (Ok (map message_dict (select_messages id (db w))),
     set_db (db w) (set_conn (db w) w)).
Proof.
  intros Hf. unfold get_chat_messages. apply try_except_ok.
  erewrite with_connection_ok; [| exact Hf |].
  2: { erewrite bind_Ok by (apply execute_query_ok; exact Hf). reflexivity. }
  reflexivity.
Qed.

Lemma appended_db_messages (sid : Z) (en : chat_entry) (cd : option document)
    (d : DB) :
  chat_messages (appended_db sid en cd d)
  = chat_messages d
    ++ [row_of (next_id (seq_messages d) (map m_id (chat_messages d))) sid en].
Proof. unfold appended_db. destruct cd; reflexivity. Qed.

Lemma select_messages_appended (sid : Z) (en : chat_entry)
    (cd : option document) (d : DB) :
  select_messages sid (appended_db sid en cd d)
  = select_messages sid d
    ++ [row_of (next_id (seq_messages d) (map m_id (chat_messages d))) sid en].
Proof.
  unfold select_messages. rewrite appended_db_messages.
  rewrite filter_app. cbn. rewrite Z.eqb_refl.
  apply order_by_app_last. cbn.
  apply Forall_forall. intros m Hm. apply filter_In in Hm.
  destruct Hm as [Hm _].
  pose proof (next_id_fresh (seq_messages d) (map m_id (chat_messages d))) as F.
  rewrite Forall_forall in F. apply F. apply in_map. exact Hm.
Qed.

Lemma append_all_spec (turns : list turn) :
  forall (w : World) (sid : Z),
    faults w = [] ->
    chat_id (st w) = PyInt sid ->
    let w' := exec (append_all turns) w in
    exists rows,
      outcome (append_all turns) w = Ok tt /\
      faults w' = [] /\
      select_messages sid (db w') = select_messages sid (db w) ++ rows /\
      chat_history (st w') = chat_history (st w) ++ map message_dict rows /\
      map turn_of (map message_dict rows) = turns /\
      StronglySorted Z.lt (map m_id rows) /\
      Forall (fun r => Forall (fun m => m_id m < m_id r) (chat_messages (db w)))
             rows.
Proof.
  induction turns as [| t turns IH]; intros w sid Hf Hc; cbn zeta.
  - exists []. cbn. rewrite !app_nil_r.
    repeat split; first [exact Hf | constructor].
  - pose proof (add_to_chat_history_ok w sid (t_question t) (t_answer t)
                  (t_response_time t) (t_document t) Hf Hc) as H1.
    cbn zeta in H1.
    set (en := entry_at w (t_question t) (t_answer t) (t_response_time t)
                 (t_document t)) in *.
    set (d := appended_db sid en (current_document (st w)) (db w)) in *.
    set (w1 := set_db d _) in H1.
    destruct (IH w1 sid) as [rows [Ho [Hf' [Hs [Hh [Ht [Hsort Hall]]]]]]];
      [exact Hf | exact Hc |].
    set (r := row_of (next_id (seq_messages (db w))
                        (map m_id (chat_messages (db w)))) sid en).
    assert (Hmsgs : chat_messages (db w1) = chat_messages (db w) ++ [r])
      by apply appended_db_messages.
    exists (r :: rows).
    unfold exec, outcome in *. cbn [append_all].
    rewrite (bind_Ok _ _ _ _ _ H1).
    split; [exact Ho |]. split; [exact Hf' |].
    split.
    { rewrite Hs. change (db w1) with d. unfold d.
      rewrite select_messages_appended. rewrite <- app_assoc. reflexivity. }
    split.
    { rewrite Hh. cbn. rewrite <- app_assoc. reflexivity. }
    split.
    { cbn. rewrite Ht. destruct t; reflexivity. }
    split.
    { cbn. constructor; [exact Hsort |].
      rewrite Forall_map. eapply Forall_impl; [| exact Hall].
      intros r' Hr'. rewrite Hmsgs in Hr'.
      apply Forall_app in Hr'. destruct Hr' as [_ Hr'].
      inversion Hr'; assumption. }
    constructor.
    { apply Forall_forall. intros m Hm.
      pose proof (next_id_fresh (seq_messages (db w))
                    (map m_id (chat_messages (db w)))) as F.
      rewrite Forall_forall in F. apply F. apply in_map. exact Hm. }
    eapply Forall_impl; [| exact Hall].
    intros r' Hr'. rewrite Hmsgs in Hr'.
    apply Forall_app in Hr'. tauto.
Qed.

(** C6.  In a session that has no message yet, and with a storage that does
    not fail, a sequence of [add_to_chat_history] calls followed by
    [get_chat_messages] gives back exactly the entries the calls appended to
    the in-memory history: the arguments of the calls, in the order of the
    calls, as many as there were calls, read from rows whose ids increase. *)
Theorem get_chat_messages_in_append_order (w : World) (sid : Z)
    (turns : list turn) :
  faults w = [] ->
  chat_id (st w) = PyInt sid ->
  messages_of sid (db w) = [] ->
  let w' := exec (append_all turns) w in
  exists appended rows,
    chat_history (st w') = chat_history (st w) ++ appended /\
    map turn_of appended = turns /\
    List.length appended = List.length turns /\
    outcome (get_chat_messages sid) w' = Ok appended /\
    select_messages sid (db w') = rows /\
    map message_dict rows = appended /\
    StronglySorted Z.lt (map m_id rows).
Proof.
  intros Hf Hc Hfresh. cbn zeta.
  destruct (append_all_spec turns w sid Hf Hc)
    as [rows [_ [Hf' [Hs [Hh [Ht [Hsort _]]]]]]].
  assert (Hsel : select_messages sid (db (exec (append_all turns) w)) = rows).
  { rewrite Hs. unfold select_messages. fold (messages_of sid (db w)).
    rewrite Hfresh. reflexivity. }
  exists (map message_dict rows), rows.
  split; [exact Hh |]. split; [exact Ht |].
  split; [rewrite <- Ht, !length_map; reflexivity |].
  split.
  { unfold outcome. rewrite (get_chat_messages_ok _ sid Hf'). cbn.
    rewrite Hsel. reflexivity. }
  split; [exact Hsel |]. split; [reflexivity | exact Hsort].
Qed.

Lemma get_chat_messages_in_append_order_witness :
  let w' := exec (append_all two_turns) one_empty_chat in
  exists appended rows,
    chat_history (st w') = chat_history (st one_empty_chat) ++ appended /\
    map turn_of appended = two_turns /\
    List.length appended = List.length two_turns /\
    outcome (get_chat_messages 1) w' = Ok appended /\
    select_messages 1 (db w') = rows /\
    map message_dict rows = appended /\
    StronglySorted Z.lt (map m_id rows).
Proof.
  apply (get_chat_messages_in_append_order one_empty_chat 1 two_turns);
    vm_compute; reflexivity.
Defined.

(** ** Listing the sessions *)

Lemma get_chat_sessions_ok (w : World) :
  faults w = [] ->
  get_chat_sessions w
  = (Ok (map session_dict (select_sessions (db w))),
     set_db (db w) (set_conn (db w) w)).
Proof.
  intros Hf. unfold get_chat_sessions. apply try_except_ok.
  erewrite with_connection_ok; [| exact Hf |].
  2: { erewrite bind_Ok by (apply execute_query_ok; exact Hf). reflexivity. }
  reflexivity.
Qed.

Lemma select_sessions_ids (d : DB) :
  map sum_id (map session_dict (select_sessions d))
  = map s_id (order_by_desc s_id (chat_sessions d)).
Proof.
  unfold select_sessions. rewrite !map_map. reflexivity.
Qed.

(** Ids in descending order. *)
Lemma order_by_desc_descending {A} (key : A -> Z) (l : list A) :
  StronglySorted Z.ge (map key (order_by_desc key l)).
Proof.
  unfold order_by_desc.
  pose proof (order_by_ascending (fun x => - key x) l) as H.
  unfold ascending in H.
  induction H as [| x s Hs IH Hx]; cbn; constructor; [exact IH |].
  rewrite Forall_map. eapply Forall_impl; [| exact Hx].
  cbn. intros; lia.
Qed.

(** The answer of the message with the largest id, if the session has a
    message. *)
Lemma select_last_answer_spec (chat : Z) (d : DB) :
  last_answer_of d chat (select_last_answer chat d).
Proof.
  unfold last_answer_of, select_last_answer, order_by_desc. fold (messages_of chat d).
  pose proof (order_by_head (fun m => - m_id m) (messages_of chat d)) as H.
  destruct (hd_error (order_by (fun m => - m_id m) (messages_of chat d)))
    as [m |]; cbn.
  - destruct H as [Hin Hmax]. exists m. split; [exact Hin |].
    split; [reflexivity |]. intros m' Hm'. specialize (Hmax m' Hm'). lia.
  - exact H.
Qed.

Lemma start_new_chat_session_ok (w : World) :
  faults w = [] ->
  let t := clock w (ticks w) in
  let id := next_id (seq_sessions (db w)) (map s_id (chat_sessions (db w))) in
  let d := snd (insert_session (strftime_full t) (db w)) in
  outcome start_new_chat_session w = Ok (Some id) /\
  db (exec start_new_chat_session w) = d /\
  faults (exec start_new_chat_session w) = [] /\
  chat_id (st (exec start_new_chat_session w)) = PyInt id.
Proof.
  intros Hf. cbn zeta. unfold outcome, exec, start_new_chat_session.
  erewrite bind_Ok.
  2: { rewrite (connect_ok w Hf).
       erewrite bind_Ok by reflexivity.
       rewrite execute_insert_ok by exact Hf.
       erewrite bind_Ok by reflexivity.
       rewrite commit_ok by exact Hf. reflexivity. }
  step. step. step.
  destruct (query_input_bound w) eqn:Hq.
  - erewrite bind_Ok.
    2: { unfold try_except. erewrite bind_Ok by reflexivity.
         cbn. rewrite Hq. reflexivity. }
    cbn. repeat split; try assumption; reflexivity.
  - erewrite bind_Ok.
    2: { apply try_except_ok. erewrite bind_Ok by reflexivity.
         cbn. rewrite Hq. reflexivity. }
    cbn. repeat split; try assumption; reflexivity.
Qed.

Lemma insert_session_listed (ts : string) (d : DB) :
  map s_id (order_by_desc s_id (chat_sessions (snd (insert_session ts d))))
  = fst (insert_session ts d) :: map s_id (order_by_desc s_id (chat_sessions d)).
Proof.
  cbn. unfold order_by_desc. rewrite order_by_app_first; [reflexivity |].
  cbn. apply Forall_forall. intros r Hr.
  pose proof (next_id_fresh (seq_sessions d) (map s_id (chat_sessions d))) as F.
  rewrite Forall_forall in F. specialize (F (s_id r) (in_map s_id _ _ Hr)).
  lia.
Qed.

Lemma insert_session_next (ts ts' : string) (d : DB) :
  fst (insert_session ts d) < fst (insert_session ts' (snd (insert_session ts d))).
Proof. cbn. apply next_id_above_seq. Qed.

Lemma create_three_ok (w : World) :
  faults w = [] ->
  exists a b c,
    outcome create_three w = Ok (Some a, Some b, Some c) /\
    a < b < c /\
    faults (exec create_three w) = [] /\
    map s_id (order_by_desc s_id (chat_sessions (db (exec create_three w))))
    = c :: b :: a :: map s_id (order_by_desc s_id (chat_sessions (db w))).
Proof.
  intros Hf.
  destruct (start_new_chat_session_ok w Hf) as [Ha [Hda [Hfa _]]].
  set (wa := exec start_new_chat_session w) in *.
  destruct (start_new_chat_session_ok wa Hfa) as [Hb [Hdb [Hfb _]]].
  set (wb := exec start_new_chat_session wa) in *.
  destruct (start_new_chat_session_ok wb Hfb) as [Hc [Hdc [Hfc _]]].
  set (wc := exec start_new_chat_session wb) in *.
  unfold outcome, exec, create_three.
  rewrite (bind_Ok _ _ _ _ _ (run_Ok _ _ _ Ha)). fold wa.
  rewrite (bind_Ok _ _ _ _ _ (run_Ok _ _ _ Hb)). fold wb.
  rewrite (bind_Ok _ _ _ _ _ (run_Ok _ _ _ Hc)). fold wc.
  cbn [ret fst snd].
  do 3 eexists. split; [reflexivity |].
  split.
  { rewrite Hdb, Hda. split; apply next_id_above_seq. }
  split; [exact Hfc |].
  rewrite Hdc, insert_session_listed. rewrite Hdb, insert_session_listed.
  rewrite Hda, insert_session_listed. reflexivity.
Qed.

(** C8.  While the storage does not fail, [get_chat_sessions] lists every
    session once, by descending id, with the display name of its row and,
    as last answer, the answer of its message with the largest id (nothing
    if it has no message).  Sessions created one after the other get
    increasing ids, so three sessions created as A, B, C head the list as
    C, B, A. *)
Theorem get_chat_sessions_newest_first (w : World) :
  faults w = [] ->
  (exists l,
      outcome get_chat_sessions w = Ok l /\
      Permutation (map sum_id l) (map s_id (chat_sessions (db w))) /\
      StronglySorted Z.ge (map sum_id l) /\
      Forall (fun s =>
                (exists r, In r (chat_sessions (db w)) /\
                           s_id r = sum_id s /\
                           s_document_display_name r
                           = sum_document_display_name s) /\
                last_answer_of (db w) (sum_id s) (sum_last_answer s))
             l)
  /\
  (exists a b c l rest,
      outcome create_three w = Ok (Some a, Some b, Some c) /\
      a < b < c /\
      outcome get_chat_sessions (exec create_three w) = Ok l /\
      map sum_id l = c :: b :: a :: rest).
Proof.
  intros Hf. split.
  - exists (map session_dict (select_sessions (db w))).
    split; [unfold outcome; rewrite (get_chat_sessions_ok w Hf); reflexivity |].
    rewrite select_sessions_ids.
    split; [apply Permutation_map, order_by_perm |].
    split; [apply order_by_desc_descending |].
    unfold select_sessions. rewrite map_map. rewrite Forall_map.
    apply Forall_forall. intros r Hr. cbn. split.
    + exists r. split; [| split; reflexivity].
      apply (In_order_by (fun x => - s_id x)). exact Hr.
    + apply select_last_answer_spec.
  - destruct (create_three_ok w Hf) as [a [b [c [Ho [Hlt [Hf' Hl]]]]]].
    exists a, b, c.
    exists (map session_dict (select_sessions (db (exec create_three w)))).
    exists (map s_id (order_by_desc s_id (chat_sessions (db w)))).
    split; [exact Ho |]. split; [exact Hlt |].
    split; [unfold outcome; rewrite (get_chat_sessions_ok _ Hf'); reflexivity |].
    rewrite select_sessions_ids. exact Hl.
Qed.

Lemma get_chat_sessions_newest_first_witness :
  exists a b c l rest,
    outcome create_three fresh_world = Ok (Some a, Some b, Some c) /\
    a < b < c /\
    outcome get_chat_sessions (exec create_three fresh_world) = Ok l /\
    map sum_id l = c :: b :: a :: rest.
Proof.
  exact (proj2 (get_chat_sessions_newest_first fresh_world eq_refl)).
Defined.

(** ** Starting a new chat *)

Lemma start_new_chat_session_frame (w : World) :
  let w' := exec start_new_chat_session w in
  (exists r, outcome start_new_chat_session w = Ok r) /\
  chat_history (st w') = [] /\
  process_logs (st w') = [] /\
  last_response (st w') = None /\
  current_document (st w') = current_document (st w) /\
  vector_db (st w') = vector_db (st w) /\
  current_doc_hash (st w') = current_doc_hash (st w) /\
  document_processed (st w') = document_processed (st w) /\
  builds w' = builds w.
Proof.
  destruct w as [d c u s ck tk f rl ue bs sv mc qb].
  unfold exec, outcome, start_new_chat_session.
  destruct qb; destruct f as [| [] [| [] [| [] f]]];
    cbn -[strftime_full next_id]; repeat split; eexists; reflexivity.
Qed.

(** C9.  [start_new_chat_session] returns to its caller with the in-memory
    chat history and the process logs empty, and with the current document,
    its fingerprint, the vector database and the list of index builds as
    they were: a new chat goes on with the same document and no rebuild.
    While the storage does not fail it adds one session row, with an id no
    session had, and makes that id the current one. *)
Theorem start_new_chat_session_keeps_document (w : World) :
  let w' := exec start_new_chat_session w in
  (exists r, outcome start_new_chat_session w = Ok r) /\
  chat_history (st w') = [] /\
  process_logs (st w') = [] /\
  current_document (st w') = current_document (st w) /\
  current_doc_hash (st w') = current_doc_hash (st w) /\
  vector_db (st w') = vector_db (st w) /\
  builds w' = builds w /\
  (faults w = [] ->
   exists id,
     outcome start_new_chat_session w = Ok (Some id) /\
     chat_id (st w') = PyInt id /\
     ~ In id (map s_id (chat_sessions (db w))) /\
     chat_sessions (db w')
     = chat_sessions (db w)
       ++ [ {| s_id := id;
               s_created_at := strftime_full (clock w (ticks w));
               s_document_path := None;
               s_document_unique_name := None;
               s_document_display_name := None |} ]).
Proof.
  cbn zeta.
  destruct (start_new_chat_session_frame w)
    as [Hr [Hh [Hl [_ [Hd [Hv [Hc [_ Hb]]]]]]]].
  repeat (split; [assumption |]).
  intros Hf.
  destruct (start_new_chat_session_ok w Hf) as [Ho [Hdb [_ Hid]]].
  eexists. split; [exact Ho |]. split; [exact Hid |]. split.
  - intros Hin.
    pose proof (next_id_fresh (seq_sessions (db w))
                  (map s_id (chat_sessions (db w)))) as F.
    rewrite Forall_forall in F. specialize (F _ Hin). lia.
  - rewrite Hdb. reflexivity.
Qed.

Lemma start_new_chat_session_keeps_document_witness :
  let w' := exec start_new_chat_session after_first_question in
  vector_db (st w') = vector_db (st after_first_question) /\
  exists id,
    outcome start_new_chat_session after_first_question = Ok (Some id) /\
    chat_id (st w') = PyInt id /\
    ~ In id (map s_id (chat_sessions (db after_first_question))) /\
    chat_sessions (db w')
    = chat_sessions (db after_first_question)
      ++ [ {| s_id := id;
              s_created_at :=
                strftime_full (clock after_first_question
                                 (ticks after_first_question));
              s_document_path := None;
              s_document_unique_name := None;
              s_document_display_name := None |} ].
Proof.
  destruct (start_new_chat_session_keeps_document after_first_question)
    as [_ [_ [_ [_ [_ [Hv [_ H]]]]]]].
  split; [exact Hv |]. apply H. vm_compute. reflexivity.
Defined.

(** ** Switching to another session *)

Lemma get_chat_metadata_triple (d : DB) (chat : Z) :
  triple (fun w => db w = d) (get_chat_metadata chat)
    (fun meta w' =>
       db w' = d /\
       (meta = None \/ meta = option_map metadata_dict (select_metadata chat d)))
    (fun _ _ => False).
Proof.
  unfold get_chat_metadata.
  apply triple_try_except
    with (E' := fun e w => is_Exception e = true /\ db w = d).
  - apply triple_with_connection
      with (P1 := fun w => db w = d /\ conn w = d).
    { apply triple_connect; side. }
    apply triple_bind
      with (R := fun row w =>
                   (db w = d /\ conn w = d) /\ row = select_metadata chat d).
    { apply triple_execute_query; side. }
    intros row. destruct row as [r |]; apply triple_ret;
      intros w [[H1 H2] H3]; cbn; (split; [exact H2 |]); right;
      rewrite <- H3; reflexivity.
  - intros e He.
    apply triple_bind with (R := fun _ w => db w = d);
      [apply triple_modify; side | intros _; apply triple_ret; side].
  - intros e w He [He' _]. congruence.
Qed.

Lemma get_chat_metadata_keeps_st (chat : Z) :
  keeps st (get_chat_metadata chat).
Proof.
  unfold get_chat_metadata. keeps_tac.
Qed.

Lemma get_chat_metadata_keeps_builds (chat : Z) :
  keeps builds (get_chat_metadata chat).
Proof.
  unfold get_chat_metadata. keeps_tac.
Qed.

Lemma switch_session_no_path (w : World) (target : Z) :
  get_chat_id (st w) <> Some target ->
  no_recorded_path target (db w) ->
  let w' := exec (switch_session target) w in
  outcome (switch_session target) w = Raise RerunException /\
  st w' = set_chat_id (PyInt target) (st w) /\
  builds w' = builds w.
Proof.
  intros Hne Hno. cbn zeta. unfold outcome, exec, switch_session.
  step.
  replace (match get_chat_id (st w) with
           | Some c => c =? target
           | None => false
           end) with false.
  2: { destruct (get_chat_id (st w)) as [c |]; [| reflexivity].
       symmetry. apply Z.eqb_neq. congruence. }
  cbn [negb]. step.
  set (w1 := set_st (set_chat_id (PyInt target) (st w)) w).
  pose proof (triple_returns _ _ _ w1
                (get_chat_metadata_triple (db w) target) eq_refl)
    as [meta [Hm [_ Hmeta]]].
  pose proof (get_chat_metadata_keeps_st target w1) as Hst.
  pose proof (get_chat_metadata_keeps_builds target w1) as Hb.
  unfold outcome, exec in *.
  destruct (get_chat_metadata target w1) as [r w2] eqn:E.
  cbn in Hm, Hst, Hb. subst r.
  rewrite !(bind_Ok _ _ _ _ _ E).
  assert (Hrest :
    (match meta with
     | Some m =>
         if truthy_str (d_path m)
         then
           modify_st (set_current_document (Some m));;
           try_except
             (vdb <- create_vector_db_from_document
                       match d_path m with Some p => p | None => "" end;;
              match vdb with
              | Some v =>
                  modify_st (set_vector_db (Some v));;
                  modify_st (set_document_processed true)
              | None => ret tt
              end)
             (fun _ => ret tt)
         else ret tt
     | None => ret tt
     end) w2 = (Ok tt, w2)).
  { destruct Hmeta as [-> | ->]; [reflexivity |].
    unfold no_recorded_path in Hno.
    destruct (select_metadata target (db w)) as [row |]; [| reflexivity].
    cbn. rewrite Hno. reflexivity. }
  rewrite (bind_Ok _ _ _ _ _ Hrest). cbn.
  rewrite Hst, Hb. split; [reflexivity | split; reflexivity].
Qed.

(** C1, as amended.  Switching to a session other than the current one, for
    which no document path is recorded, builds no index, makes the target
    the current session, and leaves the current document, its fingerprint
    and the vector database exactly as they were: the orchestrator needs a
    document afterwards only if it needed one before. *)
Theorem switch_session_without_path (w : World) (target : Z) :
  get_chat_id (st w) <> Some target ->
  no_recorded_path target (db w) ->
  let w' := exec (switch_session target) w in
  builds w' = builds w /\
  chat_id (st w') = PyInt target /\
  current_document (st w') = current_document (st w) /\
  current_doc_hash (st w') = current_doc_hash (st w) /\
  vector_db (st w') = vector_db (st w) /\
  document_processed (st w') = document_processed (st w).
Proof.
  intros Hne Hno. cbn zeta.
  destruct (switch_session_no_path w target Hne Hno) as [_ [Hst Hb]].
  rewrite Hst. repeat split. exact Hb.
Qed.

Lemma switch_session_without_path_witness :
  let w' := exec (switch_session 1) two_chats_one_document in
  builds w' = builds two_chats_one_document /\
  chat_id (st w') = PyInt 1 /\
  current_document (st w') = current_document (st two_chats_one_document) /\
  current_doc_hash (st w') = current_doc_hash (st two_chats_one_document) /\
  vector_db (st w') = vector_db (st two_chats_one_document) /\
  document_processed (st w')
  = document_processed (st two_chats_one_document).
Proof.
  apply (switch_session_without_path two_chats_one_document 1).
  - vm_compute. discriminate.
  - vm_compute. reflexivity.
Defined.

(** C1 as the specification states it, with the "needs document" state
    afterwards, fails: after two new chats and a question on [report.txt] in
    the second, selecting the first chat, which has no document, builds
    nothing and leaves the index and the document of the second in place. *)
Lemma switch_session_keeps_the_index :
  ~ (forall (w : World) (target : Z),
        get_chat_id (st w) <> Some target ->
        no_recorded_path target (db w) ->
        let w' := exec (switch_session target) w in
        builds w' = builds w /\
        vector_db (st w') = None /\
        current_document (st w') = None).
Proof.
  intros H.
  assert (H1 : get_chat_id (st two_chats_one_document) <> Some 1)
    by (vm_compute; discriminate).
  assert (H2 : no_recorded_path 1 (db two_chats_one_document))
    by (vm_compute; reflexivity).
  destruct (H two_chats_one_document 1 H1 H2) as [_ [Hv _]].
  vm_compute in Hv. discriminate.
Qed.

(** ** A turn with an uploaded file *)

Lemma add_to_chat_history_keeps_index q a rt doc :
  keeps index_view (add_to_chat_history q a rt doc).
Proof. unfold add_to_chat_history. keeps_tac. Qed.

Lemma preload_model_keeps_index : keeps index_view preload_model.
Proof. unfold preload_model. keeps_tac. Qed.

Lemma save_uploaded_file_keeps_index up :
  keeps index_view (save_uploaded_file up).
Proof. unfold save_uploaded_file. keeps_tac. Qed.

Lemma ingest_docs_keeps_index p : keeps index_view (ingest_docs p).
Proof. unfold ingest_docs. keeps_tac. Qed.

Lemma split_documents_keeps_index docs :
  keeps index_view (split_documents docs).
Proof. unfold split_documents. keeps_tac. Qed.

Ltac keeps_known ::=
  lazymatch goal with
  | |- keeps index_view (add_to_chat_history _ _ _ _) =>
      apply add_to_chat_history_keeps_index
  | |- keeps index_view preload_model => apply preload_model_keeps_index
  | |- keeps index_view (save_uploaded_file _) =>
      apply save_uploaded_file_keeps_index
  | |- keeps index_view (ingest_docs _) => apply ingest_docs_keeps_index
  | |- keeps index_view (split_documents _) =>
      apply split_documents_keeps_index
  end.

Lemma process_query_keeps_index q t : keeps index_view (process_query q t).
Proof.
  unfold process_query, create_fast_retriever, create_chain. keeps_tac.
Qed.

Ltac keeps_known ::=
  lazymatch goal with
  | |- keeps index_view (add_to_chat_history _ _ _ _) =>
      apply add_to_chat_history_keeps_index
  | |- keeps index_view preload_model => apply preload_model_keeps_index
  | |- keeps index_view (save_uploaded_file _) =>
      apply save_uploaded_file_keeps_index
  | |- keeps index_view (ingest_docs _) => apply ingest_docs_keeps_index
  | |- keeps index_view (split_documents _) =>
      apply split_documents_keeps_index
  | |- keeps index_view (process_query _ _) => apply process_query_keeps_index
  end.

Lemma hash_differs (h : string) (stored : option string) :
  stored <> Some h ->
  match stored with
  | Some h' => String.eqb h h'
  | None => false
  end = false.
Proof.
  destruct stored as [h' |]; [| reflexivity].
  intros H. apply String.eqb_neq. congruence.
Qed.

Lemma hash_equal (h : string) :
  match Some h with
  | Some h' => String.eqb h h'
  | None => false
  end = true.
Proof. apply String.eqb_refl. Qed.

(** The build itself: one more entry in [builds], whatever comes of it. *)
Lemma create_vector_db_from_document_builds (p : string) (w : World) :
  builds (exec (create_vector_db_from_document p) w) = builds w ++ [p] /\
  st_view (exec (create_vector_db_from_document p) w) = st_view w.
Proof.
  assert (E : index_view (exec (create_vector_db_from_document p) w)
              = index_view (set_builds (builds w ++ [p]) w)).
  { unfold exec, create_vector_db_from_document. step.
    match goal with
    | |- index_view (snd (?m ?w1)) = _ =>
        assert (K : keeps index_view m) by keeps_tac; exact (K w1)
    end. }
  unfold index_view in E. injection E as E1 E2 E3 E4.
  unfold st_view. rewrite E1, E2, E3, E4. split; reflexivity.
Qed.


Lemma process_query_with_document_new (w : World) q up p u :
  let h := get_file_hash (up_bytes up) in
  current_doc_hash (st w) <> Some h ->
  save_step up w = Ok (Some p, u) ->
  let w' := exec (process_query_with_document q up) w in
  builds w' = builds w ++ [p] /\
  current_doc_hash (st w') = Some h /\
  current_document (st w')
  = Some {| d_name := Some (up_name up); d_path := Some p;
            d_unique_name := u |}.
Proof.
  intros h Hne Hs. cbn zeta.
  set (g := fun x : World =>
              (builds x, current_doc_hash (st x), current_document (st x))).
  set (cd := {| d_name := Some (up_name up); d_path := Some p;
                d_unique_name := u |}).
  set (G := fun x : World => g x = (builds w ++ [p], Some h, Some cd)).
  enough (HG : G (exec (process_query_with_document q up) w)).
  { unfold G, g in HG. injection HG as H1 H2 H3. repeat split; assumption. }
  assert (Kg : forall A (m : M A), keeps index_view m -> keeps g m).
  { intros A m K.
    exact (keeps_compose index_view
             (fun v => (fst (fst (fst v)), snd (fst v), snd v)) m K). }
  assert (T : triple (fun x => x = w) (process_query_with_document q up)
                (fun _ => G) (fun _ => G)).
  2: { pose proof (triple_run _ _ _ _ w T eq_refl) as R.
       destruct (outcome (process_query_with_document q up) w); exact R. }
  unfold process_query_with_document.
  apply triple_bind
    with (R := fun stored x => stored = current_doc_hash (st w) /\ x = w).
  { apply triple_gets. intros x ->. split; reflexivity. }
  intros stored. apply triple_pure. intros ->.
  fold h. rewrite (hash_differs h _ Hne). cbn [negb].
  set (w_a := exec clear_logs w).
  set (w_b := exec (add_log (Fmt "Processing new document: {}"
                              [FStr (up_name up)]) "INFO") w_a).
  set (w_s := exec time_time w_b).
  assert (Hws : index_view w_s = index_view w) by reflexivity.
  apply triple_bind with (R := fun _ x => x = w_a).
  { apply triple_exec. eexists. reflexivity. }
  intros _.
  apply triple_bind with (R := fun _ x => x = w_b).
  { apply triple_exec. eexists. reflexivity. }
  intros _.
  apply triple_try_except with (E' := fun _ => G).
  2: { intros e He. apply (triple_keeps g _ (fun v => v = _)).
       apply Kg. keeps_tac. }
  2: { intros e x _ Hx. exact Hx. }
  apply triple_bind with (R := fun _ x => x = w_s).
  { apply triple_exec. eexists. reflexivity. }
  intros t.
  apply triple_bind
    with (R := fun saved x =>
                 saved = (Some p, u) /\ index_view x = index_view w).
  { intros x ->. unfold save_step in Hs.
    change (exec _ w) with w_s in Hs.
    pose proof (save_uploaded_file_keeps_index up w_s) as K.
    unfold outcome in Hs. unfold exec in K.
    destruct (save_uploaded_file up w_s) as [r x].
    cbn [fst snd] in Hs, K. subst r.
    split; [reflexivity | rewrite K; exact Hws]. }
  intros saved. apply triple_pure. intros ->.
  apply triple_bind
    with (R := fun _ x => builds x = builds w /\
                          current_document (st x) = Some cd).
  { apply triple_modify_st. intros x Hx. unfold index_view in Hx.
    injection Hx as H1 H2 H3 H4. split; [assumption | reflexivity]. }
  intros _.
  apply triple_bind
    with (R := fun _ x => builds x = builds w /\
                          current_doc_hash (st x) = Some h /\
                          current_document (st x) = Some cd).
  { apply triple_modify_st. intros x [H1 H2].
    split; [exact H1 | split; [reflexivity | exact H2]]. }
  intros _.
  apply triple_bind with (R := fun _ => G).
  { intros x [H1 [H2 H3]].
    pose proof (create_vector_db_from_document_builds p x) as [K1 K2].
    unfold exec in K1, K2.
    destruct (create_vector_db_from_document p x) as [[r | e] x'];
      cbn [snd] in K1, K2; unfold G, g; unfold st_view in K2;
      injection K2 as _ K2 K3; rewrite K1, K2, K3, H1, H2, H3; reflexivity. }
  intros vdb.
  apply (triple_keeps g _ (fun v => v = _)).
  destruct vdb as [v |]; [| keeps_tac].
  apply keeps_bind; [keeps_tac | intros _].
  apply keeps_bind; [keeps_tac | intros _].
  apply Kg, process_query_keeps_index.
Qed.





(** ** The document metadata of a session *)







(** ** Saving an upload *)

Lemma find_first_match {A} (f : A -> bool) (l : list A) (x : A) :
  In x l -> f x = true ->
  exists y, find f l = Some y /\ In y l /\ f y = true.
Proof.
  intros Hin Hf.
  destruct (find f l) as [y |] eqn:E.
  - exists y. apply find_some in E. tauto.
  - pose proof (find_none f l E x Hin). congruence.
Qed.

Lemma save_uploaded_file_found (w : World) (up : upload)
    (files : list (string * bytes)) (current_file : string) :
  upload_dir w = Some files ->
  next_call_succeeds w ->
  find (same_base_name up) (map fst files) = Some current_file ->
  outcome (save_uploaded_file up) w
  = Ok (Some (upload_path current_file), Some current_file) /\
  upload_dir (exec (save_uploaded_file up) w) = Some files.
Proof.
  intros Hd Hn Hfind.
  unfold outcome, exec, save_uploaded_file.
  destruct (fallible_next OSError (set_ticks (S (ticks w)) w))
    as [w1 [Hw1 Hsame]]; [exact Hn |].
  assert (Hu1 : upload_dir w1 = Some files).
  { pose proof (f_equal upload_dir (Hsame [])) as K. cbn in K.
    rewrite K. exact Hd. }
  erewrite try_except_ok.
  2: { step. step. cbn [upload_dir set_ticks]. rewrite Hd.
       erewrite bind_Ok.
       2: { erewrite bind_Ok by exact Hw1. reflexivity. }
       unfold same_base_name in Hfind. rewrite Hfind.
       rewrite (bind_Ok _ _ _ _ _ (add_log_run _ _ _)). reflexivity. }
  cbn [fst snd]. split; [reflexivity |]. exact Hu1.
Qed.

Lemma startswith_app (p s : string) : startswith (p ++ s)%string p = true.
Proof.
  unfold startswith. induction p as [| c p IH]; cbn.
  - destruct s; reflexivity.
  - destruct (ascii_dec c c) as [_ | N]; [exact IH | congruence].
Qed.

Lemma string_app_assoc (a b c : string) :
  (a ++ b ++ c)%string = ((a ++ b) ++ c)%string.
Proof. induction a as [| x a IH]; cbn; [reflexivity | rewrite IH; reflexivity]. Qed.

Lemma startswith_app_assoc (p s t : string) :
  startswith (p ++ "_" ++ s ++ t)%string (p ++ "_")%string = true.
Proof. rewrite string_app_assoc. apply startswith_app. Qed.

Lemma write_file_new (name : string) (content : bytes)
    (files : list (string * bytes)) :
  ~ In name (map fst files) ->
  write_file name content files = files ++ [(name, content)].
Proof.
  induction files as [| [n c] files IH]; intros H; [reflexivity |].
  cbn [write_file app]. destruct (String.eqb n name) eqn:E.
  - apply String.eqb_eq in E. exfalso. apply H. left. exact E.
  - rewrite IH; [reflexivity |]. intros K. apply H. right. exact K.
Qed.

Lemma find_app_none {A} (f : A -> bool) (l : list A) (x : A) :
  find f l = None -> find f (l ++ [x]) = if f x then Some x else None.
Proof.
  induction l as [| y l IH]; cbn; [reflexivity |].
  destruct (f y); [discriminate | exact IH].
Qed.

Lemma upload_path_eqb (a b : string) :
  String.eqb (upload_path a) (upload_path b) = String.eqb a b.
Proof. reflexivity. Qed.

Lemma find_path_last (files : list (string * bytes)) (name : string)
    (content : bytes) :
  ~ In name (map fst files) ->
  option_map snd
    (find (fun f => String.eqb (upload_path (fst f)) (upload_path name))
          (files ++ [(name, content)]))
  = Some content.
Proof.
  induction files as [| [n c] files IH]; intros Hn; cbn -[upload_path].
  - rewrite upload_path_eqb, String.eqb_refl. reflexivity.
  - rewrite upload_path_eqb. destruct (String.eqb n name) eqn:E.
    + apply String.eqb_eq in E. exfalso. apply Hn. left. exact E.
    + apply IH. intros K. apply Hn. right. exact K.
Qed.

Lemma read_path_last (w : World) (files : list (string * bytes))
    (name : string) (content : bytes) :
  upload_dir w = Some (files ++ [(name, content)]) ->
  ~ In name (map fst files) ->
  read_path (upload_path name) w = Some content.
Proof.
  intros Hd Hn. unfold read_path. rewrite Hd.
  apply find_path_last. exact Hn.
Qed.

(** The name under which a new upload is stored. *)
Lemma save_uploaded_file_first (w : World) (up : upload)
    (files : list (string * bytes)) :
  upload_dir w = Some files ->
  faults w = [] ->
  find (same_base_name up) (map fst files) = None ->
  let unique := unique_filename_at w up in
  outcome (save_uploaded_file up) w
  = Ok (Some (upload_path unique), Some unique) /\
  upload_dir (exec (save_uploaded_file up) w)
  = Some (files ++ [(unique, up_bytes up)]) /\
  faults (exec (save_uploaded_file up) w) = [] /\
  ~ In unique (map fst files).
Proof.
  intros Hd Hf Hfind unique.
  assert (Hnew : ~ In unique (map fst files)).
  { intros Hin. pose proof (find_none _ _ Hfind unique Hin) as K.
    unfold same_base_name, unique, unique_filename_at in K.
    rewrite startswith_app_assoc in K. discriminate. }
  unfold outcome, exec, save_uploaded_file.
  erewrite try_except_ok.
  2: { step. step. cbn [upload_dir set_ticks]. rewrite Hd.
       erewrite bind_Ok.
       2: { erewrite bind_Ok by (apply fallible_ok; exact Hf). reflexivity. }
       unfold same_base_name in Hfind. rewrite Hfind.
       unfold makedirs_upload_directory.
       erewrite bind_Ok.
       2: { erewrite bind_Ok by (apply fallible_ok; exact Hf).
            unfold modify. cbn [upload_dir set_ticks]. rewrite Hd.
            reflexivity. }
       unfold write_upload.
       erewrite bind_Ok.
       2: { erewrite bind_Ok by (apply fallible_ok; exact Hf).
            step. cbn [upload_dir set_ticks]. rewrite Hd. reflexivity. }
       rewrite (bind_Ok _ _ _ _ _ (add_log_run _ _ _)).
       rewrite (bind_Ok _ _ _ _ _ (add_log_run _ _ _)).
       reflexivity. }
  cbn [fst snd]. fold unique.
  split; [reflexivity |]. split; [| split; [exact Hf | exact Hnew]].
  cbn. fold unique. rewrite write_file_new by exact Hnew. reflexivity.
Qed.

(** C7.  When the upload directory lists a file whose name starts with the
    stem of the uploaded name and an underscore, and the listing does not
    fail, [save_uploaded_file] returns the path and the name of the first
    such file and leaves the directory as it is: nothing is written, and
    the uploaded bytes are not looked at.  So when a first upload is stored
    and a second one has the same stem, whatever its bytes, the second save
    returns the path and name of the first, and the file still holds the
    bytes of the first. *)
Theorem save_uploaded_file_reuses_by_name (w : World) (up : upload)
    (files : list (string * bytes)) (existing : string) :
  upload_dir w = Some files ->
  next_call_succeeds w ->
  In existing (map fst files) ->
  same_base_name up existing = true ->
  (exists current_file,
      find (same_base_name up) (map fst files) = Some current_file /\
      In current_file (map fst files) /\
      same_base_name up current_file = true /\
      outcome (save_uploaded_file up) w
      = Ok (Some (upload_path current_file), Some current_file) /\
      upload_dir (exec (save_uploaded_file up) w) = Some files)
  /\
  (forall (w0 : World) (first second : upload)
          (files0 : list (string * bytes)),
      upload_dir w0 = Some files0 ->
      faults w0 = [] ->
      find (same_base_name first) (map fst files0) = None ->
      path_stem (up_name second) = path_stem (up_name first) ->
      let w1 := exec (save_uploaded_file first) w0 in
      let w2 := exec (save_uploaded_file second) w1 in
      exists path name,
        outcome (save_uploaded_file first) w0 = Ok (Some path, Some name) /\
        outcome (save_uploaded_file second) w1 = Ok (Some path, Some name) /\
        upload_dir w2 = upload_dir w1 /\
        read_path path w2 = Some (up_bytes first)).
Proof.
  intros Hd Hn Hin Hmatch. split.
  - destruct (find_first_match (same_base_name up) (map fst files) existing
                Hin Hmatch) as [c [Hfind [Hc Hm]]].
    exists c. split; [exact Hfind |]. split; [exact Hc |].
    split; [exact Hm |].
    apply save_uploaded_file_found; assumption.
  - intros w0 first second files0 Hd0 Hf0 Hnone Hstem. cbn zeta.
    destruct (save_uploaded_file_first w0 first files0 Hd0 Hf0 Hnone)
      as [Ho1 [Hd1 [Hf1 Hnew]]].
    set (unique := unique_filename_at w0 first) in *.
    set (w1 := exec (save_uploaded_file first) w0) in *.
    assert (Hfind : find (same_base_name second)
                      (map fst (files0 ++ [(unique, up_bytes first)]))
                    = Some unique).
    { rewrite map_app. cbn [map fst].
      assert (E : same_base_name second = same_base_name first).
      { unfold same_base_name. rewrite Hstem. reflexivity. }
      rewrite E, (find_app_none _ _ _ Hnone).
      unfold same_base_name, unique, unique_filename_at.
      rewrite startswith_app_assoc. reflexivity. }
    assert (Hn1 : next_call_succeeds w1).
    { unfold next_call_succeeds. rewrite Hf1. exact I. }
    destruct (save_uploaded_file_found w1 second _ unique Hd1 Hn1 Hfind)
      as [Ho2 Hd2].
    exists (upload_path unique), unique.
    split; [exact Ho1 |]. split; [exact Ho2 |].
    split; [rewrite Hd2, Hd1; reflexivity |].
    apply (read_path_last _ files0); [exact Hd2 | exact Hnew].
Qed.

Lemma save_uploaded_file_reuses_by_name_witness :
  let w1 := exec (save_uploaded_file report_csv_first) fresh_world in
  outcome (save_uploaded_file report_csv_second) w1
  = Ok (Some "./processed_docs/report_20261103.csv",
        Some "report_20261103.csv") /\
  upload_dir (exec (save_uploaded_file report_csv_second) w1)
  = Some [("report_20261103.csv", up_bytes report_csv_first)].
Proof.
  destruct (save_uploaded_file_reuses_by_name
              (exec (save_uploaded_file report_csv_first) fresh_world)
              report_csv_second
              [("report_20261103.csv", up_bytes report_csv_first)]
              "report_20261103.csv")
    as [[c [Hfind [_ [_ [Ho Hd]]]]] _].
  - vm_compute. reflexivity.
  - vm_compute. exact I.
  - left. reflexivity.
  - vm_compute. reflexivity.
  - vm_compute in Hfind. injection Hfind as <-. split; [exact Ho | exact Hd].
Defined.

(** ** The foreign key from messages to sessions *)

(** Without a current chat id and with a storage that does not fail,
    [add_to_chat_history] first creates the session, then stores the message
    under the new id. *)
Lemma add_to_chat_history_creates_session (w : World) q a rt doc :
  faults w = [] ->
  get_chat_id (st w) = None ->
  let en := entry_at w q a rt doc in
  let created :=
    insert_session (strftime_full (clock w (S (ticks w)))) (db w) in
  let d := appended_db (fst created) en (current_document (st w))
             (snd created) in
  let w' := exec (add_to_chat_history q a rt doc) w in
  db w' = d /\ chat_id (st w') = PyInt (fst created) /\ faults w' = [].
Proof.
  intros Hf Hc en created d. cbn zeta.
  unfold exec, add_to_chat_history. step. step.
  subst d. unfold appended_db.
  destruct (current_document (st w)) as [dc |] eqn:Hd.
  - erewrite try_except_ok.
    2: { step. cbn [st set_st set_ticks].
         change (get_chat_id (set_chat_history _ (st w)))
           with (get_chat_id (st w)).
         rewrite Hc.
         erewrite bind_Ok.
         2: { erewrite with_connection_ok; [reflexivity | exact Hf |].
              step. erewrite bind_Ok by (apply execute_insert_ok; exact Hf).
              step. apply commit_ok. exact Hf. }
         erewrite with_connection_ok; [reflexivity | exact Hf |].
         erewrite bind_Ok by (apply read_chat_id_ok; reflexivity).
         erewrite bind_Ok by (apply execute_ok; exact Hf).
         erewrite bind_Ok.
         2: { apply try_except_ok. step.
              cbn [current_document st set_conn set_st set_chat_history
                   set_ticks set_db set_chat_id].
              rewrite Hd. apply execute_ok. exact Hf. }
         apply commit_ok. exact Hf. }
    cbn. repeat split. exact Hf.
  - erewrite try_except_ok.
    2: { step. cbn [st set_st set_ticks].
         change (get_chat_id (set_chat_history _ (st w)))
           with (get_chat_id (st w)).
         rewrite Hc.
         erewrite bind_Ok.
         2: { erewrite with_connection_ok; [reflexivity | exact Hf |].
              step. erewrite bind_Ok by (apply execute_insert_ok; exact Hf).
              step. apply commit_ok. exact Hf. }
         erewrite with_connection_ok; [reflexivity | exact Hf |].
         erewrite bind_Ok by (apply read_chat_id_ok; reflexivity).
         erewrite bind_Ok by (apply execute_ok; exact Hf).
         erewrite bind_Ok.
         2: { apply try_except_ok. step.
              cbn [current_document st set_conn set_st set_chat_history
                   set_ticks set_db set_chat_id].
              rewrite Hd. reflexivity. }
         apply commit_ok. exact Hf. }
    cbn. repeat split. exact Hf.
Qed.

Lemma update_session_document_ids path uname dname chat (d : DB) :
  map s_id (chat_sessions (update_session_document path uname dname chat d))
  = map s_id (chat_sessions d).
Proof.
  cbn. induction (chat_sessions d) as [| s l IH]; cbn; [reflexivity |].
  rewrite IH. destruct (s_id s =? chat); reflexivity.
Qed.

Lemma appended_db_ids (sid : Z) (en : chat_entry) (cd : option document)
    (d : DB) :
  map s_id (chat_sessions (appended_db sid en cd d))
  = map s_id (chat_sessions d).
Proof.
  unfold appended_db. destruct cd; [| reflexivity].
  rewrite update_session_document_ids. reflexivity.
Qed.

Lemma appended_db_fk (sid : Z) (en : chat_entry) (cd : option document)
    (d : DB) :
  fk_holds d ->
  In sid (map s_id (chat_sessions d)) ->
  fk_holds (appended_db sid en cd d).
Proof.
  intros Hfk Hin m Hm. rewrite appended_db_ids.
  rewrite appended_db_messages in Hm. apply in_app_or in Hm.
  destruct Hm as [Hm | [<- | []]]; [apply Hfk; exact Hm | exact Hin].
Qed.

(** While the storage does not fail, a message is always stored under a
    session that exists: the current one, or one created for it. *)
Lemma add_to_chat_history_keeps_foreign_key (w : World) q a rt doc :
  faults w = [] ->
  fk_holds (db w) ->
  (forall sid, chat_id (st w) = PyInt sid ->
               In sid (map s_id (chat_sessions (db w)))) ->
  let w' := exec (add_to_chat_history q a rt doc) w in
  fk_holds (db w') /\
  exists sid, chat_id (st w') = PyInt sid /\
              In sid (map s_id (chat_sessions (db w'))).
Proof.
  intros Hf Hfk Hcur. cbn zeta.
  destruct (chat_id (st w)) as [| | sid] eqn:Hc.
  - destruct (add_to_chat_history_creates_session w q a rt doc Hf)
      as [Hd [Hid _]]; [unfold get_chat_id; rewrite Hc; reflexivity |].
    rewrite Hd. split.
    + apply appended_db_fk.
      * intros m Hm. cbn. rewrite map_app. apply in_or_app. left.
        apply Hfk. exact Hm.
      * cbn. rewrite map_app. apply in_or_app. right. left. reflexivity.
    + eexists. split; [exact Hid |]. rewrite appended_db_ids.
      cbn. rewrite map_app. apply in_or_app. right. left. reflexivity.
  - destruct (add_to_chat_history_creates_session w q a rt doc Hf)
      as [Hd [Hid _]]; [unfold get_chat_id; rewrite Hc; reflexivity |].
    rewrite Hd. split.
    + apply appended_db_fk.
      * intros m Hm. cbn. rewrite map_app. apply in_or_app. left.
        apply Hfk. exact Hm.
      * cbn. rewrite map_app. apply in_or_app. right. left. reflexivity.
    + eexists. split; [exact Hid |]. rewrite appended_db_ids.
      cbn. rewrite map_app. apply in_or_app. right. left. reflexivity.
  - pose proof (add_to_chat_history_ok w sid q a rt doc Hf Hc) as Hrun.
    cbn zeta in Hrun. unfold exec. rewrite Hrun. cbn [snd db set_db].
    split.
    + apply appended_db_fk; [exact Hfk | apply Hcur; reflexivity].
    + exists sid. cbn [st set_db set_conn set_st chat_id set_chat_history].
      split; [exact Hc |]. rewrite appended_db_ids. apply Hcur. reflexivity.
Qed.

(** C10.  The invariant does not hold after every operation.  In the first
    turn the commit of the transaction that creates the session fails: the
    INSERT is rolled back, but [st.session_state.chat_id] was assigned
    before the commit and keeps the id of the row that is gone.  The second
    turn finds a chat id, creates no session, and commits a message under
    that id: a message row whose session does not exist. *)
Theorem message_without_session :
  chat_id (st failed_session_commit) = PyInt 1 /\
  db failed_session_commit = empty_db /\
  chat_sessions (db after_failed_session_commit) = [] /\
  map m_chat_id (chat_messages (db after_failed_session_commit)) = [1] /\
  ~ fk_holds (db after_failed_session_commit).
Proof.
  assert (Hs : chat_sessions (db after_failed_session_commit) = [])
    by (vm_compute; reflexivity).
  assert (Hm : map m_chat_id (chat_messages (db after_failed_session_commit))
               = [1]) by (vm_compute; reflexivity).
  split; [vm_compute; reflexivity |]. split; [vm_compute; reflexivity |].
  split; [exact Hs |]. split; [exact Hm |].
  intros Hfk. unfold fk_holds in Hfk. rewrite Hs in Hfk.
  destruct (chat_messages (db after_failed_session_commit)) as [| m l];
    [discriminate |].
  exact (Hfk m (or_introl eq_refl)).
Qed.


(** * Further properties of the code *)

(** ** Reading the store *)

(** A read: one query in a connection, the rows turned into a value, and a
    default when anything raises. *)
Lemma read_triple {R A} (q : DB -> R) (k : R -> M A) (f : R -> A)
    (msg : exn -> message) (dflt : A) (d : DB)
    (rl : list (string * message)) :
  (forall r x, k r x = (Ok (f r), x)) ->
  triple (fun x => db x = d /\ root_log x = rl)
    (try_except (with_connection (rows <- execute_query q ;; k rows))
       (fun e => logging_error (msg e) ;; ret dflt))
    (fun a x =>
       db x = d /\
       ((a = f (q d) /\ root_log x = rl)
        \/ (a = dflt /\ exists e, root_log x = rl ++ [("ERROR", msg e)])))
    (fun _ _ => False).
Proof.
  intros Hk.
  apply triple_try_except
    with (E' := fun e x => is_Exception e = true /\ db x = d /\ root_log x = rl).
  - apply triple_with_connection
      with (P1 := fun x => db x = d /\ conn x = d /\ root_log x = rl).
    { apply triple_connect; side. }
    apply triple_bind
      with (R := fun rows x =>
                   (db x = d /\ conn x = d /\ root_log x = rl) /\ rows = q d).
    { apply triple_execute_query; side. }
    intros rows x [[H1 [H2 H3]] ->]. rewrite Hk. cbn.
    split; [exact H2 |]. left. split; [reflexivity | exact H3].
  - intros e He.
    apply triple_bind
      with (R := fun _ x => db x = d /\ root_log x = rl ++ [("ERROR", msg e)]).
    + apply triple_modify. intros x [_ [H1 H2]]. cbn. rewrite H2.
      split; [exact H1 | reflexivity].
    + intros _. apply triple_ret. intros x [H1 H2].
      split; [exact H1 |]. right. split; [reflexivity |]. exists e. exact H2.
  - intros e x He [He' _]. congruence.
Qed.

(** X1.  [get_chat_messages] never raises and writes neither the database
    nor the session state.  It returns the rows of the session, in the order
    of their ids; or, when the storage fails, the empty list, with the
    failure logged: a caller cannot tell a failed read from a chat without
    messages. *)
Theorem get_chat_messages_reads_or_gives_nothing (w : World) (chat : Z) :
  let w' := exec (get_chat_messages chat) w in
  exists l,
    outcome (get_chat_messages chat) w = Ok l /\
    db w' = db w /\ st w' = st w /\
    ((l = map message_dict (select_messages chat (db w))
      /\ root_log w' = root_log w)
     \/ (l = [] /\ exists e,
           root_log w'
           = root_log w
             ++ [("ERROR", Fmt "Failed to fetch chat messages: {}" [FExn e])])).
Proof.
  cbn zeta.
  destruct (triple_returns _ _ _ w
              (read_triple (select_messages chat)
                 (fun rows => ret (map message_dict rows))
                 (map message_dict)
                 (fun e => Fmt "Failed to fetch chat messages: {}" [FExn e])
                 [] (db w) (root_log w) (fun r x => eq_refl))
              (conj eq_refl eq_refl)) as [l [Hl [Hd Hr]]].
  exists l. split; [exact Hl |]. split; [exact Hd |]. split; [| exact Hr].
  assert (K : keeps st (get_chat_messages chat))
    by (unfold get_chat_messages; keeps_tac).
  exact (K w).
Qed.

(** X2.  [get_chat_sessions] never raises and writes neither the database
    nor the session state.  It returns one summary per session row, newest
    first; or, when the storage fails, the empty list, with the failure
    logged. *)
Theorem get_chat_sessions_reads_or_gives_nothing (w : World) :
  let w' := exec get_chat_sessions w in
  exists l,
    outcome get_chat_sessions w = Ok l /\
    db w' = db w /\ st w' = st w /\
    ((l = map session_dict (select_sessions (db w))
      /\ root_log w' = root_log w)
     \/ (l = [] /\ exists e,
           root_log w'
           = root_log w
             ++ [("ERROR", Fmt "Failed to fetch chat sessions: {}" [FExn e])])).
Proof.
  cbn zeta.
  destruct (triple_returns _ _ _ w
              (read_triple select_sessions
                 (fun rows => ret (map session_dict rows))
                 (map session_dict)
                 (fun e => Fmt "Failed to fetch chat sessions: {}" [FExn e])
                 [] (db w) (root_log w) (fun r x => eq_refl))
              (conj eq_refl eq_refl)) as [l [Hl [Hd Hr]]].
  exists l. split; [exact Hl |]. split; [exact Hd |]. split; [| exact Hr].
  assert (K : keeps st get_chat_sessions)
    by (unfold get_chat_sessions; keeps_tac).
  exact (K w).
Qed.

(** X3.  [get_chat_metadata] never raises and writes neither the database
    nor the session state.  It returns the three document fields of the
    session row, or [None] when no row has the id; when the storage fails
    it also returns [None], with the failure logged. *)
Theorem get_chat_metadata_reads_or_gives_nothing (w : World) (chat : Z) :
  let w' := exec (get_chat_metadata chat) w in
  exists meta,
    outcome (get_chat_metadata chat) w = Ok meta /\
    db w' = db w /\ st w' = st w /\
    ((meta = option_map metadata_dict (select_metadata chat (db w))
      /\ root_log w' = root_log w)
     \/ (meta = None /\ exists e,
           root_log w'
           = root_log w
             ++ [("ERROR", Fmt "Failed to fetch chat metadata: {}" [FExn e])])).
Proof.
  cbn zeta.
  destruct (triple_returns _ _ _ w
              (read_triple (select_metadata chat)
                 (fun row => match row with
                             | None => ret None
                             | Some r => ret (Some (metadata_dict r))
                             end)
                 (option_map metadata_dict)
                 (fun e => Fmt "Failed to fetch chat metadata: {}" [FExn e])
                 None (db w) (root_log w)
                 (fun r x => match r with
                             | Some _ => eq_refl
                             | None => eq_refl
                             end))
              (conj eq_refl eq_refl)) as [l [Hl [Hd Hr]]].
  exists l. split; [exact Hl |]. split; [exact Hd |]. split; [| exact Hr].
  exact (get_chat_metadata_keeps_st chat w).
Qed.

(** ** Saving an upload *)




Lemma find_app_some {A} (f : A -> bool) (l l' : list A) (x : A) :
  find f l = Some x -> find f (l ++ l') = Some x.
Proof.
  induction l as [| y l IH]; cbn; [discriminate |].
  destruct (f y); [trivial | exact IH].
Qed.

Lemma find_name_some (files : list (string * bytes)) (name : string) :
  In name (map fst files) ->
  exists x, find (fun f => String.eqb (upload_path (fst f)) (upload_path name))
                 files = Some x.
Proof.
  induction files as [| [n c] files IH]; cbn -[upload_path]; [tauto |].
  intros [H | H].
  - subst n. rewrite upload_path_eqb, String.eqb_refl. eexists; reflexivity.
  - destruct (String.eqb (upload_path n) (upload_path name));
      [eexists; reflexivity | exact (IH H)].
Qed.

(** The first save of a name into a missing directory: the directory is
    made and the file is its only one. *)
Lemma save_uploaded_file_no_directory (w : World) (up : upload) :
  upload_dir w = None ->
  faults w = [] ->
  let unique := unique_filename_at w up in
  outcome (save_uploaded_file up) w
  = Ok (Some (upload_path unique), Some unique) /\
  upload_dir (exec (save_uploaded_file up) w)
  = Some [(unique, up_bytes up)].
Proof.
  destruct w as [d c u s ck tk f rl ue bs sv mc qb]. cbn [upload_dir faults].
  intros -> ->. split; reflexivity.
Qed.

(** X5.  A first save can be read back.  When the storage does not fail and
    no stored name starts with the stem of the uploaded name and an
    underscore, [save_uploaded_file] returns the path of a new file named
    stem, underscore, date stamp, extension, in a directory it makes if
    need be; reading that path gives the uploaded bytes, and every file
    stored before reads as before. *)
Theorem save_uploaded_file_round_trip (w : World) (up : upload) :
  faults w = [] ->
  find (same_base_name up) (map fst (stored_files w)) = None ->
  let unique := unique_filename_at w up in
  let w' := exec (save_uploaded_file up) w in
  outcome (save_uploaded_file up) w
  = Ok (Some (upload_path unique), Some unique) /\
  read_path (upload_path unique) w' = Some (up_bytes up) /\
  forall name,
    In name (map fst (stored_files w)) ->
    read_path (upload_path name) w' = read_path (upload_path name) w.
Proof.
  intros Hf Hfind unique w'. unfold stored_files in *.
  destruct (upload_dir w) as [files |] eqn:Hd.
  - destruct (save_uploaded_file_first w up files Hd Hf Hfind)
      as [Ho [Hu [_ Hnew]]].
    split; [exact Ho |]. split.
    + apply read_path_last with (files := files); assumption.
    + intros name Hin. unfold read_path. fold w'. unfold w'.
      rewrite Hu, Hd.
      destruct (find_name_some files name Hin) as [x Hx].
      rewrite (find_app_some _ _ _ _ Hx), Hx. reflexivity.
  - destruct (save_uploaded_file_no_directory w up Hd Hf) as [Ho Hu].
    split; [exact Ho |]. split.
    + unfold read_path, w'. rewrite Hu. cbn -[upload_path].
      rewrite upload_path_eqb, String.eqb_refl. reflexivity.
    + intros name [].
Qed.

Lemma save_uploaded_file_round_trip_witness :
  read_path "./processed_docs/report_20261103.txt"
    (exec (save_uploaded_file report_txt) fresh_world)
  = Some (up_bytes report_txt).
Proof.
  apply (save_uploaded_file_round_trip fresh_world report_txt);
    reflexivity.
Defined.

(** ** Path names *)

Lemma substring_all (s : string) : substring 0 (String.length s) s = s.
Proof.
  induction s as [| c s IH]; cbn; [reflexivity | f_equal; exact IH].
Qed.

Lemma substring_split (s : string) (i : nat) :
  (i <= String.length s)%nat ->
  (substring 0 i s ++ substring i (String.length s - i) s)%string = s.
Proof.
  revert i. induction s as [| c s IH]; intros i Hi.
  - destruct i; reflexivity.
  - destruct i as [| i].
    + cbn [substring String.append]. cbn [String.length Nat.sub].
      f_equal. apply substring_all.
    + cbn [substring String.append String.length Nat.sub]. f_equal.
      apply IH. cbn in Hi. lia.
Qed.

Lemma rfind_dot_bound (s : string) (i : nat) :
  rfind_dot s = Some i -> (i < String.length s)%nat.
Proof.
  revert i. induction s as [| c s IH]; cbn; intros i H; [discriminate |].
  destruct (rfind_dot s) as [j |].
  - injection H as <-. specialize (IH j eq_refl). lia.
  - destruct (Ascii.eqb c "."); [injection H as <-; lia | discriminate].
Qed.

Lemma rfind_dot_suffix (s : string) (i : nat) :
  rfind_dot s = Some i ->
  exists rest,
    substring i (String.length s - i) s = String "."%char rest /\
    rfind_dot rest = None /\
    String.length s = (i + S (String.length rest))%nat.
Proof.
  revert i. induction s as [| c s IH]; cbn [rfind_dot]; intros i H;
    [discriminate |].
  destruct (rfind_dot s) as [j |] eqn:E.
  - injection H as <-. destruct (IH j eq_refl) as [rest [H1 [H2 H3]]].
    exists rest. cbn [substring String.length Nat.sub].
    repeat split; [assumption | assumption | lia].
  - destruct (Ascii.eqb c ".") eqn:Ec; [| discriminate].
    injection H as <-. apply Ascii.eqb_eq in Ec. subst c.
    exists s. cbn [String.length Nat.sub substring].
    repeat split; [| exact E]. f_equal. apply substring_all.
Qed.

(** X6.  Stem and suffix cut the file name in two: [Path(p).stem]
    followed by [Path(p).suffix] is [Path(p).name].  The suffix is empty,
    or it is a dot followed by at least one character, none of them a dot;
    the stem of a name that is not empty is not empty. *)
Theorem path_stem_suffix (p : string) :
  (path_stem p ++ path_suffix p)%string = path_name p /\
  (path_suffix p = ""
   \/ exists c rest,
        path_suffix p = String "."%char (String c rest) /\
        rfind_dot (String c rest) = None) /\
  (path_name p <> "" -> path_stem p <> "").
Proof.
  unfold path_stem, path_suffix.
  destruct (rfind_dot (path_name p)) as [i |] eqn:E.
  - pose proof (rfind_dot_bound _ _ E) as Hb.
    destruct ((0 <? i)%nat && (i <? String.length (path_name p) - 1)%nat)
      eqn:C.
    + apply andb_prop in C. destruct C as [C1 C2].
      apply Nat.ltb_lt in C1, C2.
      split; [apply substring_split; lia |]. split.
      * right. destruct (rfind_dot_suffix _ _ E) as [rest [H1 [H2 H3]]].
        rewrite H1. destruct rest as [| c rest].
        -- exfalso. cbn in H3. lia.
        -- exists c, rest. split; [reflexivity | exact H2].
      * intros _ K.
        destruct (path_name p) as [| c s]; [cbn in Hb; lia |].
        destruct i; [lia | discriminate].
    + split; [| split; [left; reflexivity | trivial]].
      clear. induction (path_name p) as [| c s IH]; cbn; [reflexivity |].
      f_equal. exact IH.
  - split; [| split; [left; reflexivity | trivial]].
    clear. induction (path_name p) as [| c s IH]; cbn; [reflexivity |].
    f_equal. exact IH.
Qed.

Lemma path_stem_suffix_witness :
  path_name "a/report.v2.txt" <> "" /\ path_stem "a/report.v2.txt" <> "".
Proof.
  split; [discriminate |].
  apply (proj2 (proj2 (path_stem_suffix "a/report.v2.txt"))). discriminate.
Defined.

(** ** The fingerprint *)

Lemma le_bytes_length (n : nat) (x : Z) : List.length (MD5.le_bytes n x) = n.
Proof.
  revert x. induction n as [| n IH]; intros x; cbn; [reflexivity |].
  rewrite IH. reflexivity.
Qed.

Lemma le_bytes_range (n : nat) (x : Z) :
  Forall (fun b => 0 <= b < 256) (MD5.le_bytes n x).
Proof.
  revert x. induction n as [| n IH]; intros x; cbn; constructor.
  - apply Z.mod_pos_bound. lia.
  - apply IH.
Qed.

Lemma hex_digit_lower (x : Z) :
  0 <= x < 16 -> is_lower_hex (MD5.hex_digit x) = true.
Proof.
  intros H. unfold MD5.hex_digit.
  assert (K : (Z.to_nat x < 16)%nat) by lia.
  revert K. generalize (Z.to_nat x) as k. intros k K.
  do 16 (destruct k as [| k]; [reflexivity |]). lia.
Qed.

Lemma hex_spec (bs : list Z) :
  Forall (fun b => 0 <= b < 256) bs ->
  String.length (MD5.hex bs) = (2 * List.length bs)%nat /\
  string_forall is_lower_hex (MD5.hex bs) = true.
Proof.
  induction 1 as [| b bs Hb _ [IH1 IH2]]; [split; reflexivity |].
  cbn [MD5.hex String.length List.length string_forall]. split; [lia |].
  rewrite IH2, !hex_digit_lower; [reflexivity | |].
  - apply Z.mod_pos_bound. lia.
  - split; [apply Z.div_pos; lia | apply Z.div_lt_upper_bound; lia].
Qed.

Lemma md5_hexdigest_format (msg : bytes) :
  String.length (MD5.hexdigest msg) = 32%nat /\
  string_forall is_lower_hex (MD5.hexdigest msg) = true.
Proof.
  unfold MD5.hexdigest, MD5.digest.
  destruct (fold_left MD5.compress _ MD5.init) as [[[a b] c] d].
  assert (F : Forall (fun b => 0 <= b < 256)
                (MD5.le_bytes 4 a ++ MD5.le_bytes 4 b
                 ++ MD5.le_bytes 4 c ++ MD5.le_bytes 4 d))
    by (repeat (apply Forall_app; split); apply le_bytes_range).
  destruct (hex_spec _ F) as [H1 H2]. split; [| exact H2].
  rewrite H1, !length_app, !le_bytes_length. reflexivity.
Qed.

(** X7.  The fingerprint of any content is a string of 32 characters, each
    a digit or a letter from [a] to [f]. *)
Theorem get_file_hash_format (file_content : bytes) :
  String.length (get_file_hash file_content) = 32%nat /\
  string_forall is_lower_hex (get_file_hash file_content) = true.
Proof. exact (md5_hexdigest_format file_content). Qed.

(** ** Results under an unchanged view *)

Lemma yields_keeps {X A} (f : World -> X) (x : X) (m : M A) :
  keeps f m -> yields f x m (fun _ => True).
Proof.
  intros H w Hw. specialize (H w). unfold exec in H.
  destruct (m w) as [[a | e] w1]; cbn in H; rewrite H; auto.
Qed.

Lemma yields_ret {X A} (f : World -> X) (x : X) (a : A) (Q : A -> Prop) :
  Q a -> yields f x (ret a) Q.
Proof. intros H w Hw. cbn. auto. Qed.

Lemma yields_raise {X A} (f : World -> X) (x : X) (e : exn) (Q : A -> Prop) :
  yields f x (raise e) Q.
Proof. intros w Hw. exact Hw. Qed.

Lemma yields_gets {X A} (f : World -> X) (x : X) (g : World -> A)
    (Q : A -> Prop) :
  (forall w, f w = x -> Q (g w)) -> yields f x (gets g) Q.
Proof. intros H w Hw. cbn. auto. Qed.

Lemma yields_bind {X A B} (f : World -> X) (x : X) (m : M A) (k : A -> M B)
    (Q1 : A -> Prop) (Q : B -> Prop) :
  yields f x m Q1 ->
  (forall a, Q1 a -> yields f x (k a) Q) ->
  yields f x (a <- m ;; k a) Q.
Proof.
  intros Hm Hk w Hw. unfold bind. specialize (Hm w Hw).
  destruct (m w) as [[a | e] w1]; [| exact Hm].
  destruct Hm as [H1 H2]. exact (Hk a H2 w1 H1).
Qed.

Lemma yields_try_except {X A} (f : World -> X) (x : X) (body : M A)
    (handler : exn -> M A) (Q : A -> Prop) :
  yields f x body Q ->
  (forall e, yields f x (handler e) Q) ->
  yields f x (try_except body handler) Q.
Proof.
  intros Hb Hh w Hw. unfold try_except. specialize (Hb w Hw).
  destruct (body w) as [[a | e] w1]; [exact Hb |].
  destruct (is_Exception e); [exact (Hh e w1 Hb) | exact Hb].
Qed.

Lemma yields_conseq {X A} (f : World -> X) (x : X) (m : M A)
    (Q Q' : A -> Prop) :
  yields f x m Q' -> (forall a, Q' a -> Q a) -> yields f x m Q.
Proof.
  intros H HQ w Hw. specialize (H w Hw).
  destruct (m w) as [[a | e] w1]; [| exact H].
  destruct H as [H1 H2]. auto.
Qed.

Lemma yields_run {X A} (f : World -> X) (m : M A) (Q : A -> Prop)
    (w : World) (a : A) :
  yields f (f w) m Q -> outcome m w = Ok a -> Q a /\ f (exec m w) = f w.
Proof.
  intros H Ho. specialize (H w eq_refl). unfold outcome, exec in *.
  destruct (m w) as [[b | e] w1]; [| discriminate].
  cbn in Ho. injection Ho as ->. tauto.
Qed.

(** A step that only logs. *)
Ltac yields_skip :=
  eapply yields_bind with (Q1 := fun _ => True);
  [apply yields_keeps; keeps_tac | intros ? _].

(** ** Building an index *)

Lemma read_path_view (p : string) (w w0 : World) :
  file_view w = file_view w0 -> read_path p w = read_path p w0.
Proof. unfold file_view, read_path. intros [= -> _]. reflexivity. Qed.

Lemma services_view (w w0 : World) :
  file_view w = file_view w0 -> services w = services w0.
Proof. unfold file_view. intros [= _ ->]. reflexivity. Qed.

Lemma loader_load_yields (w0 : World) (kind : loader) (content : bytes) :
  yields file_view (file_view w0) (loader_load kind content)
    (fun docs => docs = loaded (services w0) kind content).
Proof.
  unfold loader_load. yields_skip.
  eapply yields_bind
    with (Q1 := fun svc => svc = services w0).
  - apply yields_gets. intros w Hw. apply services_view. exact Hw.
  - intros svc ->. apply yields_ret. reflexivity.
Qed.

(** What [ingest_docs] returns: the documents the loader chosen by the
    extension gives for the file at the path. *)
Lemma ingest_docs_yields (w0 : World) (doc_path : string) :
  yields file_view (file_view w0) (ingest_docs doc_path)
    (fun r =>
       forall docs, r = Some docs ->
         exists content,
           read_path doc_path w0 = Some content /\
           docs = loaded (services w0) (chosen_loader doc_path) content).
Proof.
  unfold ingest_docs. yields_skip.
  eapply yields_bind with (Q1 := fun file => file = read_path doc_path w0).
  { apply yields_gets. intros w Hw. apply read_path_view. exact Hw. }
  intros file ->.
  destruct (read_path doc_path w0) as [content |].
  2: { yields_skip. yields_skip. apply yields_ret. discriminate. }
  cbv zeta. unfold chosen_loader.
  apply yields_try_except.
  2: { intros e. yields_skip. yields_skip. apply yields_ret. discriminate. }
  destruct (String.eqb (lower (splitext_ext doc_path)) ".pdf");
    [| destruct (String.eqb (lower (splitext_ext doc_path)) ".csv");
       [| destruct (String.eqb (lower (splitext_ext doc_path)) ".json"
                    || String.eqb (lower (splitext_ext doc_path)) ".txt")]];
    (yields_skip;
     eapply yields_bind; [apply loader_load_yields |];
     intros docs ->; yields_skip; apply yields_ret;
     intros ? [= <-]; exists content; split; reflexivity).
Qed.

Lemma length_substring (s : string) (n m : nat) :
  (n + m <= String.length s)%nat -> String.length (substring n m s) = m.
Proof.
  revert n m. induction s as [| c s IH]; intros n m H; cbn in H.
  - assert (n = 0%nat) by lia. assert (m = 0%nat) by lia. subst. reflexivity.
  - destruct n as [| n]; destruct m as [| m]; cbn; try reflexivity.
    + rewrite (IH 0%nat m); [reflexivity | lia].
    + apply IH. lia.
    + apply IH. lia.
Qed.

Lemma create_vector_db_from_document_yields (w0 : World) (doc_path : string) :
  yields file_view (file_view w0) (create_vector_db_from_document doc_path)
    (fun r =>
       forall v, r = Some v ->
         exists content,
           read_path doc_path w0 = Some content /\
           collection_name v
           = ("doc_" ++ substring 0 8 (get_file_hash content))%string /\
           chunks v
           = split_text (services w0)
               (loaded (services w0) (chosen_loader doc_path) content)).
Proof.
  unfold create_vector_db_from_document.
  yields_skip. yields_skip. yields_skip.
  eapply yields_bind with (Q1 := fun _ => True).
  { apply yields_keeps. keeps_tac. }
  intros pulled _. destruct pulled; cbn [negb];
    [| apply yields_ret; discriminate].
  eapply yields_bind; [apply ingest_docs_yields |].
  intros data Hdata. destruct data as [docs |];
    [| apply yields_ret; discriminate].
  destruct (Hdata docs eq_refl) as [content [Hc ->]].
  unfold split_documents.
  eapply yields_bind
    with (Q1 := fun chunks =>
                  chunks = split_text (services w0)
                             (loaded (services w0) (chosen_loader doc_path)
                                content)).
  { yields_skip.
    eapply yields_bind with (Q1 := fun svc => svc = services w0).
    { apply yields_gets. intros w Hw. apply services_view. exact Hw. }
    intros svc ->. cbv zeta. yields_skip. apply yields_ret. reflexivity. }
  intros chunks ->. yields_skip.
  apply yields_try_except.
  2: { intros e. yields_skip. apply yields_ret. discriminate. }
  yields_skip.
  eapply yields_bind with (Q1 := fun file => file = read_path doc_path w0).
  { apply yields_gets. intros w Hw. apply read_path_view. exact Hw. }
  intros file ->. rewrite Hc. cbv zeta.
  yields_skip. yields_skip. apply yields_ret.
  intros v [= <-]. exists content. repeat split.
Qed.

(** X8.  An index that [create_vector_db_from_document] returns was built
    from the file at the path: the file exists, the collection is named
    [doc_] followed by the first eight characters of the fingerprint of its
    content, twelve characters in all, and the chunks are the split of what
    the loader chosen by the extension read from that content.  The upload
    directory is as before. *)
Theorem create_vector_db_from_document_result (w : World) (doc_path : string)
    (v : VectorDB) :
  outcome (create_vector_db_from_document doc_path) w = Ok (Some v) ->
  exists content,
    read_path doc_path w = Some content /\
    collection_name v
    = ("doc_" ++ substring 0 8 (get_file_hash content))%string /\
    String.length (collection_name v) = 12%nat /\
    chunks v
    = split_text (services w)
        (loaded (services w) (chosen_loader doc_path) content) /\
    upload_dir (exec (create_vector_db_from_document doc_path) w)
    = upload_dir w.
Proof.
  intros Ho.
  destruct (yields_run file_view _ _ w (Some v)
              (create_vector_db_from_document_yields w doc_path) Ho)
    as [H Hv].
  destruct (H v eq_refl) as [content [H1 [H2 H3]]].
  exists content. split; [exact H1 |]. split; [exact H2 |].
  split; [| split; [exact H3 |]].
  - rewrite H2. cbn [String.append String.length]. rewrite length_substring.
    + reflexivity.
    + unfold get_file_hash.
      rewrite (proj1 (md5_hexdigest_format content)). cbn. lia.
  - unfold file_view in Hv. congruence.
Qed.

Lemma create_vector_db_from_document_result_witness :
  exists content,
    read_path "./processed_docs/report_20261103.txt" after_first_question
    = Some content /\
    collection_name {| collection_name := "doc_3a3dfe43";
                       chunks := ["total: 42"] |}
    = ("doc_" ++ substring 0 8 (get_file_hash content))%string /\
    String.length "doc_3a3dfe43" = 12%nat /\
    ["total: 42"]
    = split_text (services after_first_question)
        (loaded (services after_first_question)
           (chosen_loader "./processed_docs/report_20261103.txt") content) /\
    upload_dir
      (exec (create_vector_db_from_document
               "./processed_docs/report_20261103.txt") after_first_question)
    = upload_dir after_first_question.
Proof.
  apply (create_vector_db_from_document_result after_first_question
           "./processed_docs/report_20261103.txt"
           {| collection_name := "doc_3a3dfe43"; chunks := ["total: 42"] |}).
  vm_compute. reflexivity.
Defined.

(** ** Answering a question *)

Lemma returns_time_time : returns time_time.
Proof. intros w. eexists. reflexivity. Qed.

(** Syntax-directed proofs that a computation returns, or raises nothing
    but [Exception]s. *)
Ltac returns_step :=
  lazymatch goal with
  | |- returns (add_to_chat_history _ _ _ _) =>
      apply add_to_chat_history_returns
  | |- returns (bind _ _) => apply returns_bind; [| intros ?]
  | |- returns (try_except _ _) => apply returns_try_except; [| intros ?]
  | |- returns (ret _) => apply returns_ret
  | |- returns (gets _) => apply returns_gets
  | |- returns (modify _) => apply returns_modify
  | |- returns (modify_st _) => apply returns_modify
  | |- returns datetime_now => apply returns_datetime_now
  | |- returns time_time => apply returns_time_time
  | |- returns (logging_error _) => apply returns_modify
  | |- returns (logging_info _) => apply returns_modify
  | |- returns (st_error _) => apply returns_modify
  | |- returns clear_logs => apply returns_modify
  | |- returns (add_log _ _) => unfold add_log
  | |- returns create_chain => unfold create_chain
  | |- returns preload_model => unfold preload_model
  | |- returns (split_documents _) => unfold split_documents
  | |- returns (ingest_docs _) => unfold ingest_docs
  | |- returns (save_uploaded_file _) => unfold save_uploaded_file
  | |- returns (create_vector_db_from_document _) =>
      unfold create_vector_db_from_document
  | |- returns (match ?x with _ => _ end) => destruct x
  | |- safe (bind _ _) => apply safe_bind; [| intros ?]
  | |- safe (try_except _ _) => apply safe_try_except; [| intros ?]
  | |- safe (fallible _) => apply safe_fallible; reflexivity
  | |- safe (raise _) => apply safe_raise; reflexivity
  | |- safe (with_connection _) => apply safe_with_connection
  | |- safe (match ?x with _ => _ end) => destruct x
  | |- safe (create_fast_retriever _) => unfold create_fast_retriever
  | |- safe (loader_load _ _) => unfold loader_load
  | |- safe makedirs_upload_directory => unfold makedirs_upload_directory
  | |- safe (write_upload _ _) => unfold write_upload
  | |- safe _ => apply returns_safe
  end.

Ltac returns_tac := repeat returns_step.

Lemma process_query_returns (user_input : string) (overall_start : float) :
  returns (process_query user_input overall_start).
Proof. unfold process_query. returns_tac. Qed.

Lemma triple_bind_yields {X A B} (f : World -> X) (x : X) (m : M A)
    (k : A -> M B) (Q1 : A -> Prop) (Q : B -> World -> Prop) :
  yields f x m Q1 ->
  (forall a, Q1 a ->
     triple (fun w => f w = x) (k a) Q (fun _ w => f w = x)) ->
  triple (fun w => f w = x) (a <- m ;; k a) Q (fun _ w => f w = x).
Proof.
  intros Hm Hk.
  apply triple_bind with (R := fun a w => f w = x /\ Q1 a); [exact Hm |].
  intros a w [H1 H2]. exact (Hk a H2 w H1).
Qed.

(** A step that only logs, in front of a computation. *)
Ltac triple_skip :=
  eapply triple_bind_yields with (Q1 := fun _ => True);
  [apply yields_keeps; keeps_tac | intros ? _].

(** The model is there, or it is not and the history is as it was. *)
Lemma preload_model_triple (w0 : World) :
  triple (fun w => ask_view w = ask_view w0) preload_model
    (model_or_report w0)
    (fun _ w => ask_view w = ask_view w0).
Proof.
  unfold preload_model.
  apply triple_bind with (R := fun _ w => ask_view w = ask_view w0);
    [apply triple_gets; auto |].
  intros [[] |].
  - apply triple_ret. auto.
  - apply triple_ret. intros w Hw. unfold ask_view in Hw.
    injection Hw as H1 H2 _ _ _. split; [exact H1 |].
    exists []. rewrite app_nil_r. exact H2.
  - triple_skip.
    apply triple_bind
      with (R := model_or_report w0).
    + apply triple_try_except
        with (E' := fun _ w => ask_view w = ask_view w0).
      * triple_skip. triple_skip. triple_skip. apply triple_ret. auto.
      * intros e _. triple_skip.
        apply triple_bind
          with (R := fun _ => model_or_report w0 false).
        -- apply triple_modify. intros w Hw. unfold ask_view in Hw.
           injection Hw as H1 H2 _ _ _. cbn. split; [exact H1 |].
           eexists. rewrite H2. reflexivity.
        -- intros _. apply triple_ret. auto.
      * intros e w He Hw. exact Hw.
    + intros llm.
      apply triple_bind
        with (R := fun _ => model_or_report w0 llm).
      * apply triple_modify. intros w Hw. destruct llm; exact Hw.
      * intros _. apply triple_ret. auto.
Qed.

Lemma add_to_chat_history_keeps_ui q a rt doc :
  keeps ui_errors (add_to_chat_history q a rt doc).
Proof. unfold add_to_chat_history. keeps_tac. Qed.

Lemma add_to_chat_history_keeps_response q a rt doc :
  keeps (fun w => last_response (st w)) (add_to_chat_history q a rt doc).
Proof. unfold add_to_chat_history. keeps_tac. Qed.

(** The two ends of [process_query]. *)
Lemma process_query_triple (w0 : World) (user_input : string)
    (overall_start : float) :
  triple (fun w => ask_view w = ask_view w0)
    (process_query user_input overall_start)
    (fun _ w =>
       (chat_history (st w) = chat_history (st w0) /\
        exists errs, errs <> [] /\ ui_errors w = ui_errors w0 ++ errs)
       \/ (exists v en,
             vector_db (st w0) = Some v /\
             chat_history (st w) = chat_history (st w0) ++ [en] /\
             e_question en = user_input /\
             e_answer en = answer_for (services w0) v user_input /\
             e_document en = entry_document (current_document (st w0)) /\
             last_response (st w) = Some (e_answer en) /\
             ui_errors w = ui_errors w0))
    (fun _ _ => True).
Proof.
  unfold process_query, create_chain.
  apply triple_try_except with (E' := fun _ w => ask_view w = ask_view w0).
  3: { trivial. }
  2: { intros e _.
       apply triple_bind with (R := fun _ w => ask_view w = ask_view w0).
       { apply triple_conseq
           with (P' := fun w => ask_view w = ask_view w0)
                (Q' := fun _ w => ask_view w = ask_view w0 /\ True)
                (E' := fun _ w => ask_view w = ask_view w0);
           [apply yields_keeps; keeps_tac | auto | tauto | auto]. }
       intros _.
       apply triple_bind
         with (R := fun _ w =>
                      chat_history (st w) = chat_history (st w0) /\
                      exists errs, errs <> [] /\
                                   ui_errors w = ui_errors w0 ++ errs).
       { apply triple_modify. intros w Hw. unfold ask_view in Hw.
         injection Hw as H1 H2 _ _ _. cbn. split; [exact H1 |].
         eexists. split; [| rewrite H2; reflexivity]. discriminate. }
       intros _. apply triple_modify. intros w Hw. left. exact Hw. }
  triple_skip.
  apply triple_bind
    with (R := model_or_report w0);
    [apply preload_model_triple |].
  intros [|]; cbn [negb].
  2: { apply triple_modify. intros w [H1 [errs H2]]. left. cbn.
       split; [exact H1 |]. exists (errs ++ [Fmt "Failed to load the language model" []]).
       split; [destruct errs; discriminate |].
       rewrite H2, app_assoc. reflexivity. }
  triple_skip.
  eapply triple_bind_yields with (Q1 := fun vdb => vdb = vector_db (st w0)).
  { apply yields_gets. intros w Hw. unfold ask_view in Hw. congruence. }
  intros vdb ->. unfold create_fast_retriever.
  eapply triple_bind_yields
    with (Q1 := fun v => vector_db (st w0) = Some v).
  { yields_skip. destruct (vector_db (st w0)) as [v |].
    - yields_skip. apply yields_ret. reflexivity.
    - apply yields_raise. }
  intros v Hv. triple_skip. triple_skip.
  eapply triple_bind_yields with (Q1 := fun svc => svc = services w0).
  { apply yields_gets. intros w Hw. unfold ask_view in Hw. congruence. }
  intros svc ->. cbv zeta.
  triple_skip. triple_skip. triple_skip. triple_skip.
  eapply triple_bind_yields with (Q1 := fun _ => True).
  { apply yields_keeps. keeps_tac. }
  intros response_start _. triple_skip.
  eapply triple_bind_yields with (Q1 := fun _ => True).
  { apply yields_keeps. keeps_tac. }
  intros response_end _.
  eapply triple_bind_yields with (Q1 := fun _ => True).
  { apply yields_keeps. keeps_tac. }
  intros overall_end _. triple_skip. triple_skip.
  fold (answer_for (services w0) v user_input).
  intros w Hw. unfold bind at 1. cbn [modify_st modify].
  unfold bind at 1. cbn [gets].
  match goal with
  | |- match add_to_chat_history ?q ?a ?rt ?doc ?w1 with _ => _ end =>
      pose proof (add_to_chat_history_history w1 q a rt doc) as Hh;
      pose proof (add_to_chat_history_keeps_ui q a rt doc w1) as Hu;
      pose proof (add_to_chat_history_keeps_response q a rt doc w1) as Hr;
      destruct (add_to_chat_history_returns q a rt doc w1) as [[] Ho];
      unfold exec in Hh, Hu, Hr; unfold outcome in Ho;
      destruct (add_to_chat_history q a rt doc w1) as [[[] | e] w'];
        [| discriminate]
  end.
  cbn [snd] in Hh, Hu, Hr. right.
  unfold ask_view in Hw. injection Hw as H1 H2 H3 H4 H5.
  eexists v, _. split; [exact Hv |]. split.
  { rewrite Hh. cbn. rewrite H1. reflexivity. }
  cbn. rewrite H5. repeat split; [exact Hr | rewrite Hu; exact H2].
Qed.

(** X9.  [process_query] never raises, and it does one of two things.
    Either it adds exactly one entry to the chat history: the question, the
    answer of the model to the chunks retrieved from the index that was
    there, and the name of the current document (or "Unknown"); the same
    answer becomes the last response and no error is shown.  Or it leaves
    the chat history as it was and shows at least one error.  Without an
    index it is always the second. *)
Theorem process_query_answers_or_reports (w : World) (user_input : string)
    (overall_start : float) :
  let w' := exec (process_query user_input overall_start) w in
  outcome (process_query user_input overall_start) w = Ok tt /\
  ((chat_history (st w') = chat_history (st w) /\
    exists errs, errs <> [] /\ ui_errors w' = ui_errors w ++ errs)
   \/ (exists v en,
         vector_db (st w) = Some v /\
         chat_history (st w') = chat_history (st w) ++ [en] /\
         e_question en = user_input /\
         e_answer en = answer_for (services w) v user_input /\
         e_document en = entry_document (current_document (st w)) /\
         last_response (st w') = Some (e_answer en) /\
         ui_errors w' = ui_errors w)).
Proof.
  cbn zeta.
  destruct (process_query_returns user_input overall_start w) as [[] Ho].
  split; [exact Ho |].
  pose proof (triple_run _ _ _ _ w
                (process_query_triple w user_input overall_start) eq_refl)
    as H.
  rewrite Ho in H. exact H.
Qed.




(** ** A turn *)

Lemma process_query_with_document_returns (q : string) (up : upload) :
  returns (process_query_with_document q up).
Proof.
  unfold process_query_with_document.
  apply returns_bind; [apply returns_gets | intros h].
  destruct (negb _).
  - apply returns_bind; [apply returns_modify | intros _].
    apply returns_bind; [unfold add_log; returns_tac | intros _].
    apply returns_try_except.
    + apply safe_bind; [apply returns_safe, returns_time_time | intros t].
      apply safe_bind; [apply returns_safe; returns_tac | intros [[p |] n]].
      * apply returns_safe.
        apply returns_bind; [apply returns_modify | intros _].
        apply returns_bind; [apply returns_modify | intros _].
        apply returns_bind; [returns_tac | intros [v |]].
        -- apply returns_bind; [apply returns_modify | intros _].
           apply returns_bind; [apply returns_modify | intros _].
           apply process_query_returns.
        -- apply returns_modify.
      * apply returns_safe, returns_modify.
    + intros e. returns_tac.
  - apply returns_bind; [apply returns_gets | intros [v |]].
    + apply returns_bind; [apply returns_time_time | intros t].
      apply process_query_returns.
    + apply returns_ret.
Qed.

(** X11.  A question, with or without an upload, never raises to the page:
    [handle_turn] returns for every state and every failure of the
    environment.  With an empty question, or with neither an upload nor an
    index, it changes nothing at all. *)
Theorem handle_turn_returns (w : World) (user_input : string)
    (uploaded_file : option upload) :
  outcome (handle_turn user_input uploaded_file) w = Ok tt /\
  (user_input = "" \/ (uploaded_file = None /\ vector_db (st w) = None) ->
   exec (handle_turn user_input uploaded_file) w = w).
Proof.
  split.
  - assert (R : returns (handle_turn user_input uploaded_file)).
    { unfold handle_turn. destruct uploaded_file as [f |].
      - destruct (String.eqb user_input "");
          [apply returns_ret | apply process_query_with_document_returns].
      - apply returns_bind; [apply returns_gets | intros [v |]].
        + destruct (String.eqb user_input ""); [apply returns_ret |].
          apply returns_bind; [apply returns_time_time | intros t].
          apply process_query_returns.
        + apply returns_ret. }
    destruct (R w) as [[] H]. exact H.
  - unfold exec, handle_turn, bind, gets.
    intros [-> | [-> Hv]].
    + destruct uploaded_file; [reflexivity |].
      destruct (vector_db (st w)); reflexivity.
    + rewrite Hv. reflexivity.
Qed.

Lemma handle_turn_returns_witness :
  exec (handle_turn "What is the total?" None) fresh_world = fresh_world.
Proof.
  apply (handle_turn_returns fresh_world "What is the total?" None).
  right. split; reflexivity.
Defined.

(** The world in which [process_query_with_document] saves the upload. *)
Lemma process_query_with_document_run_save (w : World) q up r :
  current_doc_hash (st w) <> Some (get_file_hash (up_bytes up)) ->
  save_step up w = Ok (None, r) ->
  exists w_s,
    index_view w_s = index_view w /\
    chat_history (st w_s) = chat_history (st w) /\
    db w_s = db w /\ ui_errors w_s = ui_errors w /\
    process_query_with_document q up w
    = (Ok tt,
       exec (st_error (Fmt "Failed to save uploaded file" []))
         (exec (save_uploaded_file up) w_s)).
Proof.
  intros Hne Hs. unfold save_step in Hs.
  match type of Hs with
  | outcome _ ?x = _ => exists x
  end.
  repeat split.
  unfold process_query_with_document. step. cbn beta.
  rewrite (hash_differs _ _ Hne). cbn [negb].
  step. erewrite bind_Ok by apply add_log_run.
  erewrite try_except_ok; [reflexivity |].
  step. erewrite bind_Ok by (apply run_Ok; exact Hs). reflexivity.
Qed.

Lemma save_uploaded_file_keeps_history up :
  keeps (fun w => chat_history (st w)) (save_uploaded_file up).
Proof. unfold save_uploaded_file. keeps_tac. Qed.

Lemma save_uploaded_file_keeps_db up : keeps db (save_uploaded_file up).
Proof. unfold save_uploaded_file. keeps_tac. Qed.

Lemma save_uploaded_file_keeps_ui up : keeps ui_errors (save_uploaded_file up).
Proof. unfold save_uploaded_file. keeps_tac. Qed.

(** X12.  When the upload is a new document and saving it fails, the turn
    ends there: it returns, builds no index, keeps the current document,
    its fingerprint and the index, adds nothing to the chat history or the
    database, and shows the one error "Failed to save uploaded file". *)
Theorem process_query_with_document_save_failure (w : World)
    (user_input : string) (uploaded_file : upload) (r : option string) :
  current_doc_hash (st w) <> Some (get_file_hash (up_bytes uploaded_file)) ->
  save_step uploaded_file w = Ok (None, r) ->
  let w' := exec (process_query_with_document user_input uploaded_file) w in
  outcome (process_query_with_document user_input uploaded_file) w = Ok tt /\
  builds w' = builds w /\
  current_document (st w') = current_document (st w) /\
  current_doc_hash (st w') = current_doc_hash (st w) /\
  vector_db (st w') = vector_db (st w) /\
  chat_history (st w') = chat_history (st w) /\
  db w' = db w /\
  ui_errors w' = ui_errors w ++ [Fmt "Failed to save uploaded file" []].
Proof.
  intros Hne Hs.
  destruct (process_query_with_document_run_save w user_input uploaded_file r
              Hne Hs) as [w_s [Hi [Hh [Hd [Hu Hrun]]]]].
  unfold exec at 1, outcome. rewrite Hrun. cbn [fst snd].
  pose proof (save_uploaded_file_keeps_index uploaded_file w_s) as Ki.
  pose proof (save_uploaded_file_keeps_history uploaded_file w_s) as Kh.
  pose proof (save_uploaded_file_keeps_db uploaded_file w_s) as Kd.
  pose proof (save_uploaded_file_keeps_ui uploaded_file w_s) as Ku.
  cbn beta in Kh.
  set (w_f := exec (save_uploaded_file uploaded_file) w_s) in *.
  rewrite Hi in Ki. unfold index_view in Ki. injection Ki as K1 K2 K3 K4.
  unfold exec, st_error, modify. cbn.
  repeat split; congruence.
Qed.

Lemma process_query_with_document_save_failure_witness :
  ui_errors
    (exec (process_query_with_document "What is the total?" report_txt)
       (with_faults [true] fresh_world))
  = [Fmt "Failed to save uploaded file" []].
Proof.
  apply (process_query_with_document_save_failure
           (with_faults [true] fresh_world) "What is the total?" report_txt
           None).
  - vm_compute. discriminate.
  - vm_compute. reflexivity.
Defined.

(** X13.  A build that failed is not tried again for the same file.  The
    fingerprint of a new upload is recorded before its index is built; if
    the turn ends without an index, a second question with the same file
    finds the fingerprint unchanged and does nothing: no build, no answer,
    no message for the user, the world is as it was. *)
Theorem failed_build_is_not_retried (w : World) (q q' : string)
    (up : upload) (p : string) (u : option string) :
  current_doc_hash (st w) <> Some (get_file_hash (up_bytes up)) ->
  save_step up w = Ok (Some p, u) ->
  let w1 := exec (process_query_with_document q up) w in
  vector_db (st w1) = None ->
  process_query_with_document q' up w1 = (Ok tt, w1).
Proof.
  intros Hne Hs w1 Hv.
  destruct (process_query_with_document_new w q up p u Hne Hs)
    as [_ [Hh _]].
  fold w1 in Hh.
  unfold process_query_with_document. step. cbn beta.
  rewrite Hh, hash_equal. cbn [negb]. step. cbn beta.
  rewrite Hv. reflexivity.
Qed.

Lemma failed_build_is_not_retried_witness :
  let w1 := exec (process_query_with_document "What is the total?" report_txt)
              (with_faults [false; false; false; true] fresh_world) in
  process_query_with_document "And the tax?" report_txt w1 = (Ok tt, w1).
Proof.
  apply (failed_build_is_not_retried
           (with_faults [false; false; false; true] fresh_world)
           "What is the total?" "And the tax?" report_txt
           "./processed_docs/report_20261103.txt"
           (Some "report_20261103.txt")).
  - vm_compute. discriminate.
  - vm_compute. reflexivity.
  - vm_compute. reflexivity.
Defined.

(** ** Creating and deleting sessions *)

(** X14.  [start_new_chat_session] never raises and ends in one of three
    ways.  The session row is stored, and its id is returned and made the
    current chat.  Or the storage fails before an id is handed out: nothing
    is stored, [None] is returned and the current chat is as before.  Or the
    commit fails: nothing is stored, yet the id that the rolled-back INSERT
    handed out is returned and made the current chat, an id that no session
    row has.  Each failure is logged. *)
Theorem start_new_chat_session_outcomes (w : World) :
  let w' := exec start_new_chat_session w in
  let id := created_id w in
  (outcome start_new_chat_session w = Ok (Some id) /\
   chat_id (st w') = PyInt id /\ db w' = created_db w)
  \/ (outcome start_new_chat_session w = Ok None /\
      chat_id (st w') = chat_id (st w) /\ db w' = db w /\
      exists e, root_log w' = root_log w ++ [create_error e])
  \/ (outcome start_new_chat_session w = Ok (Some id) /\
      chat_id (st w') = PyInt id /\ db w' = db w /\
      ~ In id (map s_id (chat_sessions (db w'))) /\
      exists e, root_log w' = root_log w ++ [create_error e]).
Proof.
  pose proof (next_id_fresh (seq_sessions (db w))
                (map s_id (chat_sessions (db w)))) as F.
  assert (N : ~ In (created_id w) (map s_id (chat_sessions (db w)))).
  { intros H. rewrite Forall_forall in F. specialize (F _ H).
    unfold created_id in F. lia. }
  clear F. revert N.
  destruct w as [d c u s ck tk f rl ue bs sv mc qb].
  unfold exec, outcome, start_new_chat_session, created_id, created_db,
    create_error.
  intros N.
  destruct qb; destruct f as [| [] [| [] [| [] f]]];
    cbn -[strftime_full next_id] in *;
    first
      [ left; repeat split; reflexivity
      | right; left; repeat split; eexists; reflexivity
      | right; right; repeat split; first [exact N | eexists; reflexivity] ].
Qed.

Lemma delete_chat_session_ok (w : World) (chat : option Z) :
  faults w = [] ->
  let d := delete_session_row chat (delete_messages_of chat (db w)) in
  delete_chat_session chat w = (Ok tt, set_db d (set_conn d w)).
Proof.
  intros Hf d. unfold delete_chat_session. apply try_except_ok.
  erewrite with_connection_ok; [| exact Hf |].
  2: { erewrite bind_Ok by (apply execute_ok; exact Hf).
       erewrite bind_Ok by (apply execute_ok; exact Hf).
       apply commit_ok. exact Hf. }
  reflexivity.
Qed.

(** X15.  The id of a deleted session is not given to a later one.  While
    the storage does not fail, a session created after the deletion of
    session [id], an id the table has handed out, gets a larger id: the
    tables are declared AUTOINCREMENT. *)
Theorem deleted_id_is_not_reused (w : World) (id : Z) :
  faults w = [] ->
  id <= seq_sessions (db w) ->
  let w1 := exec (delete_chat_session (Some id)) w in
  exists id',
    outcome start_new_chat_session w1 = Ok (Some id') /\
    id < id' /\
    In id' (map s_id (chat_sessions (db (exec start_new_chat_session w1)))).
Proof.
  intros Hf Hid w1.
  assert (Hw1 : w1 = set_db (deleted id (db w)) (set_conn (deleted id (db w)) w)).
  { unfold w1, exec. rewrite (delete_chat_session_ok w (Some id) Hf).
    reflexivity. }
  assert (Hf1 : faults w1 = []) by (rewrite Hw1; exact Hf).
  destruct (start_new_chat_session_ok w1 Hf1) as [Ho [Hd _]].
  eexists. split; [exact Ho |]. split.
  - pose proof (next_id_above_seq (seq_sessions (db w1))
                  (map s_id (chat_sessions (db w1)))) as K.
    rewrite Hw1 in K at 1. cbn [db set_db deleted delete_session_row
                                 delete_messages_of seq_sessions] in K.
    lia.
  - rewrite Hd. cbn [insert_session snd chat_sessions].
    rewrite map_app. apply in_or_app. right. left. reflexivity.
Qed.

Lemma deleted_id_is_not_reused_witness :
  exists id',
    outcome start_new_chat_session
      (exec (delete_chat_session (Some 2)) two_chats_one_document)
    = Ok (Some id') /\
    2 < id' /\
    In id' (map s_id (chat_sessions (db (exec start_new_chat_session
              (exec (delete_chat_session (Some 2)) two_chats_one_document))))).
Proof.
  apply (deleted_id_is_not_reused two_chats_one_document 2).
  - vm_compute. reflexivity.
  - vm_compute. discriminate.
Defined.

Lemma filter_all {A} (l : list A) : filter (fun _ => true) l = l.
Proof. induction l as [| x l IH]; cbn; [reflexivity | rewrite IH; reflexivity]. Qed.

Lemma delete_chat_session_keeps_st (chat : option Z) :
  keeps st (delete_chat_session chat).
Proof. unfold delete_chat_session. keeps_tac. Qed.

(** Deleting with [None] for an id: no row goes. *)
Lemma delete_chat_session_none (w : World) :
  chat_sessions (db (exec (delete_chat_session None) w))
  = chat_sessions (db w) /\
  chat_messages (db (exec (delete_chat_session None) w))
  = chat_messages (db w).
Proof.
  set (tables := fun d : DB => (chat_sessions d, chat_messages d)).
  assert (T : triple (fun x => tables (db x) = tables (db w))
                (delete_chat_session None)
                (fun _ x => tables (db x) = tables (db w))
                (fun _ x => tables (db x) = tables (db w))).
  { unfold delete_chat_session.
    apply triple_try_except
      with (E' := fun _ x => tables (db x) = tables (db w)).
    - apply triple_with_connection
        with (P1 := fun x => tables (db x) = tables (db w) /\
                             tables (conn x) = tables (db w)).
      { apply triple_connect; side. }
      apply triple_bind
        with (R := fun _ x => tables (db x) = tables (db w) /\
                              tables (conn x) = tables (db w)).
      { apply triple_execute; try solve [side].
        intros x [H1 H2]. split; [exact H1 |].
        unfold tables in *. cbn. rewrite filter_all.
        injection H2 as -> ->. reflexivity. }
      intros _.
      apply triple_bind
        with (R := fun _ x => tables (db x) = tables (db w) /\
                              tables (conn x) = tables (db w)).
      { apply triple_execute; try solve [side].
        intros x [H1 H2]. split; [exact H1 |].
        unfold tables in *. cbn. rewrite filter_all.
        injection H2 as -> ->. reflexivity. }
      intros _. apply triple_commit; side.
    - intros e _. apply triple_modify. auto.
    - auto. }
  pose proof (triple_run _ _ _ _ w T eq_refl) as R.
  assert (H : tables (db (exec (delete_chat_session None) w)) = tables (db w))
    by (destruct (outcome (delete_chat_session None) w); exact R).
  unfold tables in H. injection H as H1 H2. split; assumption.
Qed.

Lemma delete_button_run (w : World) (chat : option Z) :
  chat_id (st w) = match chat with Some id => PyInt id | None => PyNone end ->
  let w1 := exec (delete_chat_session chat) w in
  delete_button w
  = (Raise RerunException,
     set_st (set_chat_history [] (set_chat_id PyNone (st w))) w1).
Proof.
  intros Hc w1.
  destruct (delete_chat_session_returns chat w) as [[] Ho].
  pose proof (run_Ok _ _ _ Ho) as Hrun. fold w1 in Hrun.
  pose proof (delete_chat_session_keeps_st chat w) as Hst. fold w1 in Hst.
  unfold delete_button, try_except.
  erewrite bind_Ok by reflexivity. cbn beta. rewrite Hc.
  assert (E : (match match chat with Some id => PyInt id | None => PyNone end
               with
               | Absent => raise AttributeError
               | PyNone => delete_chat_session None
               | PyInt id => delete_chat_session (Some id)
               end) w = (Ok tt, w1)).
  { destruct chat; exact Hrun. }
  rewrite (bind_Ok _ _ _ _ _ E).
  unfold bind, modify_st, modify, st_rerun, raise. cbn.
  rewrite Hst. reflexivity.
Qed.

(** X16.  The "Delete" button.  Without the key [chat_id] in the session
    state it does nothing.  Otherwise it ends the run with a rerun, with no
    current chat and an empty in-memory history, whether or not the
    deletion succeeded: after a failed deletion the session and its
    messages are still stored, as they were, and only the selection is
    gone.  With [None] for a chat no row is deleted. *)
Theorem delete_button_outcomes (w : World) :
  let w' := exec delete_button w in
  match chat_id (st w) with
  | Absent => delete_button w = (Ok tt, w)
  | PyNone =>
      outcome delete_button w = Raise RerunException /\
      chat_id (st w') = PyNone /\ chat_history (st w') = [] /\
      chat_sessions (db w') = chat_sessions (db w) /\
      chat_messages (db w') = chat_messages (db w)
  | PyInt id =>
      outcome delete_button w = Raise RerunException /\
      chat_id (st w') = PyNone /\ chat_history (st w') = [] /\
      (db w' = deleted id (db w) \/ db w' = db w)
  end.
Proof.
  cbn zeta. destruct (chat_id (st w)) as [| | id] eqn:Hc.
  - unfold delete_button, try_except, bind, gets. rewrite Hc. reflexivity.
  - unfold exec, outcome. rewrite (delete_button_run w None Hc).
    cbn [fst snd st set_st chat_id chat_history set_chat_history set_chat_id
         db].
    repeat split; apply delete_chat_session_none.
  - unfold exec, outcome. rewrite (delete_button_run w (Some id) Hc).
    cbn [fst snd st set_st chat_id chat_history set_chat_history set_chat_id
         db].
    repeat split.
    pose proof (triple_run _ _ _ _ w (delete_chat_session_triple w id) eq_refl)
      as R.
    destruct (outcome (delete_chat_session (Some id)) w); [| contradiction].
    fold (exec (delete_chat_session (Some id)) w).
    destruct R as [R | [R _]]; [left | right]; exact R.
Qed.
(** ** Restoring a session's document *)











